(** * Risiko-Manager: the rating engine (elo.py), the ledger (db.py) and the
      request handlers that drive them (flask_app.py), embedded in Rocq.

    Ratings are Python floats stored in SQLite REAL columns: both are IEEE 754
    binary64, modelled by the kernel's primitive [float] with its own
    round-to-nearest-even operations.  A REAL column keeps every float it is
    given except -0.0, which it holds as +0.0 ([Database.real_column]).
    Counters are Python/SQLite integers, modelled by [Z].  Identifiers, names
    and dates are strings. *)

From Stdlib Require Import ZArith List String Bool Lia Floats Permutation Sorted.
From Stdlib Require Reals Lra.
Import ListNotations.

Set Warnings "-inexact-float".
Local Open Scope Z_scope.
Local Open Scope list_scope.

(** ** Python exceptions and results *)

Inductive pyexn : Type :=
| ValueError (msg : string)
| IntegrityError
| OverflowError
| ZeroDivisionError
| TypeError
| IndexError.

Inductive result (A : Type) : Type :=
| Ok (a : A)
| Raise (e : pyexn).
Arguments Ok {A} a.
Arguments Raise {A} e.

Definition rbind {A B} (r : result A) (k : A -> result B) : result B :=
  match r with
  | Ok a => k a
  | Raise e => Raise e
  end.

Declare Scope py_scope.
Delimit Scope py_scope with py.
Notation "x <- c ;; k" := (rbind c (fun x => k))
  (at level 100, c at next level, right associativity) : py_scope.

(** ** Python numbers

    [float(n)] of an int is the nearest binary64 (ties to even) and raises
    OverflowError outside the range; [int(x)] truncates toward zero and
    raises on an infinity or a NaN; [a / b] on ints is the correctly rounded
    quotient. *)

Definition Z2SF (n : Z) : spec_float := binary_normalize prec emax n 0 false.

Definition float_of_int (n : Z) : result float :=
  let f := SF2Prim (Z2SF n) in
  if PrimFloat.is_infinity f then Raise OverflowError else Ok f.

Definition int_of_float (x : float) : result Z :=
  match Prim2SF x with
  | S754_nan => Raise (ValueError "cannot convert float NaN to integer")
  | S754_infinity _ => Raise OverflowError
  | S754_zero _ => Ok 0
  | S754_finite s m e => Ok (cond_Zopp s (Z.shiftl (Zpos m) e))
  end.

(** [math.floor(x)], the reading the specification gives of [int]. *)
Definition floor_of_float (x : float) : result Z :=
  match Prim2SF x with
  | S754_nan => Raise (ValueError "cannot convert float NaN to integer")
  | S754_infinity _ => Raise OverflowError
  | S754_zero _ => Ok 0
  | S754_finite false m e => Ok (Z.shiftl (Zpos m) e)
  | S754_finite true m e => Ok (Z.shiftl (Zneg m) e)
  end.

Definition exact_int (n : Z) : spec_float :=
  match n with
  | Z0 => S754_zero false
  | Zpos m => S754_finite false m 0
  | Zneg m => S754_finite true m 0
  end.

Definition int_truediv (a b : Z) : result float :=
  if b =? 0 then Raise ZeroDivisionError
  else
    let q := SF2Prim (SFdiv prec emax (exact_int a) (exact_int b)) in
    if PrimFloat.is_infinity q then Raise OverflowError else Ok q.

(** A number that is an int on one path and a float on another. *)
Inductive pynum : Type :=
| PyInt (n : Z)
| PyFloat (x : float).

(** ** Magnitudes of binary64 values

    A finite float is [m * 2^e] for a positive mantissa [m]; bounds on it are
    stated on the integers [m] and [e]. *)

Module Magnitude.

(** [m * 2^e <= J * 2^K], for a grid [e] no coarser than [K]. *)
Definition below (J K m e : Z) : Prop := e <= K /\ m <= J * 2 ^ (K - e).

(** A float that is a zero or a finite number of magnitude at most
    [J * 2^K]. *)
Definition finite_below (J K : Z) (x : spec_float) : Prop :=
  match x with
  | S754_zero _ => True
  | S754_finite _ m e => below J K (Zpos m) e
  | _ => False
  end.

(** A float that is an infinity or a finite number of magnitude at least
    [2^(c-1)]. *)
Definition at_least (c : Z) (x : spec_float) : Prop :=
  match x with
  | S754_finite _ m e => c <= Zdigits2 (Zpos m) + e
  | S754_infinity _ => True
  | _ => False
  end.

(** The sign bit of a float that is not a NaN. *)
Definition sign_is (s : bool) (x : spec_float) : Prop :=
  match x with
  | S754_zero s' | S754_infinity s' | S754_finite s' _ _ => s' = s
  | S754_nan => False
  end.

(** The same for a truncated value: when something was cut off, the next
    point of the grid is still no larger. *)
Definition room (J K : Z) (e : Z) (mrs : shr_record) : Prop :=
  0 <= shr_m mrs
  /\ shr_m mrs <= J * 2 ^ (K - e)
  /\ (shr_r mrs || shr_s mrs = true -> shr_m mrs + 1 <= J * 2 ^ (K - e)).

(** What writing to a REAL column does to a float, on the specification
    side: a zero loses its sign. *)
Definition no_neg_zero (x : spec_float) : spec_float :=
  match x with
  | S754_zero _ => S754_zero false
  | _ => x
  end.

End Magnitude.

(** ** Stable descending sort, as [list.sort(key=..., reverse=True)] and
       [ORDER BY ... DESC] produce it *)

Section StableSort.
Context {A K : Type} (key : A -> K) (lt : K -> K -> bool).

Fixpoint insert_desc (x : A) (l : list A) : list A :=
  match l with
  | [] => [x]
  | y :: l' => if lt (key x) (key y) then y :: insert_desc x l' else x :: y :: l'
  end.

Definition sort_desc (l : list A) : list A := fold_right insert_desc [] l.
End StableSort.

(** ** The ledger: four tables *)

Module Database.

(** players(id, name, rating, games_played, created_at).  The [rating] column
    is nullable; SQLite stores a NaN as NULL and NULL propagates through
    arithmetic as NaN does, so a stored NULL is represented by [nan]. *)
Record Player : Type := mkPlayer {
  p_id : string;
  p_name : string;
  rating : float;
  games_played : Z;
  p_created_at : float
}.

(** matches(id, date, k_factor_used, winner_id, created_at) *)
Record Match : Type := mkMatch {
  m_id : string;
  m_date : string;
  k_factor_used : float;
  winner_id : string;
  m_created_at : float
}.

(** participations(id, match_id, player_id, is_winner, rating_before,
    rating_after, rating_delta) *)
Record Participation : Type := mkParticipation {
  pa_id : string;
  match_id : string;
  player_id : string;
  is_winner : Z;
  rating_before : float;
  rating_after : float;
  rating_delta : float
}.

(** The [system_settings] table holds at most the row keyed ['k_factor'];
    its text value is [str(k)], which [float] reads back as [k], so the row
    is kept as the float it denotes. *)
Record Ledger : Type := mkLedger {
  players : list Player;
  matches : list Match;
  participations : list Participation;
  k_factor_row : option float
}.

Definition set_players (s : Ledger) (ps : list Player) : Ledger :=
  mkLedger ps (matches s) (participations s) (k_factor_row s).
Definition set_matches (s : Ledger) (ms : list Match) : Ledger :=
  mkLedger (players s) ms (participations s) (k_factor_row s).
Definition set_participations (s : Ledger) (pas : list Participation) : Ledger :=
  mkLedger (players s) (matches s) pas (k_factor_row s).

(** The state of the connection right after [init_db] on a new file. *)
Definition init_db : Ledger := mkLedger [] [] [] (Some 32%float).

(** *** Statements run on the cursor

    A statement either changes the working state or raises; foreign keys are
    enforced ([PRAGMA foreign_keys = ON]), each check at the end of its
    statement. *)

Definition sql (A : Type) : Type := Ledger -> result (A * Ledger).

Definition ret {A} (a : A) : sql A := fun s => Ok (a, s).
Definition raise {A} (e : pyexn) : sql A := fun _ => Raise e.
Definition bind {A B} (c : sql A) (k : A -> sql B) : sql B :=
  fun s => match c s with
           | Ok (a, s') => k a s'
           | Raise e => Raise e
           end.

Declare Scope sql_scope.
Delimit Scope sql_scope with sql.
Notation "x <- c ;; k" := (bind c (fun x => k))
  (at level 100, c at next level, right associativity) : sql_scope.
Notation "c ;; k" := (bind c (fun _ => k))
  (at level 100, right associativity) : sql_scope.

Fixpoint for_each {A} (l : list A) (f : A -> sql unit) : sql unit :=
  match l with
  | [] => ret tt
  | x :: l' => (f x ;; for_each l' f)%sql
  end.

(** [try: body; commit  except Exception as e: rollback; raise e].  Every
    operation ends in a commit or a rollback, so the rollback restores the
    state the operation started from. *)
Definition transaction {A} (body : sql A) (s : Ledger) : result A * Ledger :=
  match body s with
  | Ok (a, s') => (Ok a, s')
  | Raise e => (Raise e, s)
  end.

Definition not_null (x : float) : bool := negb (PrimFloat.is_nan x).

(** What a REAL column holds after a float was written to it.  SQLite
    stores a float without a fractional part as an integer and reads it
    back as a float, which turns -0.0 into +0.0; every other value, an
    infinity or NULL included, comes back as it was written. *)
Definition real_column (x : float) : float :=
  if PrimFloat.is_zero x then 0%float else x.

Definition has_player (pid : string) (s : Ledger) : bool :=
  existsb (fun p => String.eqb (p_id p) pid) (players s).
Definition has_match (mid : string) (s : Ledger) : bool :=
  existsb (fun m => String.eqb (m_id m) mid) (matches s).

(** INSERT INTO players (id, name, created_at) VALUES (?, ?, ?) *)
Definition insert_player (new_id name : string) (now : float) : sql unit :=
  fun s =>
    if existsb (fun p => String.eqb (p_id p) new_id || String.eqb (p_name p) name)
               (players s)
    then Raise IntegrityError
    else Ok (tt, set_players s (players s
                                  ++ [mkPlayer new_id name 1200%float 0 (real_column now)])).

(** INSERT INTO matches (id, date, k_factor_used, winner_id, created_at) *)
Definition insert_match (m : Match) : sql unit :=
  fun s =>
    if has_match (m_id m) s then Raise IntegrityError
    else if negb (not_null (k_factor_used m)) then Raise IntegrityError
    else if negb (has_player (winner_id m) s) then Raise IntegrityError
    else Ok (tt, set_matches s
                   (matches s ++ [mkMatch (m_id m) (m_date m) (real_column (k_factor_used m))
                                          (winner_id m) (real_column (m_created_at m))])).

(** A participation row as the table holds it. *)
Definition stored_row (pa : Participation) : Participation :=
  mkParticipation (pa_id pa) (match_id pa) (player_id pa) (is_winner pa)
                  (real_column (rating_before pa)) (real_column (rating_after pa))
                  (real_column (rating_delta pa)).

(** INSERT INTO participations (...) VALUES (?, ?, ?, is_winner, ?, ?, ?) *)
Definition insert_participation (pa : Participation) : sql unit :=
  fun s =>
    if existsb (fun q => String.eqb (pa_id q) (pa_id pa)) (participations s)
    then Raise IntegrityError
    else if negb (not_null (rating_before pa) && not_null (rating_after pa)
                  && not_null (rating_delta pa))
    then Raise IntegrityError
    else if negb (has_match (match_id pa) s && has_player (player_id pa) s)
    then Raise IntegrityError
    else Ok (tt, set_participations s (participations s ++ [stored_row pa])).

(** UPDATE players SET rating = ?, games_played = games_played + 1 WHERE id = ? *)
Definition apply_rating (new_rating : float) (pid : string) (p : Player) : Player :=
  if String.eqb (p_id p) pid
  then mkPlayer (p_id p) (p_name p) (real_column new_rating) (games_played p + 1)
                (p_created_at p)
  else p.
Definition update_player_rating (new_rating : float) (pid : string) : sql unit :=
  fun s => Ok (tt, set_players s (map (apply_rating new_rating pid) (players s))).

(** UPDATE players SET rating = rating - ?, games_played = games_played - 1
    WHERE id = ? *)
Definition revert_rating (delta : float) (pid : string) (p : Player) : Player :=
  if String.eqb (p_id p) pid
  then mkPlayer (p_id p) (p_name p) (real_column (rating p - delta)%float) (games_played p - 1)
                (p_created_at p)
  else p.
Definition update_player_revert (delta : float) (pid : string) : sql unit :=
  fun s => Ok (tt, set_players s (map (revert_rating delta pid) (players s))).

(** SELECT player_id, rating_delta FROM participations WHERE match_id = ? *)
Definition select_participations (mid : string) : sql (list Participation) :=
  fun s => Ok (filter (fun pa => String.eqb (match_id pa) mid) (participations s), s).

(** SELECT id FROM matches WHERE winner_id = ? *)
Definition select_matches_won (pid : string) : sql (list string) :=
  fun s => Ok (map m_id (filter (fun m => String.eqb (winner_id m) pid) (matches s)), s).

(** DELETE FROM participations WHERE match_id = ? *)
Definition delete_participations_of_match (mid : string) : sql unit :=
  fun s => Ok (tt, set_participations s
                     (filter (fun pa => negb (String.eqb (match_id pa) mid))
                             (participations s))).

(** DELETE FROM participations WHERE player_id = ? *)
Definition delete_participations_of_player (pid : string) : sql unit :=
  fun s => Ok (tt, set_participations s
                     (filter (fun pa => negb (String.eqb (player_id pa) pid))
                             (participations s))).

(** DELETE FROM matches WHERE <doomed>: refused while a participation still
    references one of the deleted rows. *)
Definition delete_matches (doomed : Match -> bool) : sql unit :=
  fun s =>
    if existsb (fun pa => existsb (fun m => doomed m && String.eqb (m_id m) (match_id pa))
                                  (matches s))
               (participations s)
    then Raise IntegrityError
    else Ok (tt, set_matches s (filter (fun m => negb (doomed m)) (matches s))).

(** DELETE FROM players WHERE id = ?: refused while a match or a
    participation still references the player. *)
Definition delete_player_row (pid : string) : sql unit :=
  fun s =>
    if has_player pid s
       && (existsb (fun m => String.eqb (winner_id m) pid) (matches s)
           || existsb (fun pa => String.eqb (player_id pa) pid) (participations s))
    then Raise IntegrityError
    else Ok (tt, set_players s (filter (fun p => negb (String.eqb (p_id p) pid)) (players s))).

(** *** Settings *)

Definition get_k_factor (s : Ledger) : float :=
  match k_factor_row s with
  | Some v => v
  | None => 32%float
  end.

Definition set_k_factor (k : float) (s : Ledger) : result unit * Ledger :=
  (Ok tt, mkLedger (players s) (matches s) (participations s) (Some k)).

(** *** Players *)

(** [new_id] is the uuid4 drawn by the call and [now] its [time.time()]. *)
Definition create_player (new_id : string) (now : float) (name : string) (s : Ledger)
  : result string * Ledger :=
  match insert_player new_id name now s with
  | Ok (_, s') => (Ok new_id, s')
  | Raise IntegrityError => (Raise (ValueError "Player name already exists"), s)
  | Raise e => (Raise e, s)
  end.

Definition delete_player_body (pid : string) : sql unit :=
  (matches_won <- select_matches_won pid ;;
   for_each matches_won delete_participations_of_match ;;
   delete_matches (fun m => String.eqb (winner_id m) pid) ;;
   delete_participations_of_player pid ;;
   delete_player_row pid)%sql.

Definition delete_player (pid : string) : Ledger -> result unit * Ledger :=
  transaction (delete_player_body pid).

Definition delete_match_body (mid : string) : sql unit :=
  (parts <- select_participations mid ;;
   match parts with
   | [] => raise (ValueError "Match not found")
   | _ :: _ =>
       for_each parts (fun p => update_player_revert (rating_delta p) (player_id p)) ;;
       delete_participations_of_match mid ;;
       delete_matches (fun m => String.eqb (m_id m) mid)
   end)%sql.

Definition delete_match (mid : string) : Ledger -> result unit * Ledger :=
  transaction (delete_match_body mid).

Definition get_player (pid : string) (s : Ledger) : option Player :=
  find (fun p => String.eqb (p_id p) pid) (players s).

(** *** Matches *)

(** One entry of [losers_data]: {id, delta, new_rating, old_rating}. *)
Record LoserData : Type := mkLoserData {
  l_id : string;
  l_delta : float;
  l_new_rating : float;
  l_old_rating : float
}.

Fixpoint enumerate {A} (i : nat) (l : list A) : list (nat * A) :=
  match l with
  | [] => []
  | x :: l' => (i, x) :: enumerate (S i) l'
  end.

(** [uuid n] is the n-th uuid4 drawn by the call (0: the match, 1: the
    winner's participation, 2 + i: the i-th loser's) and [now] its
    [time.time()]. *)
Definition record_match_body (uuid : nat -> string) (now : float)
    (date : string) (winner : string) (loser_ids : list string)
    (winner_delta winner_new_rating : float) (losers_data : list LoserData)
    (mid : string) (k_used : float) : sql string :=
  (insert_match (mkMatch mid date k_used winner now) ;;
   let winner_old_rating := (winner_new_rating - winner_delta)%float in
   update_player_rating winner_new_rating winner ;;
   insert_participation
     (mkParticipation (uuid 1%nat) mid winner 1
                      winner_old_rating winner_new_rating winner_delta) ;;
   for_each (enumerate 2 losers_data)
     (fun il =>
        let pid := l_id (snd il) in
        let delta := l_delta (snd il) in
        let new_r := l_new_rating (snd il) in
        let old_r := l_old_rating (snd il) in
        update_player_rating new_r pid ;;
        insert_participation
          (mkParticipation (uuid (fst il)) mid pid 0 old_r new_r delta)) ;;
   ret mid)%sql.

Definition record_match (uuid : nat -> string) (now : float)
    (date : string) (winner : string) (loser_ids : list string)
    (winner_delta winner_new_rating : float) (losers_data : list LoserData)
    (s : Ledger) : result string * Ledger :=
  let mid := uuid 0%nat in
  let k_used := get_k_factor s in
  transaction (record_match_body uuid now date winner loser_ids
                 winner_delta winner_new_rating losers_data mid k_used) s.

(** *** Leaderboard *)

(** A player dict with the two keys [get_all_players] adds to it. *)
Record RankedPlayer : Type := mkRankedPlayer {
  player : Player;
  is_ranked : bool;
  threshold : Z
}.

(** [l.sort(key=lambda x: x['rating'], reverse=True)]: comparing a NULL
    rating (None) raises TypeError as soon as there are two elements. *)
Definition sort_by_rating (l : list RankedPlayer) : result (list RankedPlayer) :=
  if (2 <=? Z.of_nat (List.length l))
     && existsb (fun r => PrimFloat.is_nan (rating (player r))) l
  then Raise TypeError
  else Ok (sort_desc (fun r => rating (player r)) PrimFloat.ltb l).

Definition max_games_played (p0 : Player) (rest : list Player) : Z :=
  fold_left Z.max (map games_played rest) (games_played p0).

Definition leaderboard_threshold (max_games : Z) : result Z :=
  (x <- float_of_int max_games ;;
   t <- int_of_float (x * 0.20)%float ;;
   let calculated_threshold := Z.max 5 t in
   Ok (Z.min 15 calculated_threshold))%py.

Definition get_all_players (s : Ledger) : result (list RankedPlayer) :=
  match players s with
  | [] => Ok []
  | p0 :: rest =>
      (threshold <- leaderboard_threshold (max_games_played p0 rest) ;;
       let rows := map (fun p => mkRankedPlayer p (threshold <=? games_played p) threshold)
                       (p0 :: rest) in
       let ranked := filter is_ranked rows in
       let provisional := filter (fun r => negb (is_ranked r)) rows in
       ranked <- sort_by_rating ranked ;;
       provisional <- sort_by_rating provisional ;;
       Ok (ranked ++ provisional))%py
  end.

(** *** Histories *)

Record HistoryRow : Type := mkHistoryRow {
  h_match_id : string;
  h_date : string;
  h_is_winner : Z;
  h_rating_delta : float;
  h_rating_after : float
}.

(** participations p JOIN matches m ON p.match_id = m.id WHERE p.player_id = ?
    ORDER BY m.date DESC *)
Definition get_player_history (pid : string) (s : Ledger) : list HistoryRow :=
  sort_desc h_date String.ltb
    (flat_map
       (fun p =>
          if String.eqb (player_id p) pid
          then map (fun m => mkHistoryRow (match_id p) (m_date m) (is_winner p)
                                          (rating_delta p) (rating_after p))
                   (filter (fun m => String.eqb (match_id p) (m_id m)) (matches s))
          else [])
       (participations s)).

Record MatchSummary : Type := mkMatchSummary {
  ms_id : string;
  ms_date : string;
  winner_name : string;
  losers_names : string
}.

(** One row of
    matches m JOIN players w ON m.winner_id = w.id
              JOIN participations p ON p.match_id = m.id AND p.is_winner = 0
              JOIN players l ON p.player_id = l.id *)
Definition joined_rows (s : Ledger) : list (Match * Player * Participation * Player) :=
  flat_map (fun m =>
    flat_map (fun w =>
      flat_map (fun p =>
        map (fun l => (m, w, p, l))
            (filter (fun l => String.eqb (player_id p) (p_id l)) (players s)))
        (filter (fun p => String.eqb (match_id p) (m_id m) && (is_winner p =? 0))
                (participations s)))
      (filter (fun w => String.eqb (winner_id m) (p_id w)) (players s)))
    (matches s).

Definition jr_match (r : Match * Player * Participation * Player) : Match :=
  fst (fst (fst r)).
Definition jr_winner (r : Match * Player * Participation * Player) : Player :=
  snd (fst (fst r)).
Definition jr_loser (r : Match * Player * Participation * Player) : Player :=
  snd r.

(** GROUP_CONCAT(l.name, ', ') *)
Fixpoint group_concat (names : list string) : string :=
  match names with
  | [] => EmptyString
  | [n] => n
  | n :: rest => (n ++ ", " ++ group_concat rest)%string
  end.

(** GROUP BY m.id, then ORDER BY m.date DESC.  SQL leaves the order of the
    matches of one date open; SQLite runs the GROUP BY in the direction of
    the ORDER BY and keeps that order among equal dates, so they come by
    descending id. *)
Definition get_matches_history (s : Ledger) : list MatchSummary :=
  let rows := joined_rows s in
  let keys := sort_desc (fun k => k) String.ltb
                        (nodup string_dec (map (fun r => m_id (jr_match r)) rows)) in
  sort_desc ms_date String.ltb
    (flat_map
       (fun k =>
          match filter (fun r => String.eqb (m_id (jr_match r)) k) rows with
          | [] => []
          | r :: group =>
              [mkMatchSummary k (m_date (jr_match r)) (p_name (jr_winner r))
                              (group_concat (map (fun x => p_name (jr_loser x)) (r :: group)))]
          end)
       keys).

End Database.

(** ** The rating engine (elo.py) *)

Module Elo.

Section Engine.
(** The C library's [pow(10.0, y)] on finite [y]; its rounding is the
    platform's and is left open. *)
Variable libm_pow10 : float -> float.

(** [math.pow(10, y)]: the IEEE special cases are answered directly; on a
    finite [y] an infinite result of the C function raises OverflowError
    ("math range error") and a NaN result ValueError. *)
Definition math_pow10 (y : float) : result float :=
  if PrimFloat.is_nan y then Ok nan
  else if PrimFloat.is_infinity y
  then Ok (if (0 <? y)%float then infinity else 0%float)
  else
    let r := libm_pow10 y in
    if PrimFloat.is_nan r then Raise (ValueError "math domain error")
    else if PrimFloat.is_infinity r then Raise OverflowError
    else Ok r.

(** Python's [a / b] on floats. *)
Definition truediv (a b : float) : result float :=
  if PrimFloat.is_zero b then Raise ZeroDivisionError else Ok (a / b)%float.

Definition expected_score (rating_a rating_b : float) : result float :=
  (p <- math_pow10 ((rating_b - rating_a) / 400)%float ;;
   truediv 1 (1 + p)%float)%py.

(** The loop of [calculate_deltas], from the state
    [(winner_delta, loser_deltas)] it has reached. *)
Fixpoint calculate_deltas_from (winner_rating k_factor : float)
    (loser_ratings : list float) (winner_delta : float) (loser_deltas : list float)
  : result (float * list float) :=
  match loser_ratings with
  | [] => Ok (winner_delta, loser_deltas)
  | l_rating :: rest =>
      (exp_win <- expected_score winner_rating l_rating ;;
       let single_match_win_delta := (k_factor * (1 - exp_win))%float in
       let winner_delta := (winner_delta + single_match_win_delta)%float in
       exp_loss <- expected_score l_rating winner_rating ;;
       let single_match_loss_delta := (k_factor * (0 - exp_loss))%float in
       calculate_deltas_from winner_rating k_factor rest winner_delta
         (loser_deltas ++ [single_match_loss_delta]))%py
  end.

Definition calculate_deltas (winner_rating : float) (loser_ratings : list float)
    (k_factor : float) : result (float * list float) :=
  calculate_deltas_from winner_rating k_factor loser_ratings 0%float [].
End Engine.

(** *** A reference [pow(10.0, y)]

    An executable stand-in for the C library function, used only to run the
    engine on sample inputs: on an integral [y] it is the correctly rounded
    power (exact whenever [10^y] is a binary64 number), in between it is
    that power times a truncated exponential series, and beyond the
    binary64 range it is [+inf] or 0.  The properties of the engine are
    stated for an arbitrary [libm_pow10]. *)

Fixpoint exp_horner (x : float) (terms : nat) (i : float) : float :=
  match terms with
  | O => 1%float
  | S k => (1 + x / i * exp_horner x k (i + 1))%float
  end.

Definition pow10_int (n : Z) : float :=
  if 0 <=? n then SF2Prim (Z2SF (10 ^ n))
  else SF2Prim (SFdiv prec emax (exact_int 1) (exact_int (10 ^ (- n)))).

Definition pow10_ref (y : float) : float :=
  if (400 <? y)%float then infinity
  else if (y <? -400)%float then 0%float
  else
    match int_of_float y with
    | Ok n =>
        let frac := (y - SF2Prim (Z2SF n))%float in
        (pow10_int n * exp_horner (frac * 2.302585092994046) 40 1)%float
    | Raise _ => nan
    end.

End Elo.

(** ** The request handlers (flask_app.py), without the HTTP layer *)

Module FlaskApp.
Import Database.

(** *** Player statistics: the win rate of [get_player] *)

Definition total_games (history : list HistoryRow) : Z :=
  Z.of_nat (List.length history).

Definition wins (history : list HistoryRow) : Z :=
  Z.of_nat (List.length (filter (fun m => h_is_winner m =? 1) history)).

Definition win_rate (history : list HistoryRow) : result pynum :=
  if 0 <? total_games history
  then (q <- int_truediv (wins history) (total_games history) ;;
        Ok (PyFloat (q * 100)%float))%py
  else Ok (PyInt 0).

(** *** Recording a match: [create_match] *)

Inductive response : Type :=
| MatchCreated (mid : string) (delta_w : float) (deltas_l : list float)
| JsonError (status : Z).

Fixpoint lookup_losers (loser_ids : list string) (s : Ledger) : option (list Player) :=
  match loser_ids with
  | [] => Some []
  | lid :: rest =>
      match get_player lid s with
      | None => None
      | Some l =>
          match lookup_losers rest s with
          | None => None
          | Some ls => Some (l :: ls)
          end
      end
  end.

(** [losers_update_data]: [deltas_l[i]] raises IndexError past the end. *)
Fixpoint losers_update_data (losers : list Player) (i : nat) (deltas_l : list float)
  : result (list LoserData) :=
  match losers with
  | [] => Ok []
  | l_player :: rest =>
      match nth_error deltas_l i with
      | None => Raise IndexError
      | Some d =>
          (more <- losers_update_data rest (S i) deltas_l ;;
           Ok (mkLoserData (p_id l_player) d (rating l_player + d)%float (rating l_player)
                 :: more))%py
      end
  end.

Section Handlers.
Variable libm_pow10 : float -> float.

(** The body of the handler's [try].  A rating read as None (a stored NULL)
    raises TypeError at its first arithmetic use inside [calculate_deltas];
    the model raises it before the loop, which changes neither the ledger
    nor the handler's answer (every exception is answered with 500). *)
Definition create_match_try (uuid : nat -> string) (now : float)
    (winner : string) (loser_ids : list string) (date : string) (s : Ledger)
  : result response * Ledger :=
  match get_player winner s with
  | None => (Ok (JsonError 404), s)
  | Some w =>
      match lookup_losers loser_ids s with
      | None => (Ok (JsonError 404), s)
      | Some losers =>
          let winner_rating := rating w in
          let loser_ratings := map rating losers in
          let k := get_k_factor s in
          if existsb PrimFloat.is_nan (winner_rating :: loser_ratings)
          then (Raise TypeError, s)
          else
            match Elo.calculate_deltas libm_pow10 winner_rating loser_ratings k with
            | Raise e => (Raise e, s)
            | Ok (delta_w, deltas_l) =>
                let winner_new := (winner_rating + delta_w)%float in
                match losers_update_data losers 0 deltas_l with
                | Raise e => (Raise e, s)
                | Ok data =>
                    match record_match uuid now date winner loser_ids
                                       delta_w winner_new data s with
                    | (Ok mid, s') => (Ok (MatchCreated mid delta_w deltas_l), s')
                    | (Raise e, s') => (Raise e, s')
                    end
                end
            end
      end
  end.

Definition create_match (uuid : nat -> string) (now : float)
    (winner : string) (loser_ids : list string) (date : string) (s : Ledger)
  : response * Ledger :=
  if String.eqb winner "" || (match loser_ids with [] => true | _ => false end)
     || String.eqb date ""
  then (JsonError 400, s)
  else
    match create_match_try uuid now winner loser_ids date s with
    | (Ok r, s') => (r, s')
    | (Raise _, s') => (JsonError 500, s')
    end.
End Handlers.

End FlaskApp.

(** ** Notions used to state the properties *)

Module Spec.
Import Database.

(** [won_by pid s mid]: [mid] is the id of a match whose winner is [pid]. *)
Definition won_by (pid : string) (s : Ledger) (mid : string) : bool :=
  existsb (String.eqb mid)
          (map m_id (filter (fun m => String.eqb (winner_id m) pid) (matches s))).

(** The float sum of a sequence, accumulated from 0.0 in sequence order. *)
Definition fsum (l : list float) : float := fold_left PrimFloat.add l 0%float.

(** Apply a computation that may raise to each element in turn, stopping at
    the first exception. *)
Fixpoint map_result {A B} (f : A -> result B) (l : list A) : result (list B) :=
  match l with
  | [] => Ok []
  | x :: l' => (y <- f x ;; ys <- map_result f l' ;; Ok (y :: ys))%py
  end.

(** The two contributions of one loser: the winner's gain against that
    loser and the loser's own loss. *)
Definition pair_deltas (libm_pow10 : float -> float) (winner_rating k_factor lr : float)
  : result (float * float) :=
  (exp_win <- Elo.expected_score libm_pow10 winner_rating lr ;;
   exp_loss <- Elo.expected_score libm_pow10 lr winner_rating ;;
   Ok ((k_factor * (1 - exp_win))%float, (k_factor * (0 - exp_loss))%float))%py.

(** The rows [record_match] writes for match [mid], as the table holds
    them. *)
Definition winner_row (uuid : nat -> string) (mid winner : string)
    (winner_delta winner_new_rating : float) : Participation :=
  mkParticipation (uuid 1%nat) mid winner 1
                  (real_column (winner_new_rating - winner_delta)%float)
                  (real_column winner_new_rating) (real_column winner_delta).

Definition loser_row (uuid : nat -> string) (mid : string) (il : nat * LoserData)
  : Participation :=
  mkParticipation (uuid (fst il)) mid (l_id (snd il)) 0
                  (real_column (l_old_rating (snd il))) (real_column (l_new_rating (snd il)))
                  (real_column (l_delta (snd il))).

(** The participants of a recorded match with the new rating and the delta
    passed for each: the winner first, then the losers in order. *)
Definition participants (winner : string) (winner_delta winner_new_rating : float)
    (losers_data : list LoserData) : list (string * float * float) :=
  (winner, winner_new_rating, winner_delta)
    :: map (fun l => (l_id l, l_new_rating l, l_delta l)) losers_data.

(** What recording and then reversing a match leaves of a player row: the
    row itself for a bystander; for a participant, the row with its rating
    replaced by the binary64 difference of the new rating and the delta the
    tables hold for it. *)
Definition reverted (entries : list (string * float * float)) (p : Player) : Player :=
  match find (fun e => String.eqb (p_id p) (fst (fst e))) entries with
  | Some (_, new_rating, delta) =>
      mkPlayer (p_id p) (p_name p) (real_column new_rating - real_column delta)%float
               (games_played p) (p_created_at p)
  | None => p
  end.

(** The two player updates of one participant entry. *)
Definition apply_entry (q : Player) (e : string * float * float) : Player :=
  apply_rating (snd (fst e)) (fst (fst e)) q.
Definition revert_entry (q : Player) (e : string * float * float) : Player :=
  revert_rating (real_column (snd e)) (fst (fst e)) q.

(** The player update that reverses one participation row. *)
Definition revert_row (q : Player) (r : Participation) : Player :=
  revert_rating (rating_delta r) (player_id r) q.

(** Referential integrity, as the enforced foreign keys keep it. *)
Definition foreign_keys_hold (s : Ledger) : Prop :=
  (forall m, In m (matches s) -> has_player (winner_id m) s = true)
  /\ (forall pa, In pa (participations s) ->
                 has_match (match_id pa) s = true /\ has_player (player_id pa) s = true).

(** The public operations of the ledger, each with the uuids and the clock
    reading its call draws. *)
Inductive Op : Type :=
| CreatePlayer (new_id : string) (now : float) (name : string)
| RecordMatch (uuid : nat -> string) (now : float) (date winner : string)
              (loser_ids : list string) (winner_delta winner_new_rating : float)
              (losers_data : list LoserData)
| DeleteMatch (mid : string)
| DeletePlayer (pid : string)
| SetKFactor (k : float).

(** The ledger an operation leaves, whether it returned or raised. *)
Definition step (s : Ledger) (op : Op) : Ledger :=
  match op with
  | CreatePlayer new_id now name => snd (create_player new_id now name s)
  | RecordMatch uuid now date winner loser_ids wd wnew ld =>
      snd (record_match uuid now date winner loser_ids wd wnew ld s)
  | DeleteMatch mid => snd (delete_match mid s)
  | DeletePlayer pid => snd (delete_player pid s)
  | SetKFactor k => snd (set_k_factor k s)
  end.

Definition run (ops : list Op) : Ledger := fold_left step ops init_db.

Definition is_delete_player (op : Op) : bool :=
  match op with
  | DeletePlayer _ => true
  | _ => false
  end.

(** The stored participation rows of a player, their number, and 1200.0
    plus the sum of their deltas. *)
Definition rows_of (pid : string) (pas : list Participation) : list Participation :=
  filter (fun pa => String.eqb (player_id pa) pid) pas.

Definition participation_count (s : Ledger) (pid : string) : Z :=
  Z.of_nat (List.length (rows_of pid (participations s))).


End Spec.

(** ** Floats as real numbers *)

Module RealValue.
Import Stdlib.Reals.Reals.
Local Open Scope R_scope.

(** [2^e] for an integer exponent. *)
Definition pow2 (e : Z) : R := powerRZ 2 e.

(** The real number a zero or a finite float denotes; an infinity and a
    NaN denote none and are given 0. *)
Definition SF2R (x : spec_float) : R :=
  match x with
  | S754_finite s m e => IZR (cond_Zopp s (Zpos m)) * pow2 e
  | _ => 0
  end.

Definition to_R (x : float) : R := SF2R (Prim2SF x).

(** The truncation [(m, round bit, sticky bit)] at exponent [e] of the real
    [v]: [v] lies in [[m * 2^e, (m + 1) * 2^e)], and the two bits tell where
    it is relative to the midpoint. *)
Definition represents (mrs : shr_record) (e : Z) (v : R) : Prop :=
  match shr_r mrs, shr_s mrs with
  | false, false => v = IZR (shr_m mrs) * pow2 e
  | false, true => IZR (shr_m mrs) * pow2 e < v < (IZR (shr_m mrs) + / 2) * pow2 e
  | true, false => v = (IZR (shr_m mrs) + / 2) * pow2 e
  | true, true => (IZR (shr_m mrs) + / 2) * pow2 e < v < (IZR (shr_m mrs) + 1) * pow2 e
  end.

(** [r] is what rounding a real [v >= 0] with sign [s] gives: a zero or a
    finite float within [2^-53 * v + 2^-1075] of [v], or an infinity when
    [v] is that close to [2^1024]. *)
Definition rounded (s : bool) (v : R) (r : spec_float) : Prop :=
  match r with
  | S754_zero s' => s' = s /\ v <= pow2 (-53) * v + pow2 (-1075)
  | S754_finite s' m e =>
      s' = s /\ Rabs (IZR (Zpos m) * pow2 e - v) <= pow2 (-53) * v + pow2 (-1075)
  | S754_infinity s' => s' = s /\ pow2 1024 <= v + (pow2 (-53) * v + pow2 (-1075))
  | S754_nan => False
  end.

End RealValue.

(** ** The player page (get_player in flask_app.py): rank and streak *)

Module PlayerPage.
Import Database.

(** [next((i + 1 for i, p in enumerate(all_players) if p['id'] == id), "-")],
    scanned from index [i]; [None] stands for the default ["-"]. *)
Fixpoint rank_from (i : Z) (id : string) (all_players : list RankedPlayer) : option Z :=
  match all_players with
  | [] => None
  | p :: rest =>
      if String.eqb (p_id (player p)) id then Some (i + 1)
      else rank_from (i + 1) id rest
  end.

Definition rank (id : string) (all_players : list RankedPlayer) : option Z :=
  rank_from 0 id all_players.

(** The loop over [history] that counts the current streak, from the count
    it has reached; it stops at the first row of the other outcome. *)
Fixpoint streak_loop (streak_type : string) (history : list HistoryRow)
    (streak_count : Z) : Z :=
  match history with
  | [] => streak_count
  | m :: rest =>
      let is_win := h_is_winner m =? 1 in
      if (String.eqb streak_type "win"%string && is_win)
         || (String.eqb streak_type "loss"%string && negb is_win)
      then streak_loop streak_type rest (streak_count + 1)
      else streak_count
  end.

(** [(streak_type, streak_count)]; the type is None on an empty history. *)
Definition streak (history : list HistoryRow) : option string * Z :=
  match history with
  | [] => (None, 0)
  | first :: _ =>
      let first_match_win := h_is_winner first =? 1 in
      let streak_type := (if first_match_win then "win" else "loss")%string in
      (Some streak_type, streak_loop streak_type history 0)
  end.

End PlayerPage.

(** ** Notions used to state the consistency of the ledger *)

Module Consistency.
Import Database.

(** The primary keys and the UNIQUE name column. *)
Definition keys_unique (s : Ledger) : Prop :=
  NoDup (map p_id (players s)) /\ NoDup (map p_name (players s))
  /\ NoDup (map m_id (matches s)) /\ NoDup (map pa_id (participations s)).

(** The rows of a match that are flagged as its winner's. *)
Definition winner_rows (m : Match) (s : Ledger) : list Participation :=
  filter (fun pa => String.eqb (match_id pa) (m_id m) && (is_winner pa =? 1))
         (participations s).

(** Every stored match has exactly one winner row, and it names the
    winner of the match; every flag is 0 or 1. *)
Definition winner_rows_hold (s : Ledger) : Prop :=
  (forall m, In m (matches s) ->
             exists pa, winner_rows m s = [pa] /\ player_id pa = winner_id m)
  /\ (forall pa, In pa (participations s) -> is_winner pa = 0 \/ is_winner pa = 1).

(** Referential integrity, unique keys and winner rows together. *)
Definition consistent (s : Ledger) : Prop :=
  Spec.foreign_keys_hold s /\ keys_unique s /\ winner_rows_hold s.

(** What the constraints of the participations table ask of a new row:
    a fresh primary key, no NULL rating, an existing match and player. *)
Definition acceptable (pa : Participation) (s : Ledger) : Prop :=
  ~ In (pa_id pa) (map pa_id (participations s))
  /\ not_null (rating_before pa) = true /\ not_null (rating_after pa) = true
  /\ not_null (rating_delta pa) = true
  /\ has_match (match_id pa) s = true /\ has_player (player_id pa) s = true.

(** The same for one entry of [losers_data], its primary key apart. *)
Definition loser_ok (s : Ledger) (l : LoserData) : Prop :=
  has_player (l_id l) s = true
  /\ not_null (l_old_rating l) = true /\ not_null (l_new_rating l) = true
  /\ not_null (l_delta l) = true.

(** The participation keys [uuid i], ..., [uuid (i + n - 1)] are pairwise
    distinct and not stored yet. *)
Definition fresh_keys (uuid : nat -> string) (i n : nat) (s : Ledger) : Prop :=
  NoDup (map uuid (seq i n))
  /\ (forall j, In j (seq i n) -> ~ In (uuid j) (map pa_id (participations s))).

(** What the constraints of the three tables ask of a [record_match] call. *)
Definition recordable (uuid : nat -> string) (winner : string)
    (winner_delta winner_new_rating : float) (losers_data : list LoserData)
    (s : Ledger) : Prop :=
  has_match (uuid 0%nat) s = false
  /\ not_null (get_k_factor s) = true
  /\ has_player winner s = true
  /\ not_null (winner_new_rating - winner_delta)%float = true
  /\ not_null winner_new_rating = true /\ not_null winner_delta = true
  /\ Forall (loser_ok s) losers_data
  /\ fresh_keys uuid 1 (S (List.length losers_data)) s.

(** The state after one rating update and one accepted row. *)
Definition after_row (new_rating : float) (pid : string) (pa : Participation)
    (s : Ledger) : Ledger :=
  mkLedger (map (apply_rating new_rating pid) (players s)) (matches s)
           (participations s ++ [stored_row pa]) (k_factor_row s).

(** A player row after a recorded match: a participant has the new rating
    passed for it, as the REAL column holds it, and one more game; anyone
    else is untouched. *)
Definition recorded (entries : list (string * float * float)) (p : Player) : Player :=
  match find (fun e => String.eqb (p_id p) (fst (fst e))) entries with
  | Some (_, new_rating, _) =>
      mkPlayer (p_id p) (p_name p) (real_column new_rating) (games_played p + 1)
               (p_created_at p)
  | None => p
  end.

(** The rows of match [mid] that belong to player [p]. *)
Definition rows_in_match (mid : string) (p : Player) (s : Ledger) : list Participation :=
  filter (fun pa => String.eqb (match_id pa) mid && String.eqb (player_id pa) (p_id p))
         (participations s).

End Consistency.

(** ** Sample ledgers and calls *)

Module Sample.
Import Database Spec.
Local Open Scope string_scope.

(** A uuid stream: the tag followed by the index of the draw. *)
Definition uuids (tag : string) (n : nat) : string :=
  (tag ++ String (Ascii.ascii_of_nat (48 + n)) EmptyString)%string.

(** Two new players, with the global K-factor set to [k]. *)
Definition two_players (k : float) : Ledger :=
  run [CreatePlayer "A" 1%float "alice"; CreatePlayer "B" 2%float "bob"; SetKFactor k].

(** The [record_match] call that [create_match] issues when "A" beats "B",
    both rated [r], under K-factor [k]: equal ratings give an expected score
    of 0.5 on both sides. *)
Definition record_a_beats_b (tag : string) (now : float) (date : string) (r k : float)
  : Ledger -> result string * Ledger :=
  let delta_w := (k * (1 - 0.5))%float in
  let delta_l := (k * (0 - 0.5))%float in
  record_match (uuids tag) now date "A" ["B"] delta_w (r + delta_w)%float
               [mkLoserData "B" delta_l (r + delta_l)%float r].

(** Two players rated 1023.9, just under a power of two. *)
Definition near_1024 : Ledger :=
  mkLedger [mkPlayer "A" "alice" 1023.9%float 0 1%float;
            mkPlayer "B" "bob" 1023.9%float 0 2%float]
           [] [] (Some 32%float).


(** "A" beats "B" under the default K-factor, then "A" is deleted. *)
Definition winner_deleted : list Op :=
  [CreatePlayer "A" 1%float "alice"; CreatePlayer "B" 2%float "bob";
   RecordMatch (uuids "m") 3%float "2024-01-01" "A" ["B"] 16%float 1216%float
               [mkLoserData "B" (-16)%float 1184%float 1200%float];
   DeletePlayer "A"].

(** A history of three games, newest first: a win, a loss, a win. *)
Definition two_wins_in_three : list HistoryRow :=
  [mkHistoryRow "m3" "2024-01-03" 1 16%float 1232%float;
   mkHistoryRow "m2" "2024-01-02" 0 (-16)%float 1216%float;
   mkHistoryRow "m1" "2024-01-01" 1 16%float 1232%float].

(** Two players rated 200000 points apart. *)
Definition far_apart : Ledger :=
  mkLedger [mkPlayer "A" "alice" 0%float 0 1%float;
            mkPlayer "B" "bob" 200000%float 0 2%float]
           [] [] (Some 32%float).

(** "A" beats "B" twice on the same day, in matches "m0" and then "n0". *)
Definition same_day : list Op :=
  [CreatePlayer "A" 1%float "alice"; CreatePlayer "B" 2%float "bob";
   RecordMatch (uuids "m") 3%float "2024-01-01" "A" ["B"] 16%float 1216%float
               [mkLoserData "B" (-16)%float 1184%float 1200%float];
   RecordMatch (uuids "n") 4%float "2024-01-01" "A" ["B"] 16%float 1232%float
               [mkLoserData "B" (-16)%float 1168%float 1184%float]].

(** The ledger after "A" beat "B", both new, under K = 32. *)
Definition a_beat_b : Ledger :=
  snd (record_a_beats_b "m" 3%float "2024-01-01" 1200%float 32%float
                        (two_players 32%float)).

End Sample.

(** * Properties *)

(** ** Rounding in binary64

    The facts below are read off the specification of the primitive
    operations ([SpecFloat]): truncation to the working exponent, rounding
    to nearest even, and the second normalisation. *)

Module Binary64.
Import Magnitude.

Lemma shr_1_nonneg (mrs : shr_record) :
  0 <= shr_m mrs ->
  shr_1 mrs = Build_shr_record (Z.div2 (shr_m mrs)) (Z.odd (shr_m mrs))
                               (shr_r mrs || shr_s mrs).
Proof.
  destruct mrs as [m r s]. cbn [shr_m shr_r shr_s]. intros Hm.
  destruct m as [|[p|p|]|p]; try reflexivity. lia.
Qed.

Lemma iter_pos_shr_1 (P : Z -> shr_record -> Prop) :
  (forall e x, P e x -> P (e + 1) (shr_1 x)) ->
  forall (p : positive) (e : Z) (x : shr_record),
    P e x -> P (e + Zpos p) (iter_pos shr_1 p x).
Proof.
  intros Hstep. induction p as [p IH|p IH|]; intros e x Hx; cbn [iter_pos].
  - replace (e + Zpos p~1) with (e + 1 + Zpos p + Zpos p) by lia.
    apply IH, IH, Hstep, Hx.
  - replace (e + Zpos p~0) with (e + Zpos p + Zpos p) by lia.
    apply IH, IH, Hx.
  - apply Hstep, Hx.
Qed.

Lemma room_shr_1 (J K e : Z) (mrs : shr_record) :
  e + 1 <= K -> room J K e mrs -> room J K (e + 1) (shr_1 mrs).
Proof.
  intros HK (Hm & Hle & Hin). rewrite (shr_1_nonneg mrs Hm).
  unfold room. cbn [shr_m shr_r shr_s].
  replace (K - e) with (Z.succ (K - (e + 1))) in * by lia.
  rewrite Z.pow_succ_r in * by lia.
  set (B := J * 2 ^ (K - (e + 1))) in *.
  replace (J * (2 * 2 ^ (K - (e + 1)))) with (2 * B) in * by (unfold B; ring).
  rewrite Z.div2_div.
  pose proof (Z.div_mod (shr_m mrs) 2 ltac:(lia)) as Hdm.
  pose proof (Z.mod_pos_bound (shr_m mrs) 2 ltac:(lia)) as Hmod.
  split; [apply Z.div_pos; lia|]. split; [lia|].
  intros Hinex. apply orb_true_iff in Hinex. destruct Hinex as [Hodd|Hrs].
  - rewrite Zodd_mod in Hodd. apply Z.eqb_eq in Hodd. lia.
  - specialize (Hin Hrs). lia.
Qed.

(** *** Digits *)

Lemma digits2_pos_size (p : positive) : digits2_pos p = Pos.size p.
Proof. induction p as [p IH|p IH|]; cbn; now rewrite ?IH. Qed.

Lemma Zdigits2_log2 (m : Z) : 0 < m -> Zdigits2 m = Z.log2 m + 1.
Proof.
  destruct m as [|p|p]; try lia. intros _.
  destruct p as [p|p|]; cbn; rewrite ?digits2_pos_size; lia.
Qed.

Lemma Zdigits2_nonneg (m : Z) : 0 <= Zdigits2 m.
Proof. destruct m; cbn; lia. Qed.

Lemma Zdigits2_spec (m : Z) : 0 < m -> 2 ^ (Zdigits2 m - 1) <= m < 2 ^ Zdigits2 m.
Proof.
  intros Hm. rewrite (Zdigits2_log2 m Hm).
  replace (Z.log2 m + 1 - 1) with (Z.log2 m) by lia.
  replace (Z.log2 m + 1) with (Z.succ (Z.log2 m)) by lia.
  now apply Z.log2_spec.
Qed.

Lemma Zdigits2_mono (a b : Z) : 0 <= a <= b -> Zdigits2 a <= Zdigits2 b.
Proof.
  intros [Ha Hab]. destruct (Z.eq_dec a 0) as [->|Hne].
  - apply Zdigits2_nonneg.
  - rewrite !Zdigits2_log2 by lia. pose proof (Z.log2_le_mono a b Hab). lia.
Qed.

Lemma Zdigits2_div_pow2 (m n : Z) :
  0 < m -> 0 <= n < Zdigits2 m -> Zdigits2 (m / 2 ^ n) = Zdigits2 m - n.
Proof.
  intros Hm Hn. rewrite (Zdigits2_log2 m Hm) in *.
  rewrite <- Z.shiftr_div_pow2 by lia.
  assert (Hlog : Z.log2 (Z.shiftr m n) = Z.log2 m - n).
  { rewrite Z.log2_shiftr by lia. lia. }
  assert (Hpos : 0 < Z.shiftr m n).
  { rewrite Z.shiftr_div_pow2 by lia.
    apply Z.div_str_pos. split; [apply Z.pow_pos_nonneg; lia|].
    apply Z.le_trans with (2 ^ Z.log2 m); [apply Z.pow_le_mono_r; lia|].
    apply Z.log2_spec; lia. }
  rewrite Zdigits2_log2 by exact Hpos. lia.
Qed.

Lemma div_pow2_small (m n : Z) : 0 <= m -> Zdigits2 m <= n -> m / 2 ^ n = 0.
Proof.
  intros Hm Hn. pose proof (Zdigits2_nonneg m) as Hd.
  destruct (Z.eq_dec m 0) as [->|Hne]; [apply Z.div_0_l; apply Z.pow_nonzero; lia|].
  apply Z.div_small. split; [lia|].
  apply Z.lt_le_trans with (2 ^ Zdigits2 m); [apply Zdigits2_spec; lia|].
  apply Z.pow_le_mono_r; lia.
Qed.

Lemma Zdigits2_mul_pow2 (m n : Z) :
  0 < m -> 0 <= n -> Zdigits2 (m * 2 ^ n) = Zdigits2 m + n.
Proof.
  intros Hm Hn. rewrite <- Z.shiftl_mul_pow2 by lia.
  assert (Hpos : 0 < Z.shiftl m n).
  { rewrite Z.shiftl_mul_pow2 by lia. apply Z.mul_pos_pos; [lia|].
    apply Z.pow_pos_nonneg; lia. }
  rewrite !Zdigits2_log2 by assumption. rewrite Z.log2_shiftl by lia. lia.
Qed.

(** A value below [J * 2^K] with [J] of at most [prec] digits has its
    leading digit below position [prec + K]. *)
Lemma digits_below (J K m e : Z) :
  0 < J < 2 ^ prec -> 0 <= m -> below J K m e -> Zdigits2 m + e - prec <= K.
Proof.
  intros HJ Hm [HeK Hle]. destruct (Z.eq_dec m 0) as [->|Hne]; [cbn; unfold prec; lia|].
  pose proof (Zdigits2_spec m ltac:(lia)) as [Hlo _].
  assert (Hlt : 2 ^ (Zdigits2 m - 1) < 2 ^ (prec + (K - e))).
  { apply Z.le_lt_trans with (J * 2 ^ (K - e)); [lia|].
    rewrite Z.pow_add_r by (unfold prec; lia).
    apply Z.mul_lt_mono_pos_r; [apply Z.pow_pos_nonneg; lia | lia]. }
  apply Z.pow_lt_mono_r_iff in Hlt; unfold prec in *; lia.
Qed.

(** *** Shifting to the working exponent *)

Lemma shr_m_iter (p : positive) (mrs : shr_record) :
  0 <= shr_m mrs ->
  0 <= shr_m (iter_pos shr_1 p mrs)
  /\ shr_m (iter_pos shr_1 p mrs) = shr_m mrs / 2 ^ Zpos p.
Proof.
  intros Hm.
  pose (P := fun (e : Z) (x : shr_record) =>
               0 <= e /\ 0 <= shr_m x /\ shr_m x = shr_m mrs / 2 ^ e).
  assert (H : P (0 + Zpos p) (iter_pos shr_1 p mrs)).
  { apply iter_pos_shr_1.
    - intros e x (He & Hx & Heq). rewrite (shr_1_nonneg x Hx). cbn [shr_m].
      rewrite Z.div2_div. repeat split; [lia | apply Z.div_pos; lia|].
      rewrite Heq, Z.div_div by (try apply Z.pow_pos_nonneg; lia).
      replace (e + 1) with (Z.succ e) by lia. rewrite Z.pow_succ_r by lia.
      cbn [shr_m]. f_equal; lia.
    - repeat split; [lia | exact Hm|]. now rewrite Z.div_1_r. }
  destruct H as (_ & H1 & H2). now split.
Qed.

Lemma room_iter (J K e : Z) (p : positive) (mrs : shr_record) :
  e + Zpos p <= K -> room J K e mrs -> room J K (e + Zpos p) (iter_pos shr_1 p mrs).
Proof.
  intros HK Hroom.
  pose (P := fun (e' : Z) (x : shr_record) => e' <= e + Zpos p -> room J K e' x).
  assert (H : P (e + Zpos p) (iter_pos shr_1 p mrs)).
  { apply iter_pos_shr_1.
    - intros e' x Hx Hle. apply room_shr_1; [lia|]. apply Hx. lia.
    - intros _. exact Hroom. }
  apply H. lia.
Qed.

Lemma fexp_unfold (x : Z) : fexp prec emax x = Z.max (x - 53) (-1074).
Proof. reflexivity. Qed.

Lemma shr_m_of_loc (m : Z) (l : location) : shr_m (shr_record_of_loc m l) = m.
Proof. destruct l as [|[]]; reflexivity. Qed.

Lemma shr_fexp_room (J K m e : Z) (l : location) (mrs : shr_record) (e' : Z) :
  0 < J < 2 ^ prec -> -1074 <= K -> e <= K ->
  room J K e (shr_record_of_loc m l) ->
  shr_fexp prec emax m e l = (mrs, e') ->
  room J K e' mrs /\ e' <= K.
Proof.
  intros HJ HK He Hroom H. unfold shr_fexp, shr in H.
  assert (Hd : Zdigits2 m + e - prec <= K).
  { apply (digits_below J K m e HJ).
    - destruct Hroom as [H0 _]. now rewrite shr_m_of_loc in H0.
    - destruct Hroom as (_ & H1 & _). rewrite shr_m_of_loc in H1. now split. }
  rewrite fexp_unfold in H. unfold prec in Hd.
  destruct (Z.max (Zdigits2 m + e - 53) (-1074) - e) as [|p|p] eqn:Hn;
    injection H as <- <-; try (split; [exact Hroom | exact He]).
  split; [apply room_iter; [lia | exact Hroom] | lia].
Qed.

Lemma shr_fexp_canonical (m e : Z) (l : location) (mrs : shr_record) (e' : Z) :
  0 <= m -> e <= fexp prec emax (Zdigits2 m + e) ->
  shr_fexp prec emax m e l = (mrs, e') ->
  e' = fexp prec emax (Zdigits2 m + e)
  /\ 0 <= shr_m mrs
  /\ (0 < shr_m mrs -> fexp prec emax (Zdigits2 (shr_m mrs) + e') = e')
  /\ (shr_m mrs = 0 -> e' = -1074).
Proof.
  intros Hm He H. unfold shr_fexp, shr in H. rewrite fexp_unfold in *.
  pose proof (Zdigits2_nonneg m) as Hd0.
  destruct (Z.max (Zdigits2 m + e - 53) (-1074) - e) as [|p|p] eqn:Hn;
    injection H as <- <-; rewrite ?shr_m_of_loc.
  - repeat split; try lia.
    + intros _. rewrite fexp_unfold. lia.
    + intros ->. cbn in *. lia.
  - destruct (shr_m_iter p (shr_record_of_loc m l)) as [H0 Hdiv];
      [now rewrite shr_m_of_loc|].
    rewrite shr_m_of_loc in Hdiv. rewrite Hdiv in *.
    split; [lia|]. split; [exact H0|]. split.
    + intros Hpos. rewrite fexp_unfold.
      destruct (Z_lt_le_dec (Zpos p) (Zdigits2 m)) as [Hlt|Hge].
      * assert (Hmpos : 0 < m) by (destruct m; cbn in *; lia).
        rewrite Zdigits2_div_pow2 by lia. lia.
      * rewrite div_pow2_small in Hpos by lia. lia.
    + intros Hz.
      destruct (Z_lt_le_dec (Zpos p) (Zdigits2 m)) as [Hlt|Hge]; [|lia].
      exfalso. assert (Hmpos : 0 < m) by (destruct m; cbn in *; lia).
      pose proof (Zdigits2_div_pow2 m (Zpos p) Hmpos ltac:(lia)) as Hdd.
      rewrite Hz in Hdd. cbn in Hdd. lia.
  - lia.
Qed.

(** *** Rounding *)

Lemma round_nearest_even_room (J K e : Z) (mrs : shr_record) :
  room J K e mrs ->
  let m' := round_nearest_even (shr_m mrs) (loc_of_shr_record mrs) in
  shr_m mrs <= m' <= shr_m mrs + 1 /\ m' <= J * 2 ^ (K - e).
Proof.
  intros (H0 & Hle & Hin). destruct mrs as [m [|] [|]]; cbn in *;
    try destruct (Z.even m); specialize (Hin ltac:(try reflexivity; auto)) || idtac; lia.
Qed.

(** A rounded value stays below a representable bound it started below,
    and it does not overflow. *)
Lemma binary_round_aux_below (J K : Z) (sx : bool) (mx ex : Z) (lx : location) :
  0 < J < 2 ^ prec -> -1074 <= K <= emax - prec -> ex <= K ->
  room J K ex (shr_record_of_loc mx lx) ->
  binary_round_aux prec emax sx mx ex lx = S754_zero sx
  \/ exists m e, binary_round_aux prec emax sx mx ex lx = S754_finite sx m e
                 /\ below J K (Zpos m) e.
Proof.
  intros HJ HK Hex Hroom. unfold binary_round_aux.
  destruct (shr_fexp prec emax mx ex lx) as [mrs1 e1] eqn:H1.
  destruct (shr_fexp_room J K mx ex lx mrs1 e1 HJ ltac:(lia) Hex Hroom H1)
    as [Hroom1 He1].
  pose proof (round_nearest_even_room J K e1 mrs1 Hroom1) as [Hr1 Hr2].
  set (m1' := round_nearest_even (shr_m mrs1) (loc_of_shr_record mrs1)) in *.
  destruct (shr_fexp prec emax m1' e1 loc_Exact) as [mrs2 e2] eqn:H2.
  assert (Hroom' : room J K e1 (shr_record_of_loc m1' loc_Exact)).
  { destruct Hroom1 as [H0 _]. unfold room. cbn. repeat split; try lia; try discriminate. }
  destruct (shr_fexp_room J K m1' e1 loc_Exact mrs2 e2 HJ ltac:(lia) He1 Hroom' H2)
    as [(H0 & Hle & _) He2].
  destruct (shr_m mrs2) as [|m|m] eqn:Hm2; [now left| |lia].
  right. exists m, e2. split; [|now split].
  assert (Hleb : (e2 <=? emax - prec) = true) by (apply Z.leb_le; lia).
  now rewrite Hleb.
Qed.

Lemma fexp_mono (x y : Z) : x <= y -> fexp prec emax x <= fexp prec emax y.
Proof. intros H. rewrite !fexp_unfold. lia. Qed.

(** A value that comes with enough digits is rounded to a valid float. *)
Lemma binary_round_aux_valid (sx : bool) (mx ex : Z) (lx : location) :
  0 <= mx -> ex <= fexp prec emax (Zdigits2 mx + ex) ->
  valid_binary (binary_round_aux prec emax sx mx ex lx) = true.
Proof.
  intros Hmx Hex. unfold binary_round_aux.
  destruct (shr_fexp prec emax mx ex lx) as [mrs1 e1] eqn:H1.
  destruct (shr_fexp_canonical mx ex lx mrs1 e1 Hmx Hex H1) as (_ & H0 & Hcan & Hzero).
  set (m1' := round_nearest_even (shr_m mrs1) (loc_of_shr_record mrs1)).
  assert (Hm1' : shr_m mrs1 <= m1' <= shr_m mrs1 + 1).
  { unfold m1'. destruct mrs1 as [m [|] [|]]; cbn; try destruct (Z.even m); lia. }
  destruct (shr_fexp prec emax m1' e1 loc_Exact) as [mrs2 e2] eqn:H2.
  assert (He1 : e1 <= fexp prec emax (Zdigits2 m1' + e1)).
  { destruct (Z.eq_dec (shr_m mrs1) 0) as [Hz|Hnz].
    - rewrite (Hzero Hz), fexp_unfold. lia.
    - rewrite <- (Hcan ltac:(lia)) at 1. apply fexp_mono.
      pose proof (Zdigits2_mono (shr_m mrs1) m1' ltac:(lia)). lia. }
  destruct (shr_fexp_canonical m1' e1 loc_Exact mrs2 e2 ltac:(lia) He1 H2)
    as (_ & H0' & Hcan' & _).
  destruct (shr_m mrs2) as [|m|m] eqn:Hm2; [reflexivity| |reflexivity].
  destruct (e2 <=? emax - prec) eqn:Hb; [|reflexivity].
  cbn [valid_binary]. unfold bounded, canonical_mantissa.
  rewrite Hb, andb_true_r. apply Z.eqb_eq. apply (Hcan' ltac:(lia)).
Qed.

Lemma binary_round_aux_good (J K : Z) (sx : bool) (mx ex : Z) (lx : location) :
  0 < J < 2 ^ prec -> -1074 <= K <= emax - prec -> ex <= K ->
  room J K ex (shr_record_of_loc mx lx) ->
  finite_below J K (binary_round_aux prec emax sx mx ex lx).
Proof.
  intros HJ HK Hex Hroom.
  destruct (binary_round_aux_below J K sx mx ex lx HJ HK Hex Hroom)
    as [->|(m & e & -> & Hb)]; [exact I | exact Hb].
Qed.

Lemma room_exact (J K m e : Z) :
  0 <= m -> below J K m e -> room J K e (shr_record_of_loc m loc_Exact).
Proof. intros Hm [_ Hle]. unfold room. cbn. repeat split; try lia; try discriminate. Qed.

(** *** Multiplication *)

Lemma SFmul_below (J1 K1 J2 K2 J K c : Z) (x y : spec_float) :
  0 < J < 2 ^ prec -> -1074 <= K <= emax - prec ->
  0 <= c -> K = K1 + K2 + c -> 0 <= J1 -> 0 <= J2 -> J1 * J2 <= J * 2 ^ c ->
  finite_below J1 K1 x -> finite_below J2 K2 y ->
  finite_below J K (SFmul prec emax x y).
Proof.
  intros HJ HK Hc HKc HJ1 HJ2 HJJ Hx Hy.
  destruct x as [sx|sx| |sx mx ex]; try contradiction;
    destruct y as [sy|sy| |sy my ey]; try contradiction; try exact I.
  cbn [finite_below SFmul] in *. destruct Hx as [Hex Hmx], Hy as [Hey Hmy].
  apply binary_round_aux_good; [exact HJ | exact HK | lia|].
  apply room_exact; [lia|]. split; [lia|].
  rewrite Pos2Z.inj_mul.
  assert (Hp1 : 0 < 2 ^ (K1 - ex)) by (apply Z.pow_pos_nonneg; lia).
  assert (Hp2 : 0 < 2 ^ (K2 - ey)) by (apply Z.pow_pos_nonneg; lia).
  replace (K - (ex + ey)) with (c + ((K1 - ex) + (K2 - ey))) by lia.
  rewrite !Z.pow_add_r by lia.
  apply Z.le_trans with ((J1 * 2 ^ (K1 - ex)) * (J2 * 2 ^ (K2 - ey))).
  - apply Z.mul_le_mono_nonneg; lia.
  - replace (J1 * 2 ^ (K1 - ex) * (J2 * 2 ^ (K2 - ey)))
      with ((J1 * J2) * (2 ^ (K1 - ex) * 2 ^ (K2 - ey))) by ring.
    replace (J * (2 ^ c * (2 ^ (K1 - ex) * 2 ^ (K2 - ey))))
      with ((J * 2 ^ c) * (2 ^ (K1 - ex) * 2 ^ (K2 - ey))) by ring.
    apply Z.mul_le_mono_nonneg_r; [|exact HJJ].
    apply Z.lt_le_incl, Z.mul_pos_pos; assumption.
Qed.

(** *** Conversion of an integer scaled by a power of two *)

Lemma iter_xO (m d : positive) : Zpos (Pos.iter xO m d) = Zpos m * 2 ^ Zpos d.
Proof.
  induction d as [|d IH] using Pos.peano_ind.
  - cbn. lia.
  - rewrite Pos.iter_succ, Pos2Z.inj_xO, IH, Pos2Z.inj_succ, Z.pow_succ_r by lia. ring.
Qed.

Lemma shl_align_spec (mx : positive) (ex ex' : Z) :
  let '(mz, ez) := shl_align mx ex ex' in
  ez = Z.min ex ex' /\ Zpos mz = Zpos mx * 2 ^ (ex - ez).
Proof.
  unfold shl_align. destruct (ex' - ex) as [|d|d] eqn:Hd.
  - split; [lia|]. replace (ex - ex) with 0 by lia. cbn. lia.
  - split; [lia|]. replace (ex - ex) with 0 by lia. cbn. lia.
  - split; [lia|]. rewrite iter_xO. f_equal. f_equal. lia.
Qed.

Lemma binary_round_good (J K : Z) (sx : bool) (m : positive) (e : Z) :
  0 < J < 2 ^ prec -> -1074 <= K <= emax - prec ->
  below J K (Zpos m) e ->
  valid_binary (binary_round prec emax sx m e) = true
  /\ finite_below J K (binary_round prec emax sx m e).
Proof.
  intros HJ HK [HeK Hle]. unfold binary_round.
  pose proof (shl_align_spec m e (fexp prec emax (Zpos (digits2_pos m) + e))) as Hsh.
  destruct (shl_align m e (fexp prec emax (Zpos (digits2_pos m) + e))) as [mz ez].
  destruct Hsh as [Hez Hmz].
  assert (Hshift : 0 <= e - ez) by lia.
  split.
  - apply binary_round_aux_valid; [lia|].
    rewrite Hmz, Zdigits2_mul_pow2 by lia.
    replace (Zdigits2 (Zpos m) + (e - ez) + ez) with (Zpos (digits2_pos m) + e)
      by (cbn [Zdigits2]; lia).
    lia.
  - apply binary_round_aux_good; [exact HJ | exact HK | lia|].
    apply room_exact; [lia|]. split; [lia|]. rewrite Hmz.
    replace (K - ez) with ((K - e) + (e - ez)) by lia.
    rewrite Z.pow_add_r by lia. rewrite Z.mul_assoc.
    apply Z.mul_le_mono_nonneg_r; [apply Z.pow_nonneg; lia | exact Hle].
Qed.

Lemma Z2SF_good (J K n : Z) :
  0 < J < 2 ^ prec -> 0 <= K <= emax - prec -> Z.abs n <= J * 2 ^ K ->
  valid_binary (binary_normalize prec emax n 0 false) = true
  /\ finite_below J K (binary_normalize prec emax n 0 false).
Proof.
  intros HJ HK Hn. destruct n as [|m|m]; cbn [binary_normalize].
  - now split.
  - apply binary_round_good; [exact HJ | lia|]. split; [lia|].
    now rewrite Z.sub_0_r.
  - apply binary_round_good; [exact HJ | lia|]. split; [lia|].
    now rewrite Z.sub_0_r.
Qed.

(** *** Division of a positive integer by a larger one *)

Lemma new_location_exact (nb k : Z) :
  new_location nb k = loc_Exact \/ (k <> 0 /\ exists c, new_location nb k = loc_Inexact c).
Proof.
  unfold new_location, new_location_even, new_location_odd.
  destruct (Z.even nb); destruct (k =? 0) eqn:Hk; try (now left);
    right; (split; [now apply Z.eqb_neq|]); eexists; reflexivity.
Qed.

Lemma Zdigits2_pow2 (k : Z) : 0 <= k -> Zdigits2 (2 ^ k) = k + 1.
Proof.
  intros Hk. rewrite Zdigits2_log2 by (apply Z.pow_pos_nonneg; lia).
  now rewrite Z.log2_pow2.
Qed.

Lemma SFdiv_le_one (w n : positive) :
  (w <= n)%positive ->
  valid_binary (SFdiv prec emax (S754_finite false w 0) (S754_finite false n 0)) = true
  /\ finite_below (2 ^ 52) (-52)
       (SFdiv prec emax (S754_finite false w 0) (S754_finite false n 0)).
Proof.
  intros Hwn. cbn [SFdiv xorb]. unfold SFdiv_core_binary.
  set (d1 := Zdigits2 (Zpos w)). set (d2 := Zdigits2 (Zpos n)).
  assert (Hd : d1 <= d2) by (apply Zdigits2_mono; lia).
  pose proof (Zdigits2_spec (Zpos w) ltac:(lia)) as [Hw1 Hw2]. fold d1 in Hw1, Hw2.
  pose proof (Zdigits2_spec (Zpos n) ltac:(lia)) as [Hn1 Hn2]. fold d2 in Hn1, Hn2.
  assert (Hd1 : 1 <= d1) by (unfold d1; cbn; lia).
  replace (d1 + 0 - (d2 + 0)) with (d1 - d2) by lia.
  replace (0 - 0) with 0 by lia.
  set (e' := Z.min (fexp prec emax (d1 - d2)) 0).
  assert (He' : e' = fexp prec emax (d1 - d2) /\ e' <= -53).
  { unfold e'. rewrite fexp_unfold. lia. }
  destruct He' as [He'eq He'le].
  replace (0 - e') with (- e') by lia.
  destruct (- e') as [|s|s] eqn:Hs; try lia.
  rewrite Z.shiftl_mul_pow2 by lia.
  pose proof (Z.div_eucl_eq (Zpos w * 2 ^ Zpos s) (Zpos n) ltac:(lia)) as Heq.
  pose proof (Z.mod_pos_bound (Zpos w * 2 ^ Zpos s) (Zpos n) ltac:(lia)) as Hmod.
  unfold Z.modulo in Hmod.
  destruct (Z.div_eucl (Zpos w * 2 ^ Zpos s) (Zpos n)) as [q r].
  assert (Hpow : 0 < 2 ^ Zpos s) by (apply Z.pow_pos_nonneg; lia).
  assert (Hq0 : 0 <= q) by nia.
  assert (Hbound : 2 ^ 52 * 2 ^ (-52 - e') = 2 ^ Zpos s).
  { rewrite <- Z.pow_add_r by lia. f_equal. lia. }
  assert (Hqle : q <= 2 ^ Zpos s) by nia.
  split.
  - apply binary_round_aux_valid; [exact Hq0|].
    rewrite fexp_unfold in *.
    destruct (Z_le_gt_dec (d1 - d2 - 53) (-1074)) as [Hlow|Hhigh]; [lia|].
    assert (Hszero : Zpos s = 53 - d1 + d2) by lia.
    assert (Hq52 : 2 ^ 52 <= q).
    { assert (H1 : 2 ^ (52 + d2) <= Zpos w * 2 ^ Zpos s).
      { rewrite Hszero. replace (52 + d2) with ((d1 - 1) + (53 - d1 + d2)) by lia.
        rewrite Z.pow_add_r by lia. apply Z.mul_le_mono_nonneg_r; lia. }
      rewrite Z.pow_add_r in H1 by lia.
      assert (Hp52 : 0 < 2 ^ 52) by (apply Z.pow_pos_nonneg; lia).
      nia. }
    pose proof (Zdigits2_mono (2 ^ 52) q ltac:(lia)) as Hdq.
    rewrite Zdigits2_pow2 in Hdq by lia. lia.
  - apply binary_round_aux_good; [unfold prec; lia | unfold emax, prec; lia | lia|].
    unfold room. rewrite Hbound.
    destruct (new_location_exact (Zpos n) r) as [->|[Hr [c ->]]].
    + cbn. repeat split; try lia; try discriminate.
    + assert (Hlt : q + 1 <= 2 ^ Zpos s) by nia.
      destruct c; cbn; repeat split; lia.
Qed.

(** *** Magnitudes are kept from below *)

Lemma shr_fexp_digits (c m e : Z) (l : location) (mrs : shr_record) (e' : Z) :
  0 < m -> -1073 <= c <= Zdigits2 m + e ->
  shr_fexp prec emax m e l = (mrs, e') ->
  0 < shr_m mrs /\ c <= Zdigits2 (shr_m mrs) + e'.
Proof.
  intros Hm Hc H. unfold shr_fexp, shr in H. rewrite fexp_unfold in H.
  destruct (Z.max (Zdigits2 m + e - 53) (-1074) - e) as [|p|p] eqn:Hn;
    injection H as <- <-; rewrite ?shr_m_of_loc; try (split; lia).
  destruct (shr_m_iter p (shr_record_of_loc m l)) as [H0 Hdiv];
    [rewrite shr_m_of_loc; lia|].
  rewrite shr_m_of_loc in Hdiv. rewrite Hdiv.
  pose proof (Zdigits2_div_pow2 m (Zpos p) Hm ltac:(lia)) as Hd.
  split; [|lia].
  destruct (Z.eq_dec (m / 2 ^ Zpos p) 0) as [Hz|Hnz]; [|rewrite Hdiv in H0; lia].
  rewrite Hz in Hd. cbn in Hd. lia.
Qed.

Lemma binary_round_aux_at_least (c : Z) (sx : bool) (mx ex : Z) (lx : location) :
  0 < mx -> -1073 <= c <= Zdigits2 mx + ex ->
  at_least c (binary_round_aux prec emax sx mx ex lx).
Proof.
  intros Hmx Hc. unfold binary_round_aux.
  destruct (shr_fexp prec emax mx ex lx) as [mrs1 e1] eqn:H1.
  destruct (shr_fexp_digits c mx ex lx mrs1 e1 Hmx Hc H1) as [Hpos1 Hc1].
  set (m1' := round_nearest_even (shr_m mrs1) (loc_of_shr_record mrs1)).
  assert (Hm1' : shr_m mrs1 <= m1').
  { unfold m1'. destruct mrs1 as [m [|] [|]]; cbn; try destruct (Z.even m); lia. }
  destruct (shr_fexp prec emax m1' e1 loc_Exact) as [mrs2 e2] eqn:H2.
  pose proof (Zdigits2_mono (shr_m mrs1) m1' ltac:(lia)) as Hmono.
  destruct (shr_fexp_digits c m1' e1 loc_Exact mrs2 e2 ltac:(lia) ltac:(lia) H2)
    as [Hpos2 Hc2].
  destruct (shr_m mrs2) as [|m|m]; try lia.
  destruct (e2 <=? emax - prec); [exact Hc2 | exact I].
Qed.

Lemma Zdigits2_mul (a b : Z) :
  0 < a -> 0 < b -> Zdigits2 a + Zdigits2 b - 1 <= Zdigits2 (a * b).
Proof.
  intros Ha Hb.
  pose proof (Zdigits2_spec a Ha) as [Ha1 _]. pose proof (Zdigits2_spec b Hb) as [Hb1 _].
  pose proof (Zdigits2_nonneg a). pose proof (Zdigits2_nonneg b).
  assert (Hda : 1 <= Zdigits2 a) by (rewrite Zdigits2_log2 by lia; pose proof (Z.log2_nonneg a); lia).
  assert (Hdb : 1 <= Zdigits2 b) by (rewrite Zdigits2_log2 by lia; pose proof (Z.log2_nonneg b); lia).
  assert (Hle : 2 ^ (Zdigits2 a - 1 + (Zdigits2 b - 1)) <= a * b).
  { rewrite Z.pow_add_r by lia. apply Z.mul_le_mono_nonneg; try lia;
      apply Z.pow_nonneg; lia. }
  pose proof (Zdigits2_mono _ _ (conj (Z.pow_nonneg 2 (Zdigits2 a - 1 + (Zdigits2 b - 1))
                                     ltac:(lia)) Hle)) as Hm.
  rewrite Zdigits2_pow2 in Hm by lia. lia.
Qed.

Lemma SFmul_at_least (c1 c2 : Z) (x y : spec_float) :
  -1073 <= c1 + c2 - 1 ->
  at_least c1 x -> at_least c2 y ->
  (forall s, x <> S754_infinity s) -> (forall s, y <> S754_infinity s) ->
  at_least (c1 + c2 - 1) (SFmul prec emax x y).
Proof.
  intros Hc Hx Hy Hxi Hyi.
  destruct x as [sx|sx| |sx mx ex]; try contradiction; [now elim (Hxi sx)|].
  destruct y as [sy|sy| |sy my ey]; try contradiction; [now elim (Hyi sy)|].
  cbn [SFmul at_least] in *. apply binary_round_aux_at_least; [lia|].
  split; [lia|]. rewrite Pos2Z.inj_mul.
  pose proof (Zdigits2_mul (Zpos mx) (Zpos my) ltac:(lia) ltac:(lia)). lia.
Qed.

Lemma binary_round_at_least (c : Z) (sx : bool) (m : positive) (e : Z) :
  -1073 <= c <= Zdigits2 (Zpos m) + e ->
  at_least c (binary_round prec emax sx m e).
Proof.
  intros Hc. unfold binary_round.
  pose proof (shl_align_spec m e (fexp prec emax (Zpos (digits2_pos m) + e))) as Hsh.
  destruct (shl_align m e (fexp prec emax (Zpos (digits2_pos m) + e))) as [mz ez].
  destruct Hsh as [Hez Hmz].
  apply binary_round_aux_at_least; [lia|].
  rewrite Hmz, Zdigits2_mul_pow2 by lia. lia.
Qed.

(** The integer part of a float of magnitude at least [2^(c-1)]. *)
Lemma shiftl_at_least (c : Z) (m : positive) (e : Z) :
  1 <= c <= Zdigits2 (Zpos m) + e -> 2 ^ (c - 1) <= Z.shiftl (Zpos m) e.
Proof.
  intros Hc. pose proof (Zdigits2_spec (Zpos m) ltac:(lia)) as [Hlo _].
  set (d := Zdigits2 (Zpos m)) in *.
  assert (Hd : 1 <= d) by (unfold d; cbn; lia).
  destruct (Z_le_gt_dec 0 e) as [He|He].
  - rewrite Z.shiftl_mul_pow2 by lia.
    apply Z.le_trans with (2 ^ (d - 1) * 2 ^ e).
    + rewrite <- Z.pow_add_r by lia. apply Z.pow_le_mono_r; lia.
    + apply Z.mul_le_mono_nonneg_r; [apply Z.pow_nonneg; lia | exact Hlo].
  - rewrite Z.shiftl_div_pow2 by lia.
    apply Z.div_le_lower_bound; [apply Z.pow_pos_nonneg; lia|].
    apply Z.le_trans with (2 ^ (d - 1)); [|exact Hlo].
    rewrite <- Z.pow_add_r by lia. apply Z.pow_le_mono_r; lia.
Qed.

(** *** Signs *)

Lemma shr_fexp_nonneg (m e : Z) (l : location) (mrs : shr_record) (e' : Z) :
  0 <= m -> shr_fexp prec emax m e l = (mrs, e') -> 0 <= shr_m mrs.
Proof.
  intros Hm H. unfold shr_fexp, shr in H.
  destruct (fexp prec emax (Zdigits2 m + e) - e) as [|p|p];
    injection H as <- <-; rewrite ?shr_m_of_loc; try exact Hm.
  apply shr_m_iter. now rewrite shr_m_of_loc.
Qed.

Lemma binary_round_aux_sign (sx : bool) (mx ex : Z) (lx : location) :
  0 <= mx -> sign_is sx (binary_round_aux prec emax sx mx ex lx).
Proof.
  intros Hmx. unfold binary_round_aux.
  destruct (shr_fexp prec emax mx ex lx) as [mrs1 e1] eqn:H1.
  pose proof (shr_fexp_nonneg mx ex lx mrs1 e1 Hmx H1) as H0.
  set (m1' := round_nearest_even (shr_m mrs1) (loc_of_shr_record mrs1)).
  assert (Hm1' : 0 <= m1').
  { unfold m1'. destruct mrs1 as [m [|] [|]]; cbn in *; try destruct (Z.even m); lia. }
  destruct (shr_fexp prec emax m1' e1 loc_Exact) as [mrs2 e2] eqn:H2.
  pose proof (shr_fexp_nonneg m1' e1 loc_Exact mrs2 e2 Hm1' H2) as H0'.
  destruct (shr_m mrs2) as [|m|m]; [reflexivity| |lia].
  destruct (e2 <=? emax - prec); reflexivity.
Qed.

Lemma binary_round_sign (sx : bool) (m : positive) (e : Z) :
  sign_is sx (binary_round prec emax sx m e).
Proof.
  unfold binary_round.
  destruct (shl_align m e (fexp prec emax (Zpos (digits2_pos m) + e))) as [mz ez].
  apply binary_round_aux_sign. lia.
Qed.

Lemma SFmul_sign (s1 s2 : bool) (J1 K1 J2 K2 : Z) (x y : spec_float) :
  finite_below J1 K1 x -> finite_below J2 K2 y ->
  sign_is s1 x -> sign_is s2 y -> sign_is (xorb s1 s2) (SFmul prec emax x y).
Proof.
  intros Hx Hy Hs1 Hs2.
  destruct x as [sx|sx| |sx mx ex]; try contradiction;
    destruct y as [sy|sy| |sy my ey]; try contradiction;
    cbn in Hs1, Hs2; subst; cbn [SFmul sign_is]; try reflexivity.
  apply binary_round_aux_sign. lia.
Qed.

Lemma SFdiv_le_one_sign (w n : positive) :
  sign_is false (SFdiv prec emax (S754_finite false w 0) (S754_finite false n 0)).
Proof.
  cbn [SFdiv xorb]. unfold SFdiv_core_binary.
  set (s := 0 - 0 - _).
  assert (Hm : 0 <= match s with
                    | 0 => Zpos w
                    | Zpos _ => Z.shiftl (Zpos w) s
                    | Zneg _ => 0
                    end).
  { destruct s as [|p|p]; try lia. rewrite Z.shiftl_mul_pow2 by lia.
    apply Z.mul_nonneg_nonneg; [lia | apply Z.pow_nonneg; lia]. }
  pose proof (Z.div_pos _ (Zpos n) Hm ltac:(lia)) as Hq. unfold Z.div in Hq.
  destruct (Z.div_eucl _ (Zpos n)) as [q r]. cbn [fst] in Hq.
  now apply binary_round_aux_sign.
Qed.

(** *** Back to the primitive floats *)

Lemma is_infinity_spec (x : float) :
  PrimFloat.is_infinity x = SFeqb (SFabs (Prim2SF x)) (S754_infinity false).
Proof. unfold PrimFloat.is_infinity. now rewrite eqb_spec, abs_spec. Qed.

Lemma is_nan_spec (x : float) :
  PrimFloat.is_nan x = negb (SFeqb (Prim2SF x) (Prim2SF x)).
Proof. unfold PrimFloat.is_nan. now rewrite eqb_spec. Qed.

Lemma finite_not_infinity (J K : Z) (r : spec_float) :
  valid_binary r = true -> finite_below J K r ->
  Prim2SF (SF2Prim r) = r /\ PrimFloat.is_infinity (SF2Prim r) = false.
Proof.
  intros Hv Hf. pose proof (Prim2SF_SF2Prim r Hv) as H. split; [exact H|].
  rewrite is_infinity_spec, H. destruct r as [s|s| |s m e]; try contradiction; reflexivity.
Qed.

Lemma SFleb_zero_nonneg (x : spec_float) (J K : Z) :
  finite_below J K x -> sign_is false x -> SFleb (S754_zero false) x = true.
Proof.
  intros Hf Hs. destruct x as [s|s| |s m e]; try contradiction; cbn in Hs; subst;
    reflexivity.
Qed.

Lemma SFleb_below (j : positive) (K : Z) (x : spec_float) :
  finite_below (Zpos j) K x -> sign_is false x ->
  SFleb x (S754_finite false j K) = true.
Proof.
  intros Hf Hs. destruct x as [s|s| |s m e]; try contradiction; cbn in Hs; subst.
  - reflexivity.
  - destruct Hf as [He Hm]. unfold SFleb, SFcompare.
    destruct (Z.compare_spec e K) as [->|Hlt|Hgt]; [|reflexivity|lia].
    rewrite Z.sub_diag, Z.mul_1_r in Hm.
    change (Pos.compare_cont Eq m j) with (Pos.compare m j).
    destruct (Pos.compare_spec m j); try reflexivity. lia.
Qed.

End Binary64.

(** ** Rounding errors

    The same operations seen on the real numbers: what a rounded sum or
    quotient can differ by from the exact one. *)

Module Rounding.
Import Stdlib.Reals.Reals Stdlib.micromega.Lra.
Import Magnitude Binary64 RealValue.
Local Open Scope R_scope.

Lemma pow2_pos (e : Z) : 0 < pow2 e.
Proof. apply powerRZ_lt. lra. Qed.

Lemma pow2_add (a b : Z) : pow2 (a + b) = pow2 a * pow2 b.
Proof. apply powerRZ_add. lra. Qed.

Lemma pow2_succ (e : Z) : pow2 (e + 1) = 2 * pow2 e.
Proof.
  rewrite pow2_add. replace (pow2 1) with 2; [lra|]. symmetry. apply (powerRZ_1 2).
Qed.

Lemma pow2_IZR (e : Z) : (0 <= e)%Z -> pow2 e = IZR (2 ^ e).
Proof.
  intros He. unfold pow2. rewrite <- (Z2Nat.id e He), <- pow_powerRZ.
  now rewrite pow_IZR.
Qed.

Lemma pow2_ge_1 (e : Z) : (0 <= e)%Z -> 1 <= pow2 e.
Proof.
  intros He. rewrite pow2_IZR by exact He. apply IZR_le.
  pose proof (Z.pow_pos_nonneg 2 e ltac:(lia) He). lia.
Qed.

Lemma pow2_le (a b : Z) : (a <= b)%Z -> pow2 a <= pow2 b.
Proof.
  intros H. replace b with (a + (b - a))%Z by lia. rewrite pow2_add.
  pose proof (pow2_pos a). pose proof (pow2_ge_1 (b - a) ltac:(lia)). nra.
Qed.

Lemma pow2_half (e : Z) : pow2 e / 2 = pow2 (e - 1).
Proof.
  replace e with ((e - 1) + 1)%Z at 1 by lia. rewrite pow2_succ. lra.
Qed.

(** *** Truncation keeps the value *)

Lemma represents_shr_1 (mrs : shr_record) (e : Z) (v : R) :
  (0 <= shr_m mrs)%Z -> represents mrs e v -> represents (shr_1 mrs) (e + 1) v.
Proof.
  intros Hm H. rewrite (shr_1_nonneg mrs Hm). destruct mrs as [m r s].
  unfold represents in *. cbn [shr_m shr_r shr_s] in *. rewrite pow2_succ.
  pose proof (pow2_pos e) as HP. set (P := pow2 e) in *.
  pose proof (Z.div2_odd m) as Hdiv.
  assert (Hm2 : IZR m = 2 * IZR (Z.div2 m) + (if Z.odd m then 1 else 0)).
  { rewrite Hdiv at 1. rewrite plus_IZR, mult_IZR. now destruct (Z.odd m). }
  rewrite Hm2 in H. set (h := IZR (Z.div2 m)) in *.
  destruct (Z.odd m), r, s; cbn [orb]; nra.
Qed.

Lemma represents_iter (p : positive) (mrs : shr_record) (e : Z) (v : R) :
  (0 <= shr_m mrs)%Z -> represents mrs e v ->
  represents (SpecFloat.iter_pos shr_1 p mrs) (e + Zpos p) v.
Proof.
  intros Hm H.
  pose (P := fun (e' : Z) (x : shr_record) => (0 <= shr_m x)%Z /\ represents x e' v).
  assert (HP : P (e + Zpos p)%Z (SpecFloat.iter_pos shr_1 p mrs)).
  { apply iter_pos_shr_1; [|now split].
    intros e' x [Hx Hr]. split; [|now apply represents_shr_1].
    rewrite (shr_1_nonneg x Hx). cbn [shr_m]. rewrite Z.div2_div.
    apply Z.div_pos; lia. }
  apply HP.
Qed.

Lemma represents_shr_fexp (m e : Z) (l : location) (mrs : shr_record) (e' : Z) (v : R) :
  (0 <= m)%Z -> represents (shr_record_of_loc m l) e v ->
  shr_fexp prec emax m e l = (mrs, e') -> represents mrs e' v.
Proof.
  intros Hm Hr H. unfold shr_fexp, shr in H.
  destruct (fexp prec emax (Zdigits2 m + e) - e)%Z as [|p|p] eqn:Hn;
    injection H as <- <-; try exact Hr.
  apply represents_iter; [now rewrite shr_m_of_loc | exact Hr].
Qed.

Lemma represents_nonneg (mrs : shr_record) (e : Z) (v : R) :
  (0 <= shr_m mrs)%Z -> represents mrs e v -> 0 <= v.
Proof.
  intros Hm H. apply IZR_le in Hm. pose proof (pow2_pos e).
  destruct mrs as [m [|] [|]]; unfold represents in H; cbn [shr_m shr_r shr_s] in *; nra.
Qed.

(** *** Rounding to nearest moves the value by at most half a unit *)

Lemma represents_lower (mrs : shr_record) (e : Z) (v : R) :
  represents mrs e v -> IZR (shr_m mrs) * pow2 e <= v.
Proof.
  intros H. pose proof (pow2_pos e).
  destruct mrs as [m [|] [|]]; unfold represents in H; cbn [shr_m shr_r shr_s] in *; nra.
Qed.

Lemma round_nearest_even_error (mrs : shr_record) (e : Z) (v : R) :
  represents mrs e v ->
  - (pow2 e / 2)
  <= IZR (round_nearest_even (shr_m mrs) (loc_of_shr_record mrs)) * pow2 e - v
  <= pow2 e / 2.
Proof.
  intros H. pose proof (pow2_pos e) as HP.
  destruct mrs as [m [|] [|]]; unfold represents in H;
    cbn [shr_m shr_r shr_s loc_of_shr_record round_nearest_even] in *;
    try destruct (Z.even m); rewrite ?plus_IZR; nra.
Qed.

(** The second normalisation loses nothing: it shifts only [2^53], by one
    place. *)
Lemma second_shift_exact (m e : Z) (mrs : shr_record) (e' : Z) :
  (0 <= m <= 2 ^ 53)%Z -> (-1074 <= e)%Z ->
  shr_fexp prec emax m e loc_Exact = (mrs, e') ->
  IZR (shr_m mrs) * pow2 e' = IZR m * pow2 e.
Proof.
  intros Hm He H. unfold shr_fexp, shr in H. rewrite fexp_unfold in H.
  pose proof (Zdigits2_mono m (2 ^ 53) ltac:(lia)) as Hd.
  rewrite Zdigits2_pow2 in Hd by lia.
  destruct (Z.max (Zdigits2 m + e - 53) (-1074) - e)%Z as [|p|p] eqn:Hn;
    injection H as <- <-; try reflexivity.
  assert (Hp : p = 1%positive) by lia. subst p.
  assert (Hm53 : m = (2 ^ 53)%Z).
  { assert (Hpos : (0 < m)%Z) by (destruct m; cbn in *; lia).
    pose proof (Zdigits2_spec m Hpos) as [Hlo _].
    assert (H54 : Zdigits2 m = 54%Z) by lia. rewrite H54 in Hlo. lia. }
  subst m. cbn [SpecFloat.iter_pos shr_record_of_loc]. rewrite pow2_succ.
  change (shr_1 {| shr_m := 2 ^ 53; shr_r := false; shr_s := false |})
    with {| shr_m := 2 ^ 52; shr_r := false; shr_s := false |}.
  cbn [shr_m]. change (2 ^ 53)%Z with (2 * 2 ^ 52)%Z. rewrite mult_IZR. lra.
Qed.

(** What [binary_round_aux] returns for the real [v] it is given the
    truncation of: with [h] half a unit in the last place of the result,
    a zero when [v <= h], a finite float within [h] of [v], or an infinity
    when [v] is within [h] of [2^1024]. *)
Lemma binary_round_aux_error (sx : bool) (mx ex : Z) (lx : location) (v : R) :
  (0 <= mx)%Z -> (ex <= fexp prec emax (Zdigits2 mx + ex))%Z ->
  represents (shr_record_of_loc mx lx) ex v ->
  match binary_round_aux prec emax sx mx ex lx with
  | S754_zero s => s = sx /\ v <= pow2 (fexp prec emax (Zdigits2 mx + ex)) / 2
  | S754_finite s m e =>
      s = sx
      /\ Rabs (IZR (Zpos m) * pow2 e - v) <= pow2 (fexp prec emax (Zdigits2 mx + ex)) / 2
  | S754_infinity s =>
      s = sx /\ pow2 1024 <= v + pow2 (fexp prec emax (Zdigits2 mx + ex)) / 2
  | S754_nan => False
  end.
Proof.
  intros Hmx Hex Hv. unfold binary_round_aux.
  destruct (shr_fexp prec emax mx ex lx) as [mrs1 e1] eqn:H1.
  destruct (shr_fexp_canonical mx ex lx mrs1 e1 Hmx Hex H1) as (He1 & H0 & Hcan & Hzero).
  pose proof (represents_shr_fexp mx ex lx mrs1 e1 v Hmx Hv H1) as Hv1.
  rewrite <- He1.
  pose proof (round_nearest_even_error mrs1 e1 v Hv1) as Herr.
  set (m1' := round_nearest_even (shr_m mrs1) (loc_of_shr_record mrs1)) in *.
  assert (Hm1' : (shr_m mrs1 <= m1' <= shr_m mrs1 + 1)%Z).
  { unfold m1'. destruct mrs1 as [m [|] [|]]; cbn; try destruct (Z.even m); lia. }
  assert (Hlow : (-1074 <= e1)%Z) by (rewrite He1, fexp_unfold; lia).
  assert (H53 : (shr_m mrs1 < 2 ^ 53)%Z).
  { destruct (Z.eq_dec (shr_m mrs1) 0) as [->|Hnz]; [reflexivity|].
    assert (Hpos : (0 < shr_m mrs1)%Z) by lia.
    specialize (Hcan Hpos). rewrite fexp_unfold in Hcan.
    pose proof (Zdigits2_spec (shr_m mrs1) Hpos) as [_ Hhi].
    apply Z.lt_le_trans with (1 := Hhi). apply Z.pow_le_mono_r; lia. }
  destruct (shr_fexp prec emax m1' e1 loc_Exact) as [mrs2 e2] eqn:H2.
  pose proof (second_shift_exact m1' e1 mrs2 e2 ltac:(lia) Hlow H2) as Hsame.
  assert (He1' : (e1 <= fexp prec emax (Zdigits2 m1' + e1))%Z).
  { destruct (Z.eq_dec (shr_m mrs1) 0) as [Hz|Hnz].
    - rewrite (Hzero Hz), fexp_unfold. lia.
    - rewrite <- (Hcan ltac:(lia)) at 1. apply fexp_mono.
      pose proof (Zdigits2_mono (shr_m mrs1) m1' ltac:(lia)). lia. }
  destruct (shr_fexp_canonical m1' e1 loc_Exact mrs2 e2 ltac:(lia) He1' H2)
    as (_ & H0' & Hcan' & _).
  rewrite <- Hsame in Herr.
  destruct (shr_m mrs2) as [|m|m] eqn:Hm2; [split; [reflexivity|lra] | | lia].
  destruct (e2 <=? emax - prec)%Z eqn:Hb.
  - split; [reflexivity|]. apply Rabs_le. lra.
  - split; [reflexivity|]. apply Z.leb_gt in Hb. unfold emax, prec in Hb.
    specialize (Hcan' ltac:(lia)). rewrite fexp_unfold in Hcan'.
    pose proof (Zdigits2_spec (Zpos m) ltac:(lia)) as [Hlo _].
    assert (Hd : Zdigits2 (Zpos m) = 53%Z) by lia. rewrite Hd in Hlo.
    apply IZR_le in Hlo. rewrite <- pow2_IZR in Hlo by lia.
    change (53 - 1)%Z with 52%Z in Hlo.
    pose proof (pow2_le 972 e2 ltac:(lia)) as Hle.
    pose proof (pow2_pos 972). pose proof (pow2_pos 52).
    assert (H1024 : pow2 1024 = pow2 52 * pow2 972)
      by (rewrite <- pow2_add; reflexivity).
    assert (Hprod : pow2 52 * pow2 972 <= IZR (Zpos m) * pow2 e2)
      by (apply Rmult_le_compat; lra).
    rewrite H1024. lra.
Qed.

(** Half a unit in the last place of the result is at most [2^-53] times
    the value, or [2^-1075] among the subnormal numbers. *)
Lemma half_ulp (mx ex : Z) (lx : location) (v : R) :
  (0 <= mx)%Z -> (ex <= fexp prec emax (Zdigits2 mx + ex))%Z ->
  represents (shr_record_of_loc mx lx) ex v ->
  0 <= v /\ pow2 (fexp prec emax (Zdigits2 mx + ex)) / 2 <= pow2 (-53) * v + pow2 (-1075).
Proof.
  intros Hmx Hex Hv.
  pose proof (represents_lower _ _ _ Hv) as Hlow. rewrite shr_m_of_loc in Hlow.
  pose proof (pow2_pos ex) as HP. pose proof (IZR_le _ _ Hmx) as Hm0.
  assert (Hv0 : 0 <= v) by nra. split; [exact Hv0|].
  pose proof (pow2_pos (-53)) as Hu. pose proof (pow2_pos (-1075)) as Heta.
  rewrite pow2_half. rewrite fexp_unfold in *.
  destruct (Z_le_gt_dec (Zdigits2 mx + ex - 53) (-1074)) as [Hsub|Hnorm].
  - rewrite Z.max_r by lia. change (-1074 - 1)%Z with (-1075)%Z. nra.
  - rewrite Z.max_l in * by lia.
    assert (Hpos : (0 < mx)%Z).
    { destruct (Z.eq_dec mx 0) as [->|]; [cbn in Hex; lia | lia]. }
    pose proof (Zdigits2_spec mx Hpos) as [Hlo _].
    assert (Hd1 : (1 <= Zdigits2 mx)%Z).
    { rewrite Zdigits2_log2 by lia. pose proof (Z.log2_nonneg mx). lia. }
    apply IZR_le in Hlo. rewrite <- pow2_IZR in Hlo by lia.
    replace (Zdigits2 mx + ex - 53 - 1)%Z with (-53 + ((Zdigits2 mx - 1) + ex))%Z by lia.
    rewrite !pow2_add. set (D := pow2 (Zdigits2 mx - 1)) in *.
    assert (HD : D * pow2 ex <= v) by nra. nra.
Qed.

Lemma binary_round_aux_rounded (sx : bool) (mx ex : Z) (lx : location) (v : R) :
  (0 <= mx)%Z -> (ex <= fexp prec emax (Zdigits2 mx + ex))%Z ->
  represents (shr_record_of_loc mx lx) ex v ->
  rounded sx v (binary_round_aux prec emax sx mx ex lx).
Proof.
  intros Hmx Hex Hv.
  pose proof (binary_round_aux_error sx mx ex lx v Hmx Hex Hv) as H.
  destruct (half_ulp mx ex lx v Hmx Hex Hv) as [Hv0 Hh].
  unfold rounded.
  destruct (binary_round_aux prec emax sx mx ex lx) as [s|s| |s m e];
    try exact H; destruct H as [-> H]; (split; [reflexivity | lra]).
Qed.

(** *** Rounding an exact value, a sum and a quotient *)

Lemma aligned_value (m mz : positive) (e ez : Z) :
  (ez <= e)%Z -> Zpos mz = (Zpos m * 2 ^ (e - ez))%Z ->
  IZR (Zpos mz) * pow2 ez = IZR (Zpos m) * pow2 e.
Proof.
  intros He Hmz. rewrite Hmz, mult_IZR, <- pow2_IZR by lia.
  replace e with ((e - ez) + ez)%Z at 2 by lia. rewrite pow2_add. ring.
Qed.

Lemma binary_round_rounded (sx : bool) (m : positive) (e : Z) :
  rounded sx (IZR (Zpos m) * pow2 e) (binary_round prec emax sx m e).
Proof.
  unfold binary_round.
  pose proof (shl_align_spec m e (fexp prec emax (Zpos (digits2_pos m) + e))) as Hsh.
  destruct (shl_align m e (fexp prec emax (Zpos (digits2_pos m) + e))) as [mz ez].
  destruct Hsh as [Hez Hmz].
  apply binary_round_aux_rounded; [lia| |].
  - rewrite Hmz, Zdigits2_mul_pow2 by lia.
    replace (Zdigits2 (Zpos m) + (e - ez) + ez)%Z with (Zpos (digits2_pos m) + e)%Z
      by (cbn [Zdigits2]; lia).
    lia.
  - unfold represents. cbn [shr_record_of_loc shr_m shr_r shr_s].
    symmetry. apply aligned_value; [lia | exact Hmz].
Qed.

Lemma SFadd_pos_rounded (mx my : positive) (ex ey : Z) :
  rounded false (IZR (Zpos mx) * pow2 ex + IZR (Zpos my) * pow2 ey)
          (SFadd prec emax (S754_finite false mx ex) (S754_finite false my ey)).
Proof.
  cbn [SFadd cond_Zopp].
  pose proof (shl_align_spec mx ex (Z.min ex ey)) as Hx.
  pose proof (shl_align_spec my ey (Z.min ex ey)) as Hy.
  destruct (shl_align mx ex (Z.min ex ey)) as [mx' ex'].
  destruct (shl_align my ey (Z.min ex ey)) as [my' ey'].
  destruct Hx as [Hex Hmx]. destruct Hy as [Hey Hmy]. cbn [fst].
  change (Zpos mx' + Zpos my')%Z with (Zpos (mx' + my')). cbn [binary_normalize].
  replace (IZR (Zpos mx) * pow2 ex + IZR (Zpos my) * pow2 ey)
    with (IZR (Zpos (mx' + my')) * pow2 (Z.min ex ey)); [apply binary_round_rounded|].
  rewrite Pos2Z.inj_add, plus_IZR, Rmult_plus_distr_r.
  replace (Z.min ex ey) with ex' at 1 by lia. replace (Z.min ex ey) with ey' by lia.
  rewrite (aligned_value mx mx' ex ex') by (lia || exact Hmx).
  now rewrite (aligned_value my my' ey ey') by (lia || exact Hmy).
Qed.

Lemma Zdigits2_div_lower (a b : Z) :
  (0 < a)%Z -> (0 < b)%Z -> (Zdigits2 a - Zdigits2 b <= Zdigits2 (a / b))%Z.
Proof.
  intros Ha Hb.
  pose proof (Zdigits2_spec a Ha) as [Ha1 _]. pose proof (Zdigits2_spec b Hb) as [_ Hb2].
  pose proof (Zdigits2_nonneg (a / b)) as Hq. pose proof (Zdigits2_nonneg b) as Hdb.
  destruct (Z_le_gt_dec (Zdigits2 a - Zdigits2 b) 0) as [Hle|Hgt]; [lia|].
  set (k := (Zdigits2 a - Zdigits2 b - 1)%Z).
  assert (Hk : (2 ^ k <= a / b)%Z).
  { apply Z.div_le_lower_bound; [exact Hb|].
    apply Z.le_trans with (2 ^ Zdigits2 b * 2 ^ k)%Z.
    - apply Z.mul_le_mono_nonneg_r; [apply Z.pow_nonneg; lia | lia].
    - rewrite <- Z.pow_add_r by (unfold k; lia).
      replace (Zdigits2 b + k)%Z with (Zdigits2 a - 1)%Z by (unfold k; lia). exact Ha1. }
  pose proof (Zdigits2_mono (2 ^ k) (a / b)
                ltac:(split; [apply Z.pow_nonneg; lia | exact Hk])) as Hm.
  rewrite Zdigits2_pow2 in Hm by (unfold k; lia). unfold k in Hm. lia.
Qed.

(** The location of a remainder [r] of a division by [n] tells where
    [r / n] lies between 0 and 1. *)
Lemma new_location_represents (q r n e : Z) :
  (0 <= r < n)%Z ->
  represents (shr_record_of_loc q (new_location n r)) e
             ((IZR q + IZR r / IZR n) * pow2 e).
Proof.
  intros Hr. pose proof (pow2_pos e) as HP.
  assert (Hn : 0 < IZR n) by (apply IZR_lt; lia).
  assert (Hexact : r = 0%Z ->
             represents (shr_record_of_loc q loc_Exact) e
                        ((IZR q + IZR r / IZR n) * pow2 e)).
  { intros ->. unfold represents, Rdiv. cbn [shr_record_of_loc shr_m shr_r shr_s]. ring. }
  assert (Hcase : forall c : comparison,
             r <> 0%Z ->
             match c with
             | Lt => (2 * r < n)%Z
             | Eq => (2 * r = n)%Z
             | Gt => (n < 2 * r)%Z
             end ->
             represents (shr_record_of_loc q (loc_Inexact c)) e
                        ((IZR q + IZR r / IZR n) * pow2 e)).
  { intros c Hz Hc. set (rho := IZR r / IZR n).
    assert (Hrho : rho * IZR n = IZR r) by (unfold rho; field; lra).
    assert (Hr0 : 0 < IZR r) by (apply IZR_lt; lia).
    assert (Hr1 : IZR r < IZR n) by (apply IZR_lt; lia).
    assert (Hrho0 : 0 < rho) by nra. assert (Hrho1 : rho < 1) by nra.
    unfold represents. destruct c; cbn [shr_record_of_loc shr_m shr_r shr_s].
    - apply (f_equal IZR) in Hc. rewrite mult_IZR in Hc.
      assert (rho = / 2) by nra. nra.
    - apply IZR_lt in Hc. rewrite mult_IZR in Hc. assert (rho < / 2) by nra. nra.
    - apply IZR_lt in Hc. rewrite mult_IZR in Hc. assert (/ 2 < rho) by nra. nra. }
  unfold new_location. destruct (Z.even n) eqn:He;
    unfold new_location_even, new_location_odd;
    (destruct (r =? 0)%Z eqn:Hz;
     [apply Hexact; now apply Z.eqb_eq | apply Z.eqb_neq in Hz]).
  - apply Hcase; [exact Hz|]. destruct (Z.compare_spec (2 * r) n); lia.
  - assert (Hodd : (2 * r <> n)%Z).
    { intros <-. rewrite Z.even_mul in He. discriminate. }
    destruct (Z.compare_spec (2 * r + 1) n); apply Hcase; lia.
Qed.

Lemma SFdiv_pos_rounded (mx my : positive) (ex ey : Z) :
  rounded false (IZR (Zpos mx) * pow2 ex / (IZR (Zpos my) * pow2 ey))
          (SFdiv prec emax (S754_finite false mx ex) (S754_finite false my ey)).
Proof.
  cbn [SFdiv xorb]. unfold SFdiv_core_binary.
  set (d1 := Zdigits2 (Zpos mx)). set (d2 := Zdigits2 (Zpos my)).
  set (e' := Z.min (fexp prec emax (d1 + ex - (d2 + ey))) (ex - ey)).
  set (s := (ex - ey - e')%Z).
  assert (Hs : (0 <= s)%Z) by (unfold s, e'; lia).
  set (m' := match s with
             | 0%Z => Zpos mx
             | Zpos _ => Z.shiftl (Zpos mx) s
             | Zneg _ => 0%Z
             end).
  assert (Hm' : m' = (Zpos mx * 2 ^ s)%Z).
  { unfold m'. destruct s as [|p|p]; [cbn; lia | now rewrite Z.shiftl_mul_pow2 | lia]. }
  pose proof (Z.div_eucl_eq m' (Zpos my) ltac:(lia)) as Heq.
  pose proof (Z.mod_pos_bound m' (Zpos my) ltac:(lia)) as Hmod.
  pose proof (Zdigits2_div_lower m' (Zpos my)) as Hdig.
  unfold Z.modulo in Hmod. unfold Z.div in Hdig.
  destruct (Z.div_eucl m' (Zpos my)) as [q r].
  assert (Hpow : (0 < 2 ^ s)%Z) by (apply Z.pow_pos_nonneg; lia).
  assert (Hm'pos : (0 < m')%Z) by (rewrite Hm'; lia).
  assert (Hq0 : (0 <= q)%Z) by nia.
  specialize (Hdig Hm'pos ltac:(lia)). fold d2 in Hdig.
  rewrite Hm', Zdigits2_mul_pow2 in Hdig by lia. fold d1 in Hdig.
  replace (IZR (Zpos mx) * pow2 ex / (IZR (Zpos my) * pow2 ey))
    with ((IZR q + IZR r / IZR (Zpos my)) * pow2 e').
  - apply binary_round_aux_rounded; [exact Hq0| |now apply new_location_represents].
    apply Z.le_trans with (fexp prec emax (d1 + ex - (d2 + ey))); [unfold e'; lia|].
    apply fexp_mono. unfold s in Hdig. lia.
  - assert (Hmy : 0 < IZR (Zpos my)) by (apply IZR_lt; lia).
    pose proof (pow2_pos ey) as Hey. pose proof (pow2_pos e') as He'.
    assert (Hval : IZR (Zpos my) * IZR q + IZR r = IZR (Zpos mx) * pow2 s).
    { rewrite <- mult_IZR, <- plus_IZR, <- Heq, Hm', mult_IZR.
      now rewrite <- pow2_IZR by lia. }
    assert (Hex : pow2 ex = pow2 s * pow2 e' * pow2 ey).
    { rewrite <- !pow2_add. f_equal. unfold s. lia. }
    rewrite Hex. field_simplify_eq; [|lra]. nra.
Qed.

End Rounding.

(** ** Floats in REAL columns *)

Module Storage.
Import Magnitude Binary64 Database.

Lemma real_column_spec (x : float) : Prim2SF (real_column x) = no_neg_zero (Prim2SF x).
Proof.
  unfold real_column, PrimFloat.is_zero. rewrite eqb_spec.
  change (Prim2SF 0%float) with (S754_zero false).
  destruct (Prim2SF x) as [[|]|[|]| |[|] m e] eqn:E; cbn; now rewrite ?E.
Qed.

Lemma no_neg_zero_id (x : spec_float) : x <> S754_zero true -> no_neg_zero x = x.
Proof. destruct x as [[|]| | |]; cbn; congruence. Qed.

Lemma real_column_id (x : float) : Prim2SF x <> S754_zero true -> real_column x = x.
Proof.
  intros H. apply Prim2SF_inj. rewrite real_column_spec. now apply no_neg_zero_id.
Qed.

(** A REAL column never holds -0.0. *)
Lemma real_column_stored (x : float) : Prim2SF (real_column x) <> S754_zero true.
Proof. rewrite real_column_spec. destruct (Prim2SF x); discriminate. Qed.

Lemma real_column_idem (x : float) : real_column (real_column x) = real_column x.
Proof. apply real_column_id, real_column_stored. Qed.

Lemma not_null_real_column (x : float) : not_null (real_column x) = not_null x.
Proof.
  unfold not_null. rewrite !is_nan_spec, real_column_spec.
  now destruct (Prim2SF x) as [[|]|[|]| |[|] m e].
Qed.

Lemma valid_exponent (s : bool) (m : positive) (e : Z) :
  valid_binary (S754_finite s m e) = true -> -1074 <= e.
Proof.
  cbn. unfold bounded, canonical_mantissa. intros H.
  apply andb_true_iff in H. destruct H as [H _]. apply Z.eqb_eq in H.
  rewrite fexp_unfold in H. lia.
Qed.

(** A sum or difference of finite numbers that cancel is +0.0, and nothing
    on the binary64 grid rounds to a zero. *)
Lemma normalize_not_neg_zero (m e : Z) :
  -1074 <= e -> binary_normalize prec emax m e false <> S754_zero true.
Proof.
  intros He H. destruct m as [|p|p]; cbn [binary_normalize] in H; [discriminate| |].
  - pose proof (binary_round_at_least (-1073) false p e) as Hr.
    rewrite H in Hr. apply Hr. change (Zdigits2 (Zpos p)) with (Zpos (digits2_pos p)). lia.
  - pose proof (binary_round_at_least (-1073) true p e) as Hr.
    rewrite H in Hr. apply Hr. change (Zdigits2 (Zpos p)) with (Zpos (digits2_pos p)). lia.
Qed.

Lemma SFadd_no_neg_zero (x y : spec_float) :
  valid_binary x = true -> valid_binary y = true ->
  no_neg_zero (SFadd prec emax x y) = SFadd prec emax (no_neg_zero x) (no_neg_zero y).
Proof.
  intros Hx Hy.
  destruct x as [[|]|[|]| |sx mx ex], y as [[|]|[|]| |sy my ey]; try reflexivity.
  cbn [no_neg_zero SFadd]. apply no_neg_zero_id. apply normalize_not_neg_zero.
  apply valid_exponent in Hx, Hy. lia.
Qed.

Lemma SFsub_no_neg_zero (x y : spec_float) :
  valid_binary x = true -> valid_binary y = true ->
  no_neg_zero (SFsub prec emax x y) = SFsub prec emax (no_neg_zero x) (no_neg_zero y).
Proof.
  intros Hx Hy.
  destruct x as [[|]|[|]| |sx mx ex], y as [[|]|[|]| |sy my ey]; try reflexivity.
  cbn [no_neg_zero SFsub]. apply no_neg_zero_id. apply normalize_not_neg_zero.
  apply valid_exponent in Hx, Hy. lia.
Qed.

(** Writing a sum to a REAL column gives the sum of the written terms, and
    likewise for a difference. *)
Lemma real_column_add (a b : float) :
  real_column (a + b) = (real_column a + real_column b)%float.
Proof.
  apply Prim2SF_inj. rewrite real_column_spec, !add_spec, !real_column_spec.
  apply SFadd_no_neg_zero; apply Prim2SF_valid.
Qed.

Lemma real_column_sub (a b : float) :
  real_column (a - b) = (real_column a - real_column b)%float.
Proof.
  apply Prim2SF_inj. rewrite real_column_spec, !sub_spec, !real_column_spec.
  apply SFsub_no_neg_zero; apply Prim2SF_valid.
Qed.

(** Added to or subtracted from a value read from a REAL column, nothing
    gives -0.0: the result is stored as computed. *)
Lemma real_column_add_stored (a b : float) :
  real_column a = a -> real_column (a + b) = (a + b)%float.
Proof.
  intros Ha. apply real_column_id. rewrite add_spec. intros H.
  pose proof (real_column_stored a) as Hs. rewrite Ha in Hs.
  pose proof (Prim2SF_valid a) as Hva. pose proof (Prim2SF_valid b) as Hvb.
  unfold SF64add in H.
  destruct (Prim2SF a) as [[|]|[|]| |sx mx ex], (Prim2SF b) as [[|]|[|]| |sy my ey];
    try discriminate; try congruence.
  cbn [SFadd] in H. revert H. apply normalize_not_neg_zero.
  apply valid_exponent in Hva, Hvb. lia.
Qed.

Lemma real_column_sub_stored (a b : float) :
  real_column a = a -> real_column (a - b) = (a - b)%float.
Proof.
  intros Ha. apply real_column_id. rewrite sub_spec. intros H.
  pose proof (real_column_stored a) as Hs. rewrite Ha in Hs.
  pose proof (Prim2SF_valid a) as Hva. pose proof (Prim2SF_valid b) as Hvb.
  unfold SF64sub in H.
  destruct (Prim2SF a) as [[|]|[|]| |sx mx ex], (Prim2SF b) as [[|]|[|]| |sy my ey];
    try discriminate; try congruence.
  cbn [SFsub] in H. revert H. apply normalize_not_neg_zero.
  apply valid_exponent in Hva, Hvb. lia.
Qed.

End Storage.

(** ** Facts about the statements *)

Module DatabaseFacts.
Import Database Spec.

Lemma for_each_revert_ok :
  forall (parts : list Participation) (s : Ledger),
    for_each parts (fun p => update_player_revert (rating_delta p) (player_id p)) s
    = Ok (tt, set_players s
                (fold_left (fun ps p => map (revert_rating (rating_delta p) (player_id p)) ps)
                           parts (players s))).
Proof.
  induction parts as [|p parts IH]; intros s.
  - destruct s; reflexivity.
  - cbn [for_each]. unfold bind at 1. unfold update_player_revert at 1.
    rewrite IH. destruct s; reflexivity.
Qed.

Lemma for_each_delete_participations :
  forall (mids : list string) (s : Ledger),
    for_each mids delete_participations_of_match s
    = Ok (tt, set_participations s
                (filter (fun pa => negb (existsb (String.eqb (match_id pa)) mids))
                        (participations s))).
Proof.
  induction mids as [|mid mids IH]; intros s.
  - cbn [for_each existsb negb]. unfold ret. f_equal. f_equal.
    destruct s as [ps ms pas k]; unfold set_participations; cbn. f_equal.
    induction pas as [|pa pas IHpas]; cbn; [reflexivity | now rewrite <- IHpas].
  - cbn [for_each]. unfold bind at 1. unfold delete_participations_of_match at 1.
    rewrite IH. f_equal. f_equal.
    destruct s as [ps ms pas k]; unfold set_participations; cbn. f_equal.
    induction pas as [|pa pas IHpas]; cbn; [reflexivity|].
    destruct (String.eqb (match_id pa) mid); cbn; [exact IHpas|].
    destruct (existsb (String.eqb (match_id pa)) mids); cbn; [exact IHpas|].
    now rewrite IHpas.
Qed.

Lemma filter_filter {A} (f g : A -> bool) (l : list A) :
  filter f (filter g l) = filter (fun x => g x && f x) l.
Proof.
  induction l as [|x l IH]; cbn; [reflexivity|].
  destruct (g x); cbn; [destruct (f x); now rewrite IH | exact IH].
Qed.

Lemma existsb_filter_false {A} (f : A -> bool) (l : list A) :
  existsb f (filter (fun x => negb (f x)) l) = false.
Proof.
  induction l as [|x l IH]; cbn; [reflexivity|].
  destruct (f x) eqn:E; cbn; [exact IH | now rewrite E].
Qed.

Lemma existsb_false_iff {A} (f : A -> bool) (l : list A) :
  existsb f l = false <-> (forall x, In x l -> f x = false).
Proof.
  split.
  - intros H x Hx. destruct (f x) eqn:E; [|reflexivity].
    rewrite <- H. symmetry. apply existsb_exists. now exists x.
  - intros H. destruct (existsb f l) eqn:E; [|reflexivity].
    apply existsb_exists in E. destruct E as [x [Hx Hfx]].
    now rewrite (H x Hx) in Hfx.
Qed.

End DatabaseFacts.

(** ** Player deletion and match reversal *)

Module Deletion.
Import Database Spec DatabaseFacts.

(** [delete_player] never raises; what it leaves, table by table. *)
Lemma delete_player_effect :
  forall (pid : string) (s : Ledger),
    delete_player pid s
    = (Ok tt,
       mkLedger
         (filter (fun p => negb (String.eqb (p_id p) pid)) (players s))
         (filter (fun m => negb (String.eqb (winner_id m) pid)) (matches s))
         (filter (fun pa => negb (won_by pid s (match_id pa))
                            && negb (String.eqb (player_id pa) pid))
                 (participations s))
         (k_factor_row s)).
Proof.
  intros pid s. unfold delete_player, transaction, delete_player_body.
  unfold bind at 1. unfold select_matches_won at 1.
  unfold bind at 1. rewrite for_each_delete_participations.
  set (won := map m_id (filter (fun m => String.eqb (winner_id m) pid) (matches s))).
  unfold bind at 1. unfold delete_matches at 1.
  cbn [participations matches set_participations].
  assert (FK1 : existsb
            (fun pa => existsb (fun m => String.eqb (winner_id m) pid
                                         && String.eqb (m_id m) (match_id pa)) (matches s))
            (filter (fun pa => negb (existsb (String.eqb (match_id pa)) won))
                    (participations s)) = false).
  { apply existsb_false_iff. intros pa Hpa. apply filter_In in Hpa.
    destruct Hpa as [_ Hpa]. apply negb_true_iff in Hpa.
    apply existsb_false_iff. intros m Hm.
    destruct (String.eqb (winner_id m) pid) eqn:Ew; [|reflexivity].
    destruct (String.eqb (m_id m) (match_id pa)) eqn:Em; [|reflexivity].
    exfalso. apply String.eqb_eq in Em.
    assert (Hin : existsb (String.eqb (match_id pa)) won = true).
    { apply existsb_exists. exists (m_id m). split.
      - unfold won. apply in_map. apply filter_In. now split.
      - rewrite Em. apply String.eqb_refl. }
    now rewrite Hin in Hpa. }
  rewrite FK1.
  unfold bind at 1. unfold delete_participations_of_player at 1.
  unfold delete_player_row, set_matches, set_participations, set_players, has_player.
  cbn [players matches participations k_factor_row].
  rewrite (existsb_filter_false (fun m => String.eqb (winner_id m) pid)).
  rewrite (existsb_filter_false (fun pa => String.eqb (player_id pa) pid)).
  rewrite andb_false_r. rewrite filter_filter. reflexivity.
Qed.

(** C4.  Deleting player [pid] always commits.  It removes every match won
    by [pid] with all the participations of those matches, every other
    participation of [pid], and the row of [pid]; the rows it keeps are
    unchanged, so every other player row is still stored with the same
    rating and games_played, also for the players of the erased matches. *)
Theorem delete_player_cascade :
  forall (pid : string) (s : Ledger),
    exists s',
      delete_player pid s = (Ok tt, s')
      /\ matches s' = filter (fun m => negb (String.eqb (winner_id m) pid)) (matches s)
      /\ participations s'
         = filter (fun pa => negb (won_by pid s (match_id pa))
                             && negb (String.eqb (player_id pa) pid))
                  (participations s)
      /\ players s' = filter (fun p => negb (String.eqb (p_id p) pid)) (players s)
      /\ (forall p, In p (players s') <-> In p (players s) /\ p_id p <> pid)
      /\ (forall m, In m (matches s') <-> In m (matches s) /\ winner_id m <> pid)
      /\ (forall pa, In pa (participations s') <->
                     In pa (participations s) /\ player_id pa <> pid
                     /\ (forall m, In m (matches s) -> winner_id m = pid ->
                                   m_id m <> match_id pa)).
Proof.
  intros pid s. eexists. split; [apply delete_player_effect|].
  cbn [players matches participations].
  split; [reflexivity|]. split; [reflexivity|]. split; [reflexivity|]. split; [|split].
  - intros p. rewrite filter_In, negb_true_iff, String.eqb_neq. tauto.
  - intros m. rewrite filter_In, negb_true_iff, String.eqb_neq. tauto.
  - intros pa. rewrite filter_In, andb_true_iff, !negb_true_iff, String.eqb_neq.
    unfold won_by. rewrite existsb_false_iff. split.
    + intros (Hin & Hwon & Hne). repeat split; try assumption.
      intros m Hm Hw Heq. specialize (Hwon (m_id m)).
      rewrite <- Heq, String.eqb_refl in Hwon.
      assert (Hmem : In (m_id m)
                        (map m_id (filter (fun m => String.eqb (winner_id m) pid)
                                          (matches s)))).
      { apply in_map. apply filter_In. split; [exact Hm | now apply String.eqb_eq]. }
      specialize (Hwon Hmem). discriminate.
    + intros (Hin & Hne & Hnot). repeat split; try assumption.
      intros mid Hmid. apply in_map_iff in Hmid. destruct Hmid as [m [<- Hm]].
      apply filter_In in Hm. destruct Hm as [Hm Hw]. apply String.eqb_eq in Hw.
      apply String.eqb_neq. intros Heq. exact (Hnot m Hm Hw (eq_sym Heq)).
Qed.

Lemma delete_match_body_found :
  forall (mid : string) (s : Ledger) (p : Participation) (parts : list Participation),
    filter (fun pa => String.eqb (match_id pa) mid) (participations s) = p :: parts ->
    delete_match_body mid s
    = Ok (tt,
          mkLedger
            (fold_left (fun ps q => map (revert_rating (rating_delta q) (player_id q)) ps)
                       (p :: parts) (players s))
            (filter (fun m => negb (String.eqb (m_id m) mid)) (matches s))
            (filter (fun pa => negb (String.eqb (match_id pa) mid)) (participations s))
            (k_factor_row s)).
Proof.
  intros mid s p parts Hparts. unfold delete_match_body.
  unfold bind at 1. unfold select_participations at 1. rewrite Hparts.
  unfold bind at 1. rewrite for_each_revert_ok.
  unfold bind at 1. unfold delete_participations_of_match at 1.
  unfold delete_matches, set_players, set_participations, set_matches.
  cbn [players matches participations k_factor_row].
  assert (FK : existsb
            (fun pa => existsb (fun m => String.eqb (m_id m) mid
                                         && String.eqb (m_id m) (match_id pa)) (matches s))
            (filter (fun pa => negb (String.eqb (match_id pa) mid)) (participations s))
          = false).
  { apply existsb_false_iff. intros pa Hpa. apply filter_In in Hpa.
    destruct Hpa as [_ Hpa]. apply negb_true_iff in Hpa.
    apply existsb_false_iff. intros m _.
    destruct (String.eqb (m_id m) mid) eqn:E1; [|reflexivity].
    destruct (String.eqb (m_id m) (match_id pa)) eqn:E2; [|reflexivity].
    apply String.eqb_eq in E1, E2. rewrite <- E2, E1, String.eqb_refl in Hpa.
    discriminate. }
  rewrite FK. reflexivity.
Qed.

(** C5.  [delete_match] raises "Match not found" exactly when no
    participation row has the given match id; that is the only way it can
    fail, and a failed call leaves the whole ledger as it was. *)
Theorem delete_match_failure :
  forall (mid : string) (s : Ledger),
    (fst (delete_match mid s) = Raise (ValueError "Match not found")
     <-> (forall pa, In pa (participations s) -> match_id pa <> mid))
    /\ (forall e, fst (delete_match mid s) = Raise e ->
                  e = ValueError "Match not found" /\ snd (delete_match mid s) = s).
Proof.
  intros mid s. unfold delete_match, transaction.
  destruct (filter (fun pa => String.eqb (match_id pa) mid) (participations s))
    as [|p parts] eqn:Hparts.
  - assert (Hbody : delete_match_body mid s = Raise (ValueError "Match not found")).
    { unfold delete_match_body. unfold bind at 1. unfold select_participations at 1.
      now rewrite Hparts. }
    rewrite Hbody. cbn [fst snd]. split.
    + split; [intros _ | reflexivity].
      intros pa Hpa Heq.
      assert (Hin : In pa (filter (fun pa => String.eqb (match_id pa) mid)
                                  (participations s))).
      { apply filter_In. split; [exact Hpa|]. now apply String.eqb_eq. }
      rewrite Hparts in Hin. exact Hin.
    + intros e He. injection He as <-. now split.
  - rewrite (delete_match_body_found mid s p parts Hparts). cbn [fst snd]. split.
    + split; [discriminate|]. intros Hnone. exfalso.
      assert (Hin : In p (filter (fun pa => String.eqb (match_id pa) mid)
                                 (participations s))).
      { rewrite Hparts. now left. }
      apply filter_In in Hin. destruct Hin as [Hin Heq].
      apply String.eqb_eq in Heq. exact (Hnone p Hin Heq).
    + intros e He. discriminate.
Qed.

End Deletion.

(** ** Match history *)

Module History.
Import Database.

Lemma in_insert_desc {A K} (key : A -> K) (lt : K -> K -> bool) (x y : A) (l : list A) :
  In y (insert_desc key lt x l) <-> y = x \/ In y l.
Proof.
  induction l as [|z l IH]; cbn.
  - intuition congruence.
  - destruct (lt (key x) (key z)); cbn; [rewrite IH|]; intuition congruence.
Qed.

Lemma in_sort_desc {A K} (key : A -> K) (lt : K -> K -> bool) (y : A) (l : list A) :
  In y (sort_desc key lt l) <-> In y l.
Proof.
  induction l as [|x l IH]; cbn; [tauto|].
  rewrite in_insert_desc, IH. intuition congruence.
Qed.

Lemma in_joined_rows :
  forall (s : Ledger) (m : Match) (w : Player) (p : Participation) (l : Player),
    In (m, w, p, l) (joined_rows s)
    <-> In m (matches s) /\ In w (players s) /\ In p (participations s) /\ In l (players s)
        /\ winner_id m = p_id w /\ match_id p = m_id m /\ is_winner p = 0
        /\ player_id p = p_id l.
Proof.
  intros s m w p l. unfold joined_rows. split.
  - intros H. apply in_flat_map in H. destruct H as [m' [Hm H]].
    apply in_flat_map in H. destruct H as [w' [Hw H]].
    apply in_flat_map in H. destruct H as [p' [Hp H]].
    apply in_map_iff in H. destruct H as [l' [Heq Hl]].
    injection Heq as -> -> -> ->.
    apply filter_In in Hw, Hp, Hl.
    destruct Hw as [Hw Ew], Hp as [Hp Ep], Hl as [Hl El].
    apply andb_true_iff in Ep. destruct Ep as [Ep1 Ep2].
    apply String.eqb_eq in Ew, Ep1, El. apply Z.eqb_eq in Ep2. tauto.
  - intros (Hm & Hw & Hp & Hl & Ew & Ep1 & Ep2 & El).
    apply in_flat_map. exists m. split; [exact Hm|].
    apply in_flat_map. exists w. split.
    { apply filter_In. split; [exact Hw|]. now apply String.eqb_eq. }
    apply in_flat_map. exists p. split.
    { apply filter_In. split; [exact Hp|]. apply andb_true_iff. split.
      - now apply String.eqb_eq.
      - now apply Z.eqb_eq. }
    apply in_map. apply filter_In. split; [exact Hl|]. now apply String.eqb_eq.
Qed.

(** C10.  A match id appears in [get_matches_history] exactly when the join
    has a row for it: a stored match whose winner is a player and that has a
    loser participation (is_winner = 0) whose player exists.  A match with no
    such loser participation gives no row at all. *)
Theorem get_matches_history_needs_loser :
  forall (s : Ledger) (mid : string),
    (exists row, In row (get_matches_history s) /\ ms_id row = mid)
    <-> (exists m w p l,
            In m (matches s) /\ In w (players s) /\ In p (participations s)
            /\ In l (players s) /\ m_id m = mid /\ winner_id m = p_id w
            /\ match_id p = mid /\ is_winner p = 0 /\ player_id p = p_id l).
Proof.
  intros s mid. unfold get_matches_history. split.
  - intros [row [Hrow Hid]]. apply in_sort_desc in Hrow.
    apply in_flat_map in Hrow. destruct Hrow as [k [_ Hrow]].
    destruct (filter (fun r => String.eqb (m_id (jr_match r)) k) (joined_rows s))
      as [|r group] eqn:Hg; [contradiction|].
    destruct Hrow as [Hrow|[]]. subst row. cbn in Hid. subst k.
    assert (Hr : In r (filter (fun r => String.eqb (m_id (jr_match r)) mid)
                              (joined_rows s))).
    { rewrite Hg. now left. }
    apply filter_In in Hr. destruct Hr as [Hr Hk]. apply String.eqb_eq in Hk.
    destruct r as [[[m w] p] l]. cbn in Hk.
    apply in_joined_rows in Hr.
    destruct Hr as (Hm & Hw & Hp & Hl & Ew & Ep1 & Ep2 & El).
    exists m, w, p, l. repeat split; try assumption. congruence.
  - intros (m & w & p & l & Hm & Hw & Hp & Hl & Em & Ew & Ep1 & Ep2 & El).
    assert (Hr : In (m, w, p, l) (joined_rows s)).
    { apply in_joined_rows. repeat split; try assumption. congruence. }
    assert (Hk : In mid (sort_desc (fun k => k) String.ltb
                           (nodup string_dec
                              (map (fun r => m_id (jr_match r)) (joined_rows s))))).
    { apply in_sort_desc, nodup_In. apply in_map_iff. exists (m, w, p, l). now split. }
    destruct (filter (fun r => String.eqb (m_id (jr_match r)) mid) (joined_rows s))
      as [|r group] eqn:Hg.
    + exfalso.
      assert (Hin : In (m, w, p, l)
                       (filter (fun r => String.eqb (m_id (jr_match r)) mid)
                               (joined_rows s))).
      { apply filter_In. split; [exact Hr|]. cbn. now apply String.eqb_eq. }
      rewrite Hg in Hin. exact Hin.
    + eexists. split.
      * apply in_sort_desc. apply in_flat_map. exists mid. split; [exact Hk|].
        rewrite Hg. left. reflexivity.
      * reflexivity.
Qed.

End History.

(** ** The rating engine *)

Module EloFacts.
Import Spec.

Section Engine.
Variable libm_pow10 : float -> float.

(** The loop started in any state adds the contributions, in order, to
    the state it started from. *)
Lemma calculate_deltas_from_spec :
  forall (w k : float) (ls : list float) (wd : float) (lds : list float),
    Elo.calculate_deltas_from libm_pow10 w k ls wd lds
    = (pairs <- map_result (pair_deltas libm_pow10 w k) ls ;;
       Ok (fold_left PrimFloat.add (map fst pairs) wd, lds ++ map snd pairs))%py.
Proof.
  intros w k ls. induction ls as [|lr ls IH]; intros wd lds.
  - cbn. now rewrite app_nil_r.
  - cbn [Elo.calculate_deltas_from map_result]. unfold pair_deltas at 1.
    destruct (Elo.expected_score libm_pow10 w lr) as [ew|e]; cbn [rbind]; [|reflexivity].
    destruct (Elo.expected_score libm_pow10 lr w) as [el|e]; cbn [rbind]; [|reflexivity].
    rewrite IH.
    destruct (map_result (pair_deltas libm_pow10 w k) ls) as [pairs|e];
      cbn [rbind]; [|reflexivity].
    cbn [map fst snd fold_left]. now rewrite <- app_assoc.
Qed.

Lemma map_result_total {A B} (f : A -> result B) (g : A -> B) (l : list A) :
  (forall x, In x l -> f x = Ok (g x)) -> map_result f l = Ok (map g l).
Proof.
  induction l as [|x l IH]; intros H; cbn; [reflexivity|].
  rewrite (H x (or_introl eq_refl)). cbn [rbind].
  rewrite IH; [reflexivity|]. intros y Hy. apply H. now right.
Qed.

(** C3.  [calculate_deltas] is the loser-by-loser computation of the
    specification: it raises what the first failing [expected_score] call
    raises, and otherwise returns the float sum, in sequence order, of
    [k * (1 - expected_score(winner, lr))] and the position-aligned list of
    [k * (0 - expected_score(lr, winner))].  With no loser it returns
    [(0.0, [])]. *)
Theorem calculate_deltas_spec :
  forall (winner_rating : float) (loser_ratings : list float) (k_factor : float),
    Elo.calculate_deltas libm_pow10 winner_rating loser_ratings k_factor
    = (pairs <- map_result (pair_deltas libm_pow10 winner_rating k_factor)
                           loser_ratings ;;
       Ok (fsum (map fst pairs), map snd pairs))%py
    /\ (forall E : float -> float -> float,
           (forall lr, In lr loser_ratings ->
                       Elo.expected_score libm_pow10 winner_rating lr = Ok (E winner_rating lr)
                       /\ Elo.expected_score libm_pow10 lr winner_rating = Ok (E lr winner_rating)) ->
           Elo.calculate_deltas libm_pow10 winner_rating loser_ratings k_factor
           = Ok (fsum (map (fun lr => (k_factor * (1 - E winner_rating lr))%float)
                           loser_ratings),
                 map (fun lr => (k_factor * (0 - E lr winner_rating))%float)
                     loser_ratings))
    /\ Elo.calculate_deltas libm_pow10 winner_rating [] k_factor = Ok (0%float, []).
Proof.
  intros w ls k.
  assert (Hspec : Elo.calculate_deltas libm_pow10 w ls k
                  = (pairs <- map_result (pair_deltas libm_pow10 w k) ls ;;
                     Ok (fsum (map fst pairs), map snd pairs))%py).
  { unfold Elo.calculate_deltas. now rewrite calculate_deltas_from_spec. }
  split; [exact Hspec|]. split; [|reflexivity].
  intros E HE. rewrite Hspec.
  rewrite (map_result_total _
             (fun lr => ((k * (1 - E w lr))%float, (k * (0 - E lr w))%float))).
  - cbn [rbind]. now rewrite !map_map.
  - intros lr Hlr. unfold pair_deltas.
    destruct (HE lr Hlr) as [-> ->]. reflexivity.
Qed.
End Engine.

End EloFacts.

(** ** Recording a match *)

Module Recording.
Import Database Spec DatabaseFacts.

Lemma insert_participation_ok :
  forall (pa : Participation) (s s' : Ledger) (u : unit),
    insert_participation pa s = Ok (u, s') ->
    s' = set_participations s (participations s ++ [stored_row pa])
    /\ not_null (rating_before pa) = true /\ not_null (rating_after pa) = true
    /\ not_null (rating_delta pa) = true
    /\ has_match (match_id pa) s = true /\ has_player (player_id pa) s = true.
Proof.
  intros pa s s' u H. unfold insert_participation in H.
  destruct (existsb _ (participations s)); [discriminate|].
  destruct (not_null (rating_before pa)); cbn in H; [|discriminate].
  destruct (not_null (rating_after pa)); cbn in H; [|discriminate].
  destruct (not_null (rating_delta pa)); cbn in H; [|discriminate].
  destruct (has_match (match_id pa) s); cbn in H; [|discriminate].
  destruct (has_player (player_id pa) s); cbn in H; [|discriminate].
  injection H as _ <-. repeat split.
Qed.

Lemma existsb_map {A B} (f : B -> bool) (g : A -> B) (l : list A) :
  existsb f (map g l) = existsb (fun x => f (g x)) l.
Proof. induction l as [|x l IH]; cbn; [reflexivity | now rewrite IH]. Qed.

Lemma existsb_id_apply (pid x : string) (r : float) (ps : list Player) :
  existsb (fun p => String.eqb (p_id p) pid) (map (apply_rating r x) ps)
  = existsb (fun p => String.eqb (p_id p) pid) ps.
Proof.
  induction ps as [|q qs IH]; [reflexivity|].
  cbn [map existsb]. rewrite IH. f_equal.
  unfold apply_rating. now destruct (String.eqb (p_id q) x).
Qed.

(** The loop over [losers_data], when it completes. *)
Lemma losers_loop_ok :
  forall (uuid : nat -> string) (mid : string) (ld : list LoserData) (i : nat)
         (s s' : Ledger) (u : unit),
    for_each (enumerate i ld)
      (fun il =>
         (update_player_rating (l_new_rating (snd il)) (l_id (snd il)) ;;
          insert_participation
            (mkParticipation (uuid (fst il)) mid (l_id (snd il)) 0
               (l_old_rating (snd il)) (l_new_rating (snd il)) (l_delta (snd il))))%sql) s
    = Ok (u, s') ->
    players s' = fold_left (fun ps l => map (apply_rating (l_new_rating l) (l_id l)) ps)
                           ld (players s)
    /\ matches s' = matches s
    /\ participations s' = participations s ++ map (loser_row uuid mid) (enumerate i ld)
    /\ k_factor_row s' = k_factor_row s
    /\ (forall l, In l ld -> has_player (l_id l) s = true).
Proof.
  intros uuid mid ld. induction ld as [|l ld IH]; intros i s s' u H.
  - cbn in H. injection H as _ <-. cbn. rewrite app_nil_r. repeat split. intros l [].
  - cbn [enumerate for_each] in H. unfold bind at 1 in H.
    unfold bind at 1 in H. unfold update_player_rating at 1 in H.
    cbn [fst snd] in H.
    match type of H with
    | match ?c with _ => _ end = _ =>
        destruct c as [[u1 s1]|e] eqn:Hins; [|discriminate]
    end.
    apply insert_participation_ok in Hins.
    destruct Hins as (-> & _ & _ & _ & _ & Hl). cbn [player_id] in Hl.
    unfold has_player in Hl. cbn [players set_players] in Hl.
    rewrite existsb_id_apply in Hl.
    apply IH in H. destruct H as (Hp & Hm & Hpa & Hk & Hls).
    cbn [fold_left map]. rewrite Hp, Hm, Hpa, Hk. cbn.
    rewrite <- app_assoc. repeat split.
    intros l' [<-|Hin]; [exact Hl|].
    specialize (Hls l' Hin). unfold has_player in Hls.
    cbn [players set_players set_participations] in Hls.
    now rewrite existsb_id_apply in Hls.
Qed.

Lemma record_match_body_ok :
  forall (uuid : nat -> string) (now : float) (date winner : string)
         (loser_ids : list string) (wd wnew : float) (ld : list LoserData)
         (mid : string) (k : float) (s s' : Ledger) (r : string),
    record_match_body uuid now date winner loser_ids wd wnew ld mid k s = Ok (r, s') ->
    r = mid
    /\ has_match mid s = false
    /\ has_player winner s = true
    /\ players s' = fold_left (fun ps e => map (apply_rating (snd (fst e)) (fst (fst e))) ps)
                              (participants winner wd wnew ld) (players s)
    /\ matches s' = matches s ++ [mkMatch mid date (real_column k) winner (real_column now)]
    /\ participations s'
       = participations s
           ++ winner_row uuid mid winner wd wnew
           :: map (loser_row uuid mid) (enumerate 2 ld)
    /\ k_factor_row s' = k_factor_row s
    /\ (forall l, In l ld -> has_player (l_id l) s = true).
Proof.
  intros uuid now date winner loser_ids wd wnew ld mid k s s' r H.
  unfold record_match_body in H. unfold bind at 1 in H.
  unfold insert_match at 1 in H. cbn [m_id k_factor_used winner_id] in H.
  destruct (has_match mid s) eqn:Hfresh; [discriminate|].
  destruct (negb (not_null k)); [discriminate|].
  destruct (has_player winner s) eqn:Hw; cbn [negb] in H; [|discriminate].
  unfold bind at 1 in H. unfold update_player_rating at 1 in H.
  unfold bind at 1 in H.
  match type of H with
  | match ?c with _ => _ end = _ => destruct c as [[u1 s1]|e] eqn:Hins; [|discriminate]
  end.
  apply insert_participation_ok in Hins. destruct Hins as [-> _].
  unfold bind at 1 in H.
  match type of H with
  | match ?c with _ => _ end = _ => destruct c as [[u2 s2]|e] eqn:Hloop; [|discriminate]
  end.
  apply losers_loop_ok in Hloop. destruct Hloop as (Hp & Hm & Hpa & Hk & Hls).
  unfold ret in H. injection H as <- <-.
  rewrite Hp, Hm, Hpa, Hk. cbn. unfold participants. cbn [fold_left fst snd].
  repeat split.
  - clear. generalize (map (apply_rating wnew winner) (players s)).
    induction ld as [|l ld IH]; intros ps; cbn; [reflexivity | apply IH].
  - now rewrite <- app_assoc.
  - intros l Hin. specialize (Hls l Hin).
    unfold has_player in Hls.
    cbn [players set_players set_participations set_matches] in Hls.
    now rewrite existsb_id_apply in Hls.
Qed.

End Recording.

(** ** Recording a match and reversing it at once *)

Module Reversal.
Import Database Spec Storage DatabaseFacts Deletion Recording.

Lemma fold_map_pointwise {A X} (f : X -> A -> A) (xs : list X) (ps : list A) :
  fold_left (fun qs x => map (f x) qs) xs ps
  = map (fun p => fold_left (fun q x => f x q) xs p) ps.
Proof.
  revert ps. induction xs as [|x xs IH]; intros ps; cbn.
  - now rewrite map_id.
  - now rewrite IH, map_map.
Qed.

Lemma p_id_apply_entry (q : Player) (e : string * float * float) :
  p_id (apply_entry q e) = p_id q.
Proof. unfold apply_entry, apply_rating. now destruct (String.eqb _ _). Qed.

Lemma p_id_fold_apply (es : list (string * float * float)) (q : Player) :
  p_id (fold_left apply_entry es q) = p_id q.
Proof.
  revert q. induction es as [|e es IH]; intros q; cbn; [reflexivity|].
  now rewrite IH, p_id_apply_entry.
Qed.

Lemma bystander_untouched (es : list (string * float * float)) (q : Player) :
  ~ In (p_id q) (map (fun e => fst (fst e)) es) ->
  fold_left apply_entry es q = q /\ fold_left revert_entry es q = q.
Proof.
  revert q. induction es as [|e es IH]; intros q Hq; cbn; [now split|].
  cbn in Hq.
  assert (Hne : String.eqb (p_id q) (fst (fst e)) = false).
  { apply String.eqb_neq. intros Heq. apply Hq. now left. }
  unfold apply_entry at 2, revert_entry at 2, apply_rating, revert_rating.
  rewrite Hne. apply IH. intros Hin. apply Hq. now right.
Qed.

(** Setting the new ratings of distinct participants and then subtracting
    their deltas, seen on one player row. *)
Lemma apply_then_revert (es : list (string * float * float)) (q : Player) :
  NoDup (map (fun e => fst (fst e)) es) ->
  fold_left revert_entry es (fold_left apply_entry es q) = reverted es q.
Proof.
  revert q. induction es as [|e es IH]; intros q Hnd; [reflexivity|].
  cbn [map] in Hnd. apply NoDup_cons_iff in Hnd. destruct Hnd as [Hnotin Hnd].
  cbn [fold_left]. unfold reverted. cbn [find].
  destruct (String.eqb (p_id q) (fst (fst e))) eqn:Heq.
  - assert (Hid : p_id (apply_entry q e) = fst (fst e)).
    { rewrite p_id_apply_entry. now apply String.eqb_eq. }
    assert (H1 : ~ In (p_id (apply_entry q e)) (map (fun e => fst (fst e)) es))
      by now rewrite Hid.
    destruct (bystander_untouched es _ H1) as [-> _].
    assert (H2 : ~ In (p_id (revert_entry (apply_entry q e) e))
                      (map (fun e => fst (fst e)) es)).
    { unfold revert_entry, revert_rating. rewrite Hid, String.eqb_refl. cbn.
      now rewrite <- Hid. }
    destruct (bystander_untouched es _ H2) as [_ ->].
    unfold revert_entry, revert_rating. rewrite Hid, String.eqb_refl.
    unfold apply_entry, apply_rating. rewrite Heq. cbn.
    destruct e as [[pid new_rating] delta]. cbn in *.
    apply String.eqb_eq in Heq. f_equal; [congruence | | lia].
    apply real_column_sub_stored, real_column_idem.
  - assert (Hsame : apply_entry q e = q).
    { unfold apply_entry, apply_rating. now rewrite Heq. }
    rewrite Hsame.
    assert (Hskip : revert_entry (fold_left apply_entry es q) e
                    = fold_left apply_entry es q).
    { unfold revert_entry, revert_rating. now rewrite p_id_fold_apply, Heq. }
    rewrite Hskip. rewrite (IH q Hnd). reflexivity.
Qed.

Lemma filter_absent {A} (f : A -> bool) (l : list A) :
  (forall x, In x l -> f x = true) -> filter f l = l.
Proof.
  induction l as [|x l IH]; intros H; cbn; [reflexivity|].
  rewrite (H x (or_introl eq_refl)). f_equal. apply IH. intros y Hy. apply H. now right.
Qed.

Lemma filter_none {A} (f : A -> bool) (l : list A) :
  (forall x, In x l -> f x = false) -> filter f l = [].
Proof.
  induction l as [|x l IH]; intros H; cbn; [reflexivity|].
  rewrite (H x (or_introl eq_refl)). apply IH. intros y Hy. apply H. now right.
Qed.

Lemma map_snd_enumerate {A} (i : nat) (l : list A) : map snd (enumerate i l) = l.
Proof. revert i. induction l as [|x l IH]; intros i; cbn; [reflexivity | now rewrite IH]. Qed.

Lemma revert_rows_as_entries :
  forall (uuid : nat -> string) (mid winner : string) (wd wnew : float)
         (ld : list LoserData) (ps : list Player),
    fold_left (fun qs q => map (revert_rating (rating_delta q) (player_id q)) qs)
              (winner_row uuid mid winner wd wnew
                 :: map (loser_row uuid mid) (enumerate 2 ld)) ps
    = fold_left (fun qs e => map (fun p => revert_entry p e) qs)
                (participants winner wd wnew ld) ps.
Proof.
  intros uuid mid winner wd wnew ld ps. unfold participants.
  cbn [fold_left].
  change (map (fun p => revert_entry p (winner, wnew, wd)) ps)
    with (map (revert_rating (real_column wd) winner) ps).
  cbn [player_id rating_delta winner_row].
  generalize (map (revert_rating (real_column wd) winner) ps). generalize 2%nat.
  induction ld as [|l ld IH]; intros i qs; cbn [map enumerate fold_left];
    [reflexivity|].
  rewrite IH. reflexivity.
Qed.

(** C1 (amended).  When [record_match] commits on a ledger whose foreign
    keys hold, with pairwise distinct participants, deleting the new match
    at once commits too and restores the match and participation tables and
    every games_played exactly; each participant's rating becomes the
    binary64 difference [new_rating - delta] of the two values as the REAL
    columns hold them (a -0.0 that was passed is held as +0.0).  The ledger
    is therefore restored exactly when each of these differences is the
    rating stored before the match. *)
Theorem record_then_delete :
  forall (uuid : nat -> string) (now : float) (date winner : string)
         (loser_ids : list string) (wd wnew : float) (ld : list LoserData)
         (s s1 : Ledger) (mid : string),
    foreign_keys_hold s ->
    NoDup (winner :: map l_id ld) ->
    record_match uuid now date winner loser_ids wd wnew ld s = (Ok mid, s1) ->
    delete_match mid s1
    = (Ok tt, mkLedger (map (reverted (participants winner wd wnew ld)) (players s))
                       (matches s) (participations s) (k_factor_row s))
    /\ ((forall p, In p (players s) ->
                   rating (reverted (participants winner wd wnew ld) p) = rating p) ->
        delete_match mid s1 = (Ok tt, s)).
Proof.
  intros uuid now date winner loser_ids wd wnew ld s s1 mid [_ Hfk] Hnd Hrec.
  unfold record_match, transaction in Hrec.
  destruct (record_match_body uuid now date winner loser_ids wd wnew ld
              (uuid 0%nat) (get_k_factor s) s) as [[r s']|e] eqn:Hbody;
    [|discriminate].
  injection Hrec as -> ->.
  apply record_match_body_ok in Hbody.
  destruct Hbody as (-> & Hfresh & _ & Hp & Hm & Hpa & Hk & _).
  set (mid := uuid 0%nat) in *.
  set (entries := participants winner wd wnew ld).
  assert (Hold : forall pa, In pa (participations s) ->
                            String.eqb (match_id pa) mid = false).
  { intros pa Hin. destruct (Hfk pa Hin) as [Hhas _].
    destruct (String.eqb (match_id pa) mid) eqn:E; [|reflexivity].
    apply String.eqb_eq in E. rewrite E in Hhas. congruence. }
  assert (Hnew : forall pa,
             In pa (winner_row uuid mid winner wd wnew
                      :: map (loser_row uuid mid) (enumerate 2 ld)) ->
             String.eqb (match_id pa) mid = true).
  { intros pa [<-|Hin]; [apply String.eqb_refl|].
    apply in_map_iff in Hin. destruct Hin as [il [<- _]]. apply String.eqb_refl. }
  assert (Hparts : filter (fun pa => String.eqb (match_id pa) mid) (participations s1)
                   = winner_row uuid mid winner wd wnew
                       :: map (loser_row uuid mid) (enumerate 2 ld)).
  { rewrite Hpa, filter_app. rewrite (filter_none _ _ Hold).
    now rewrite (filter_absent _ _ Hnew). }
  assert (Hdel : delete_match mid s1
                 = (Ok tt, mkLedger (map (reverted entries) (players s))
                                    (matches s) (participations s) (k_factor_row s))).
  { unfold delete_match, transaction.
    rewrite (delete_match_body_found mid s1 _ _ Hparts). f_equal. f_equal.
    - rewrite revert_rows_as_entries, Hp. fold entries.
      rewrite (fold_map_pointwise (fun e p => apply_rating (snd (fst e)) (fst (fst e)) p)).
      rewrite (fold_map_pointwise (fun e p => revert_entry p e)).
      rewrite map_map. apply map_ext. intros p.
      apply (apply_then_revert entries p).
      unfold entries, participants. cbn [map fst]. now rewrite map_map.
    - rewrite Hm, filter_app. cbn [filter m_id]. fold mid.
      rewrite String.eqb_refl. cbn [negb]. rewrite app_nil_r.
      apply filter_absent. intros m Hin. apply negb_true_iff.
      destruct (String.eqb (m_id m) mid) eqn:E; [|reflexivity].
      exfalso. unfold has_match in Hfresh.
      assert (Hex : existsb (fun m => String.eqb (m_id m) mid) (matches s) = true)
        by (apply existsb_exists; now exists m).
      congruence.
    - rewrite Hpa, filter_app.
      rewrite (filter_absent _ (participations s)).
      + rewrite filter_none; [apply app_nil_r|].
        intros pa Hin. now rewrite (Hnew pa Hin).
      + intros pa Hin. now rewrite (Hold pa Hin).
    - exact Hk. }
  split; [exact Hdel|].
  intros Hexact. rewrite Hdel. f_equal. destruct s as [ps ms pas k]. cbn in *.
  f_equal. rewrite <- (map_id ps) at 2. apply map_ext_in. intros p Hin.
  specialize (Hexact p Hin). unfold reverted in *.
  destruct (find _ entries) as [[[pid new_rating] delta]|]; [|reflexivity].
  cbn in Hexact. rewrite Hexact. now destruct p.
Qed.

End Reversal.

(** ** Invariants of the reachable ledgers *)

Module Invariant.
Import Database Spec DatabaseFacts Deletion Recording Reversal.

Lemma has_player_iff (pid : string) (s : Ledger) :
  has_player pid s = true <-> exists p, In p (players s) /\ p_id p = pid.
Proof.
  unfold has_player. rewrite existsb_exists. split.
  - intros [p [Hin Heq]]. exists p. split; [exact Hin|]. now apply String.eqb_eq.
  - intros [p [Hin Heq]]. exists p. split; [exact Hin|]. now apply String.eqb_eq.
Qed.

Lemma has_match_iff (mid : string) (s : Ledger) :
  has_match mid s = true <-> exists m, In m (matches s) /\ m_id m = mid.
Proof.
  unfold has_match. rewrite existsb_exists. split.
  - intros [m [Hin Heq]]. exists m. split; [exact Hin|]. now apply String.eqb_eq.
  - intros [m [Hin Heq]]. exists m. split; [exact Hin|]. now apply String.eqb_eq.
Qed.

Lemma has_player_same_ids (pid : string) (s s' : Ledger) (f : Player -> Player) :
  (forall p, p_id (f p) = p_id p) ->
  players s' = map f (players s) ->
  has_player pid s' = has_player pid s.
Proof.
  intros Hf Hp. unfold has_player. rewrite Hp, existsb_map. clear Hp.
  induction (players s) as [|q qs IH]; cbn; [reflexivity|]. now rewrite Hf, IH.
Qed.

Lemma p_id_fold_revert (parts : list Participation) (q : Player) :
  p_id (fold_left revert_row parts q) = p_id q.
Proof.
  revert q. induction parts as [|r parts IH]; intros q; cbn; [reflexivity|].
  rewrite IH. unfold revert_row, revert_rating. now destruct (String.eqb _ _).
Qed.

(** What each operation leaves when it commits. *)

Lemma create_player_effect (new_id : string) (now : float) (name : string) (s : Ledger) :
  snd (create_player new_id now name s) = s
  \/ (has_player new_id s = false
      /\ snd (create_player new_id now name s)
         = set_players s (players s ++ [mkPlayer new_id name 1200%float 0 (real_column now)])).
Proof.
  unfold create_player, insert_player.
  destruct (existsb _ (players s)) eqn:E; [now left|]. right. split; [|reflexivity].
  unfold has_player. apply existsb_false_iff. intros p Hp.
  pose proof (proj1 (existsb_false_iff _ _) E p Hp) as H. cbn in H.
  apply orb_false_iff in H. exact (proj1 H).
Qed.

Lemma record_match_effect :
  forall (uuid : nat -> string) (now : float) (date winner : string)
         (loser_ids : list string) (wd wnew : float) (ld : list LoserData) (s : Ledger),
    let s' := snd (record_match uuid now date winner loser_ids wd wnew ld s) in
    s' = s
    \/ (has_match (uuid 0%nat) s = false
        /\ (forall e, In e (participants winner wd wnew ld) -> has_player (fst (fst e)) s = true)
        /\ players s' = map (fun p => fold_left apply_entry (participants winner wd wnew ld) p)
                            (players s)
        /\ matches s' = matches s ++ [mkMatch (uuid 0%nat) date (real_column (get_k_factor s)) winner (real_column now)]
        /\ participations s'
           = participations s
               ++ winner_row uuid (uuid 0%nat) winner wd wnew
               :: map (loser_row uuid (uuid 0%nat)) (enumerate 2 ld)).
Proof.
  intros uuid now date winner loser_ids wd wnew ld s. cbn zeta.
  unfold record_match, transaction.
  destruct (record_match_body uuid now date winner loser_ids wd wnew ld
              (uuid 0%nat) (get_k_factor s) s) as [[r s']|e] eqn:Hbody; [|now left].
  right. cbn [snd]. apply record_match_body_ok in Hbody.
  destruct Hbody as (_ & Hfresh & Hw & Hp & Hm & Hpa & _ & Hls).
  repeat split; try assumption.
  - intros e [<-|Hin]; [exact Hw|].
    apply in_map_iff in Hin. destruct Hin as [l [<- Hl]]. cbn. now apply Hls.
  - rewrite Hp. apply (fold_map_pointwise (fun e p => apply_entry p e)).
Qed.

Lemma delete_match_effect (mid : string) (s : Ledger) :
  let s' := snd (delete_match mid s) in
  s' = s
  \/ (players s' = map (fun p => fold_left revert_row
                                   (filter (fun pa => String.eqb (match_id pa) mid)
                                           (participations s)) p)
                       (players s)
      /\ matches s' = filter (fun m => negb (String.eqb (m_id m) mid)) (matches s)
      /\ participations s'
         = filter (fun pa => negb (String.eqb (match_id pa) mid)) (participations s)).
Proof.
  cbn zeta. unfold delete_match, transaction.
  destruct (filter (fun pa => String.eqb (match_id pa) mid) (participations s))
    as [|p parts] eqn:Hparts.
  - left. unfold delete_match_body. unfold bind at 1. unfold select_participations at 1.
    now rewrite Hparts.
  - right. rewrite (delete_match_body_found mid s p parts Hparts). cbn [snd players
      matches participations]. repeat split.
    apply (fold_map_pointwise (fun r q => revert_row q r)).
Qed.

Lemma in_enumerate_snd {A} (i : nat) (l : list A) (il : nat * A) :
  In il (enumerate i l) -> In (snd il) l.
Proof.
  intros H. rewrite <- (map_snd_enumerate i l). now apply in_map.
Qed.

(** The enforced foreign keys are kept by every operation. *)
Lemma step_foreign_keys (s : Ledger) (op : Op) :
  foreign_keys_hold s -> foreign_keys_hold (step s op).
Proof.
  intros [Hm Hpa]. destruct op as [new_id now name|uuid now date winner lids wd wnew ld
                                  |mid|pid|k]; cbn [step].
  - destruct (create_player_effect new_id now name s) as [-> | [_ ->]]; [now split|].
    assert (Hmono : forall pid, has_player pid s = true ->
                                has_player pid (set_players s
                                  (players s ++ [mkPlayer new_id name 1200%float 0 (real_column now)])) = true).
    { intros pid H. unfold has_player, set_players in *. cbn [players].
      rewrite existsb_app. now rewrite H. }
    split.
    + intros m Hin. apply Hmono. now apply Hm.
    + intros pa Hin. destruct (Hpa pa Hin) as [H1 H2]. split; [exact H1 | now apply Hmono].
  - destruct (record_match_effect uuid now date winner lids wd wnew ld s)
      as [-> | (Hfresh & Hes & Hp & Hms & Hpas)]; [now split|].
    set (s' := snd (record_match uuid now date winner lids wd wnew ld s)) in *.
    assert (Hsame : forall pid, has_player pid s' = has_player pid s).
    { intros pid. apply (has_player_same_ids pid s s' _ (p_id_fold_apply _) Hp). }
    assert (Hmm : forall x, has_match x s = true -> has_match x s' = true).
    { intros x H. unfold has_match in *. rewrite Hms, existsb_app. now rewrite H. }
    assert (Hnew : has_match (uuid 0%nat) s' = true).
    { unfold has_match. rewrite Hms, existsb_app. cbn. rewrite String.eqb_refl.
      now rewrite orb_true_r. }
    split.
    + intros m Hin. rewrite Hms in Hin. apply in_app_or in Hin. rewrite Hsame.
      destruct Hin as [Hin|[<-|[]]]; [now apply Hm|].
      cbn. apply (Hes (winner, wnew, wd)). now left.
    + intros pa Hin. rewrite Hpas in Hin. apply in_app_or in Hin. rewrite Hsame.
      destruct Hin as [Hin|[<-|Hin]].
      * destruct (Hpa pa Hin) as [H1 H2]. split; [now apply Hmm | exact H2].
      * split; [exact Hnew|]. cbn. apply (Hes (winner, wnew, wd)). now left.
      * apply in_map_iff in Hin. destruct Hin as [il [<- Hil]]. split; [exact Hnew|].
        cbn. apply (Hes (l_id (snd il), l_new_rating (snd il), l_delta (snd il))).
        right. apply in_map_iff. exists (snd il). split; [reflexivity|].
        now apply in_enumerate_snd in Hil.
  - destruct (delete_match_effect mid s) as [-> | (Hp & Hms & Hpas)]; [now split|].
    set (s' := snd (delete_match mid s)) in *.
    assert (Hsame : forall pid, has_player pid s' = has_player pid s).
    { intros pid. apply (has_player_same_ids pid s s' _ (p_id_fold_revert _) Hp). }
    split.
    + intros m Hin. rewrite Hms in Hin. apply filter_In in Hin. rewrite Hsame.
      now apply Hm.
    + intros pa Hin. rewrite Hpas in Hin. apply filter_In in Hin.
      destruct Hin as [Hin Hne]. destruct (Hpa pa Hin) as [H1 H2].
      rewrite Hsame. split; [|exact H2].
      apply has_match_iff in H1. destruct H1 as [m [Hmin Hmid]].
      apply has_match_iff. exists m. split; [|exact Hmid].
      rewrite Hms. apply filter_In. split; [exact Hmin|]. now rewrite Hmid.
  - rewrite delete_player_effect. cbn [snd].
    assert (Hkeep : forall x, x <> pid -> has_player x s = true ->
              has_player x (mkLedger
                (filter (fun p => negb (String.eqb (p_id p) pid)) (players s))
                (filter (fun m => negb (String.eqb (winner_id m) pid)) (matches s))
                (filter (fun pa => negb (won_by pid s (match_id pa))
                                   && negb (String.eqb (player_id pa) pid))
                        (participations s))
                (k_factor_row s)) = true).
    { intros x Hx H. apply has_player_iff in H. destruct H as [p [Hin Hid]].
      apply has_player_iff. exists p. split; [|exact Hid]. cbn [players].
      apply filter_In. split; [exact Hin|]. apply negb_true_iff.
      apply String.eqb_neq. congruence. }
    split; cbn [matches participations].
    + intros m Hin. apply filter_In in Hin. destruct Hin as [Hin Hne].
      apply negb_true_iff, String.eqb_neq in Hne. apply Hkeep; [exact Hne | now apply Hm].
    + intros pa Hin. apply filter_In in Hin. destruct Hin as [Hin Hne].
      apply andb_true_iff in Hne. destruct Hne as [Hwon Hne].
      apply negb_true_iff in Hwon. apply negb_true_iff, String.eqb_neq in Hne.
      destruct (Hpa pa Hin) as [H1 H2]. split; [|now apply Hkeep].
      apply has_match_iff in H1. destruct H1 as [m [Hmin Hmid]].
      apply has_match_iff. exists m. split; [|exact Hmid]. cbn [matches].
      apply filter_In. split; [exact Hmin|]. apply negb_true_iff.
      destruct (String.eqb (winner_id m) pid) eqn:Ew; [|reflexivity]. exfalso.
      assert (Hw : won_by pid s (match_id pa) = true).
      { unfold won_by. apply existsb_exists. exists (m_id m). split.
        - apply in_map. apply filter_In. now split.
        - rewrite Hmid. apply String.eqb_refl. }
      congruence.
  - now split.
Qed.

Lemma run_foreign_keys (ops : list Op) : foreign_keys_hold (run ops).
Proof.
  unfold run.
  assert (H0 : foreign_keys_hold init_db) by (split; intros ? []).
  revert H0. generalize init_db. induction ops as [|op ops IH]; intros s Hs; cbn.
  - exact Hs.
  - apply IH. now apply step_foreign_keys.
Qed.

(** Counting: how games_played and the number of stored rows move. *)

Lemma gp_fold_apply (es : list (string * float * float)) (q : Player) :
  games_played (fold_left apply_entry es q)
  = games_played q
    + Z.of_nat (List.length (filter (fun e => String.eqb (p_id q) (fst (fst e))) es)).
Proof.
  revert q. induction es as [|e es IH]; intros q; cbn [fold_left filter]; [cbn; lia|].
  rewrite IH, p_id_apply_entry. unfold apply_entry at 1, apply_rating.
  destruct (String.eqb (p_id q) (fst (fst e))); cbn [games_played List.length]; lia.
Qed.

Lemma gp_fold_revert (parts : list Participation) (q : Player) :
  games_played (fold_left revert_row parts q)
  = games_played q
    - Z.of_nat (List.length (filter (fun r => String.eqb (p_id q) (player_id r)) parts)).
Proof.
  revert q. induction parts as [|r parts IH]; intros q; cbn [fold_left filter]; [cbn; lia|].
  rewrite IH.
  assert (Hid : p_id (revert_row q r) = p_id q).
  { unfold revert_row, revert_rating. now destruct (String.eqb _ _). }
  rewrite Hid. unfold revert_row at 1, revert_rating.
  destruct (String.eqb (p_id q) (player_id r)); cbn [games_played List.length]; lia.
Qed.

Lemma rows_entries_count :
  forall (uuid : nat -> string) (mid winner : string) (wd wnew : float)
         (ld : list LoserData) (pid : string),
    List.length (rows_of pid (winner_row uuid mid winner wd wnew
                                :: map (loser_row uuid mid) (enumerate 2 ld)))
    = List.length (filter (fun e => String.eqb pid (fst (fst e)))
                          (participants winner wd wnew ld)).
Proof.
  intros uuid mid winner wd wnew ld pid. unfold rows_of, participants.
  cbn [filter winner_row player_id fst]. rewrite (String.eqb_sym winner pid).
  assert (H : forall i,
             List.length (filter (fun pa => String.eqb (player_id pa) pid)
                                 (map (loser_row uuid mid) (enumerate i ld)))
             = List.length (filter (fun e : string * float * float =>
                                      String.eqb pid (fst (fst e)))
                                   (map (fun l => (l_id l, l_new_rating l, l_delta l)) ld))).
  { induction ld as [|l ld IH]; intros i; cbn [map enumerate filter]; [reflexivity|].
    cbn [loser_row player_id fst snd]. rewrite (String.eqb_sym (l_id l) pid).
    destruct (String.eqb pid (l_id l)); cbn [List.length]; now rewrite IH. }
  destruct (String.eqb pid winner); cbn [List.length]; now rewrite H.
Qed.

Lemma length_filter_split {A} (f g : A -> bool) (l : list A) :
  List.length (filter f l)
  = (List.length (filter f (filter g l))
     + List.length (filter f (filter (fun x => negb (g x)) l)))%nat.
Proof.
  induction l as [|x l IH]; cbn [filter]; [reflexivity|].
  destruct (g x); cbn [negb filter]; destruct (f x); cbn [List.length]; lia.
Qed.

Lemma length_filter_le {A} (f g : A -> bool) (l : list A) :
  (List.length (filter f (filter g l)) <= List.length (filter f l))%nat.
Proof. rewrite (length_filter_split f g l). lia. Qed.

(** One operation, seen from a player row it leaves: the row is new with no
    game and no participation, or it comes from a row of the same player
    and the excess of games_played over the stored rows is unchanged; only
    [delete_player] lets the number of stored rows drop on its own. *)
Lemma step_counts (s : Ledger) (op : Op) :
  foreign_keys_hold s ->
  forall p', In p' (players (step s op)) ->
    (games_played p' = 0 /\ participation_count (step s op) (p_id p') = 0)
    \/ exists p, In p (players s) /\ p_id p = p_id p'
                 /\ if is_delete_player op
                    then games_played p' = games_played p
                         /\ participation_count (step s op) (p_id p')
                            <= participation_count s (p_id p)
                    else games_played p' - participation_count (step s op) (p_id p')
                         = games_played p - participation_count s (p_id p).
Proof.
  intros [Hm Hpa] p' Hin.
  destruct op as [new_id now name|uuid now date winner lids wd wnew ld|mid|pid|k];
    cbn [step is_delete_player] in *.
  - destruct (create_player_effect new_id now name s) as [E | [Hnew E]]; rewrite E in *.
    + right. exists p'. now repeat split.
    + cbn [players set_players] in Hin. apply in_app_or in Hin.
      destruct Hin as [Hin|[<-|[]]].
      * right. exists p'. now repeat split.
      * left. split; [reflexivity|]. unfold participation_count, rows_of.
        cbn [participations set_players p_id]. rewrite filter_none; [reflexivity|].
        intros pa Hpain. destruct (Hpa pa Hpain) as [_ H].
        destruct (String.eqb (player_id pa) new_id) eqn:Eq; [|reflexivity].
        apply String.eqb_eq in Eq. congruence.
  - destruct (record_match_effect uuid now date winner lids wd wnew ld s)
      as [E | (_ & _ & Hp & _ & Hpas)].
    + rewrite E in *. right. exists p'. now repeat split.
    + set (s' := snd (record_match uuid now date winner lids wd wnew ld s)) in *.
      rewrite Hp in Hin. apply in_map_iff in Hin. destruct Hin as [p [<- Hin]].
      right. exists p. split; [exact Hin|]. split; [now rewrite p_id_fold_apply|].
      rewrite gp_fold_apply, p_id_fold_apply. unfold participation_count.
      rewrite Hpas. unfold rows_of at 1. rewrite filter_app, length_app.
      fold (rows_of (p_id p) (participations s)).
      fold (rows_of (p_id p) (winner_row uuid (uuid 0%nat) winner wd wnew
                                :: map (loser_row uuid (uuid 0%nat)) (enumerate 2 ld))).
      rewrite rows_entries_count. lia.
  - destruct (delete_match_effect mid s) as [E | (Hp & _ & Hpas)].
    + rewrite E in *. right. exists p'. now repeat split.
    + set (s' := snd (delete_match mid s)) in *.
      rewrite Hp in Hin. apply in_map_iff in Hin. destruct Hin as [p [<- Hin]].
      right. exists p. split; [exact Hin|]. split; [now rewrite p_id_fold_revert|].
      rewrite gp_fold_revert, p_id_fold_revert. unfold participation_count, rows_of.
      rewrite Hpas.
      rewrite (length_filter_split (fun pa => String.eqb (player_id pa) (p_id p))
                 (fun pa => String.eqb (match_id pa) mid) (participations s)).
      rewrite !filter_filter.
      rewrite (filter_ext
                 (fun x => String.eqb (match_id x) mid && String.eqb (p_id p) (player_id x))
                 (fun x => String.eqb (match_id x) mid && String.eqb (player_id x) (p_id p)))
        by (intros r; now rewrite (String.eqb_sym (p_id p))).
      lia.
  - rewrite delete_player_effect in *. cbn [snd players] in *.
    apply filter_In in Hin. destruct Hin as [Hin _].
    right. exists p'. split; [exact Hin|]. split; [reflexivity|]. split; [reflexivity|].
    unfold participation_count, rows_of. cbn [participations].
    pose proof (length_filter_le (fun pa => String.eqb (player_id pa) (p_id p'))
                  (fun pa => negb (won_by pid s (match_id pa))
                             && negb (String.eqb (player_id pa) pid))
                  (participations s)). lia.
  - right. exists p'. now repeat split.
Qed.

Lemma run_counts :
  forall (ops : list Op) (s : Ledger) (b : bool),
    foreign_keys_hold s ->
    (forall p, In p (players s) ->
               participation_count s (p_id p) <= games_played p
               /\ (b = false -> games_played p = participation_count s (p_id p))) ->
    forall p, In p (players (fold_left step ops s)) ->
              participation_count (fold_left step ops s) (p_id p) <= games_played p
              /\ (b || existsb is_delete_player ops = false ->
                  games_played p = participation_count (fold_left step ops s) (p_id p)).
Proof.
  induction ops as [|op ops IH]; intros s b Hfk Hs p Hin; cbn [fold_left existsb] in *.
  - rewrite orb_false_r. now apply Hs.
  - rewrite orb_assoc.
    apply (IH (step s op) (b || is_delete_player op)); [now apply step_foreign_keys| |exact Hin].
    clear p Hin. intros p' Hin'.
    destruct (step_counts s op Hfk p' Hin') as [[Hg Hc] | [p [Hp [_ Hrel]]]].
    + rewrite Hg, Hc. split; [lia | reflexivity].
    + destruct (Hs p Hp) as [Hle Hex].
      destruct (is_delete_player op).
      * destruct Hrel as [Hg Hc]. split; [lia|]. rewrite orb_true_r. discriminate.
      * rewrite orb_false_r. split; [lia|]. intros Hb. specialize (Hex Hb). lia.
Qed.


End Invariant.

(** ** The leaderboard threshold *)

Module Leaderboard.
Import Magnitude Binary64 Database History.

Lemma prim_one_fifth : Prim2SF 0.20%float = S754_finite false 7205759403792794 (-55).
Proof. reflexivity. Qed.

(** [float(n)] of a 64-bit integer returns, without rounding to an
    infinity. *)
Lemma float_of_int_int64 (n : Z) :
  Z.abs n <= 2 ^ 63 ->
  float_of_int n = Ok (SF2Prim (Z2SF n))
  /\ Prim2SF (SF2Prim (Z2SF n)) = Z2SF n
  /\ finite_below (2 ^ 52) 11 (Z2SF n).
Proof.
  intros Hn. unfold float_of_int, Z2SF.
  destruct (Z2SF_good (2 ^ 52) 11 n) as [Hv Hf];
    [unfold prec; lia | unfold emax, prec; lia | lia|].
  destruct (finite_not_infinity _ _ _ Hv Hf) as [H1 H2].
  rewrite H2. repeat split; assumption.
Qed.

Lemma product_one_fifth (n : Z) :
  Z.abs n <= 2 ^ 63 ->
  Prim2SF (SF2Prim (Z2SF n) * 0.20)%float
  = SFmul prec emax (Z2SF n) (S754_finite false 7205759403792794 (-55))
  /\ finite_below (2 ^ 52) 11
       (SFmul prec emax (Z2SF n) (S754_finite false 7205759403792794 (-55))).
Proof.
  intros Hn. destruct (float_of_int_int64 n Hn) as (_ & Hp & Hf).
  split.
  - rewrite mul_spec, Hp, prim_one_fifth. reflexivity.
  - apply (SFmul_below (2 ^ 52) 11 7205759403792794 (-55) (2 ^ 52) 11 55);
      try (unfold prec, emax; lia); try exact Hf.
    cbn. split; lia.
Qed.

Lemma threshold_small (n : Z) :
  0 <= n < 128 -> leaderboard_threshold n = Ok (Z.min 15 (Z.max 5 (n / 5))).
Proof.
  intros Hn.
  assert (H : forallb (fun k => match leaderboard_threshold (Z.of_nat k) with
                                | Ok t => t =? Z.min 15 (Z.max 5 (Z.of_nat k / 5))
                                | Raise _ => false
                                end) (seq 0 128) = true) by (vm_compute; reflexivity).
  rewrite forallb_forall in H. specialize (H (Z.to_nat n)).
  rewrite Z2Nat.id in H by lia.
  destruct (leaderboard_threshold n) as [t|e].
  - f_equal. apply Z.eqb_eq. apply H. apply in_seq. lia.
  - discriminate H. apply in_seq. lia.
Qed.

Lemma floor_small (n : Z) :
  0 <= n < 128 ->
  (x <- float_of_int n ;; f <- floor_of_float (x * 0.20)%float ;;
   Ok (Z.min 15 (Z.max 5 f)))%py
  = Ok (Z.min 15 (Z.max 5 (n / 5))).
Proof.
  intros Hn.
  assert (H : forallb (fun k => match (x <- float_of_int (Z.of_nat k) ;;
                                       f <- floor_of_float (x * 0.20)%float ;;
                                       Ok (Z.min 15 (Z.max 5 f)))%py with
                                | Ok t => t =? Z.min 15 (Z.max 5 (Z.of_nat k / 5))
                                | Raise _ => false
                                end) (seq 0 128) = true) by (vm_compute; reflexivity).
  rewrite forallb_forall in H. specialize (H (Z.to_nat n)).
  rewrite Z2Nat.id in H by lia.
  destruct (x <- float_of_int n ;; f <- floor_of_float (x * 0.20)%float ;;
            Ok (Z.min 15 (Z.max 5 f)))%py as [t|e].
  - f_equal. apply Z.eqb_eq. apply H. apply in_seq. lia.
  - discriminate H. apply in_seq. lia.
Qed.

(** The truncated and the floored product, by the sign and size of [n]. *)
Lemma product_parts (n : Z) :
  - 2 ^ 63 <= n < 2 ^ 63 ->
  exists f, int_of_float (SF2Prim (Z2SF n) * 0.20)%float = Ok (fst f)
            /\ floor_of_float (SF2Prim (Z2SF n) * 0.20)%float = Ok (snd f)
            /\ (n < 0 -> fst f <= 0 /\ snd f <= 0)
            /\ (128 <= n -> 16 <= fst f /\ fst f = snd f).
Proof.
  intros Hn. destruct (product_one_fifth n ltac:(lia)) as [Hp Hf].
  unfold int_of_float, floor_of_float. rewrite Hp.
  set (y := S754_finite false 7205759403792794 (-55)) in *.
  assert (Hsign : sign_is (n <? 0) (SFmul prec emax (Z2SF n) y)).
  { replace (n <? 0) with (xorb (n <? 0) false) by now destruct (n <? 0).
    apply (SFmul_sign _ _ (2 ^ 52) 11 7205759403792794 (-55)).
    - apply float_of_int_int64. lia.
    - cbn. split; lia.
    - unfold Z2SF. destruct n as [|m|m]; cbn [binary_normalize Z.ltb Z.compare];
        [reflexivity | apply binary_round_sign | apply binary_round_sign].
    - reflexivity. }
  assert (Hbig : 128 <= n -> at_least 5 (SFmul prec emax (Z2SF n) y)).
  { intros H128. change 5 with (8 + (-2) - 1).
    apply SFmul_at_least; [lia| | cbn; lia | | discriminate].
    - unfold Z2SF. destruct n as [|m|m]; try lia. cbn [binary_normalize].
      apply binary_round_at_least. split; [lia|].
      pose proof (Zdigits2_mono (2 ^ 7) (Zpos m) ltac:(lia)) as Hd.
      rewrite Zdigits2_pow2 in Hd by lia. lia.
    - intros s Hinf. destruct (float_of_int_int64 n ltac:(lia)) as (_ & _ & Hfin).
      now rewrite Hinf in Hfin. }
  destruct (SFmul prec emax (Z2SF n) y) as [s|s| |s m e]; try contradiction.
  - exists (0, 0). cbn [fst snd].
    split; [reflexivity|]. split; [reflexivity|]. split; [lia|].
    intros H128. elim (Hbig H128).
  - cbn in Hsign. subst s.
    pose proof (Z.shiftl_nonneg (Zpos m) e) as Hnn.
    assert (Hneg : Z.shiftl (Zneg m) e <= 0).
    { destruct (Z_le_gt_dec 0 e).
      - rewrite Z.shiftl_mul_pow2 by lia.
        pose proof (Z.pow_nonneg 2 e ltac:(lia)). nia.
      - rewrite Z.shiftl_div_pow2 by lia.
        pose proof (Z.pow_pos_nonneg 2 (- e) ltac:(lia) ltac:(lia)).
        apply Z.div_le_upper_bound; lia. }
    destruct (n <? 0) eqn:Hlt.
    + exists (- Z.shiftl (Zpos m) e, Z.shiftl (Zneg m) e). cbn [fst snd cond_Zopp].
      apply Z.ltb_lt in Hlt.
      split; [reflexivity|]. split; [reflexivity|]. split; [lia|]. lia.
    + exists (Z.shiftl (Zpos m) e, Z.shiftl (Zpos m) e). cbn [fst snd cond_Zopp].
      apply Z.ltb_ge in Hlt.
      split; [reflexivity|]. split; [reflexivity|]. split; [lia|].
      intros H128. specialize (Hbig H128). cbn [at_least] in Hbig.
      pose proof (shiftl_at_least 5 m e ltac:(lia)) as H16.
      change (2 ^ (5 - 1)) with 16 in H16. lia.
Qed.

(** For every 64-bit count, the threshold computed in binary64 is the
    clamped integer quotient by 5, whether the product is truncated
    ([int]) or floored. *)
Lemma leaderboard_threshold_int64 (n : Z) :
  - 2 ^ 63 <= n < 2 ^ 63 ->
  leaderboard_threshold n = Ok (Z.min 15 (Z.max 5 (n / 5)))
  /\ (x <- float_of_int n ;; f <- floor_of_float (x * 0.20)%float ;;
      Ok (Z.min 15 (Z.max 5 f)))%py
     = Ok (Z.min 15 (Z.max 5 (n / 5))).
Proof.
  intros Hn.
  destruct (Z_lt_le_dec n 0) as [Hneg|Hpos];
    [|destruct (Z_lt_le_dec n 128) as [Hsmall|Hbig]].
  - destruct (product_parts n Hn) as ([t f] & Ht & Hf & Hlt & _).
    destruct (Hlt Hneg) as [H1 H2]. cbn [fst snd] in *.
    destruct (float_of_int_int64 n ltac:(lia)) as (Hx & _ & _).
    unfold leaderboard_threshold. rewrite Hx. cbn [rbind]. rewrite Ht, Hf. cbn [rbind].
    assert (Hq : n / 5 < 0) by (apply Z.div_lt_upper_bound; lia).
    split; f_equal; lia.
  - split; [apply threshold_small | apply floor_small]; lia.
  - destruct (product_parts n Hn) as ([t f] & Ht & Hf & _ & Hge).
    destruct (Hge Hbig) as [H1 H2]. cbn [fst snd] in *.
    destruct (float_of_int_int64 n ltac:(lia)) as (Hx & _ & _).
    unfold leaderboard_threshold. rewrite Hx. cbn [rbind]. rewrite Ht, Hf. cbn [rbind].
    assert (Hq : 25 <= n / 5) by (apply Z.div_le_lower_bound; lia).
    split; f_equal; lia.
Qed.

Lemma max_games_played_spec (p0 : Player) (rest : list Player) :
  (forall p, In p (p0 :: rest) -> games_played p <= max_games_played p0 rest)
  /\ (exists p, In p (p0 :: rest) /\ games_played p = max_games_played p0 rest).
Proof.
  unfold max_games_played. revert p0.
  induction rest as [|q rest IH]; intros p0; cbn [map fold_left].
  - split; [intros p [<-|[]]; lia | exists p0; split; [now left | reflexivity]].
  - destruct (Z.max_spec (games_played p0) (games_played q)) as [[Hlt Hmax]|[Hle Hmax]];
      rewrite Hmax.
    + destruct (IH q) as [Hall [p [Hin Heq]]]. split.
      * intros p' [<-|Hin']; [|now apply Hall].
        specialize (Hall q (or_introl eq_refl)). lia.
      * exists p. split; [now right | exact Heq].
    + destruct (IH (mkPlayer (p_id p0) (p_name p0) (rating p0) (games_played p0)
                             (p_created_at p0))) as [Hall [p [Hin Heq]]].
      cbn [games_played] in *. split.
      * intros p' [<-|[<-|Hin']].
        -- apply (Hall _ (or_introl eq_refl)).
        -- specialize (Hall _ (or_introl eq_refl)). cbn in Hall. lia.
        -- apply Hall. now right.
      * destruct Hin as [<-|Hin].
        -- exists p0. split; [now left | exact Heq].
        -- exists p. split; [now right; right | exact Heq].
Qed.

Lemma sort_by_rating_members (l rows : list RankedPlayer) :
  sort_by_rating l = Ok rows -> forall r, In r rows <-> In r l.
Proof.
  unfold sort_by_rating. destruct (_ && _); [discriminate|].
  intros H r. injection H as <-. apply in_sort_desc.
Qed.

Lemma sort_by_rating_total (l : list RankedPlayer) :
  (forall r, In r l -> PrimFloat.is_nan (rating (player r)) = false) ->
  exists rows, sort_by_rating l = Ok rows.
Proof.
  intros H. unfold sort_by_rating.
  assert (Hex : existsb (fun r => PrimFloat.is_nan (rating (player r))) l = false).
  { apply DatabaseFacts.existsb_false_iff. exact H. }
  rewrite Hex, andb_false_r. eexists. reflexivity.
Qed.

(** C6.  For a non-empty population with 64-bit game counts, the threshold
    [get_all_players] computes in binary64 is
    [min(15, max(5, floor(max_games / 5)))], with [max_games] the largest
    games_played; truncating the float product (as the code does) or
    flooring it (as the specification words it) gives the same value.
    The threshold lies in [5, 15], every returned row carries it together
    with [is_ranked = (games_played >= threshold)], and when [max_games] is 0
    the threshold is 5 and no row is ranked.  The call returns whenever no
    stored rating is NULL. *)
Theorem leaderboard_threshold_clamp :
  forall (s : Ledger) (p0 : Player) (rest : list Player),
    players s = p0 :: rest ->
    (forall p, In p (players s) -> - 2 ^ 63 <= games_played p < 2 ^ 63) ->
    let max_games := max_games_played p0 rest in
    let t := Z.min 15 (Z.max 5 (max_games / 5)) in
    (forall p, In p (players s) -> games_played p <= max_games)
    /\ (exists p, In p (players s) /\ games_played p = max_games)
    /\ leaderboard_threshold max_games = Ok t
    /\ (x <- float_of_int max_games ;; f <- floor_of_float (x * 0.20)%float ;;
        Ok (Z.min 15 (Z.max 5 f)))%py = Ok t
    /\ 5 <= t <= 15
    /\ (max_games = 0 -> t = 5)
    /\ (forall rows, get_all_players s = Ok rows ->
          forall r, In r rows <->
                    exists p, In p (players s)
                              /\ r = mkRankedPlayer p (t <=? games_played p) t)
    /\ (max_games = 0 ->
        forall rows r, get_all_players s = Ok rows -> In r rows -> is_ranked r = false)
    /\ ((forall p, In p (players s) -> PrimFloat.is_nan (rating p) = false) ->
        exists rows, get_all_players s = Ok rows).
Proof.
  intros s p0 rest Hps Hrange max_games t.
  destruct (max_games_played_spec p0 rest) as [Hmax [pm [Hpm Hpmeq]]].
  fold max_games in Hmax, Hpmeq. rewrite <- Hps in Hmax, Hpm.
  assert (Hmg : - 2 ^ 63 <= max_games < 2 ^ 63).
  { rewrite <- Hpmeq. now apply Hrange. }
  destruct (leaderboard_threshold_int64 max_games Hmg) as [Hthr Hfloor].
  fold t in Hthr, Hfloor.
  assert (Hrows : forall rows, get_all_players s = Ok rows ->
            forall r, In r rows <->
                      exists p, In p (players s)
                                /\ r = mkRankedPlayer p (t <=? games_played p) t).
  { intros rows Hget r. unfold get_all_players in Hget. rewrite Hps in Hget.
    fold max_games in Hget. rewrite Hthr in Hget. cbn [rbind] in Hget.
    rewrite <- Hps in Hget.
    set (all := map (fun p => mkRankedPlayer p (t <=? games_played p) t) (players s)) in *.
    destruct (sort_by_rating (filter is_ranked all)) as [ranked|e] eqn:Hr;
      cbn [rbind] in Hget; [|discriminate].
    destruct (sort_by_rating (filter (fun r => negb (is_ranked r)) all))
      as [prov|e] eqn:Hpv; cbn [rbind] in Hget; [|discriminate].
    injection Hget as <-. rewrite in_app_iff.
    rewrite (sort_by_rating_members _ _ Hr), (sort_by_rating_members _ _ Hpv).
    rewrite !filter_In.
    assert (Hall : In r all <-> exists p, In p (players s)
                      /\ r = mkRankedPlayer p (t <=? games_played p) t).
    { unfold all. rewrite in_map_iff. split; intros [p [H1 H2]]; exists p; now split. }
    rewrite <- Hall. destruct (is_ranked r); cbn; tauto. }
  split; [exact Hmax|]. split; [exists pm; now split|].
  split; [exact Hthr|]. split; [exact Hfloor|].
  split; [unfold t; lia|].
  split; [intros H0; unfold t; rewrite H0; reflexivity|].
  split; [exact Hrows|]. split.
  - intros H0 rows r Hget Hin. apply (Hrows rows Hget) in Hin.
    destruct Hin as [p [Hp ->]]. cbn [is_ranked]. apply Z.leb_gt.
    specialize (Hmax p Hp). unfold t. rewrite H0. cbn. lia.
  - intros Hnn. unfold get_all_players. rewrite Hps. fold max_games.
    rewrite Hthr. cbn [rbind]. rewrite <- Hps.
    set (all := map (fun p => mkRankedPlayer p (t <=? games_played p) t) (players s)).
    assert (Hall : forall r, In r all -> PrimFloat.is_nan (rating (player r)) = false).
    { intros r Hr. unfold all in Hr. apply in_map_iff in Hr.
      destruct Hr as [p [<- Hp]]. cbn. now apply Hnn. }
    destruct (sort_by_rating_total (filter is_ranked all)) as [ranked ->].
    { intros r Hr. apply filter_In in Hr. now apply Hall. }
    destruct (sort_by_rating_total (filter (fun r => negb (is_ranked r)) all)) as [prov ->].
    { intros r Hr. apply filter_In in Hr. now apply Hall. }
    cbn [rbind]. eexists. reflexivity.
Qed.

End Leaderboard.

(** ** The win rate *)

Module Stats.
Import Magnitude Binary64 Database FlaskApp.

Lemma prim_hundred : Prim2SF 100%float = S754_finite false 7036874417766400 (-46).
Proof. reflexivity. Qed.

(** The correctly rounded quotient of [0 <= w <= n] is a float in [0, 1]. *)
Lemma int_truediv_le_one (w n : Z) :
  0 <= w <= n -> 0 < n ->
  exists q, int_truediv w n = Ok q
            /\ finite_below (2 ^ 52) (-52) (Prim2SF q)
            /\ sign_is false (Prim2SF q).
Proof.
  intros Hw Hn. unfold int_truediv.
  assert (Hnz : (n =? 0) = false) by (apply Z.eqb_neq; lia). rewrite Hnz.
  set (r := SFdiv prec emax (exact_int w) (exact_int n)).
  assert (Hr : valid_binary r = true /\ finite_below (2 ^ 52) (-52) r /\ sign_is false r).
  { unfold r. destruct n as [|n|n]; try lia. destruct w as [|w|w]; try lia.
    - cbn. tauto.
    - cbn [exact_int]. destruct (SFdiv_le_one w n ltac:(lia)) as [Hv Hf].
      split; [exact Hv|]. split; [exact Hf | apply SFdiv_le_one_sign]. }
  destruct Hr as (Hv & Hf & Hs).
  destruct (finite_not_infinity _ _ r Hv Hf) as [Hp Hinf].
  rewrite Hinf. exists (SF2Prim r). rewrite Hp. now repeat split.
Qed.

Lemma wins_le_total (history : list HistoryRow) :
  0 <= wins history <= total_games history.
Proof.
  unfold wins, total_games. split; [lia|]. apply Nat2Z.inj_le.
  induction history as [|m history IH]; cbn; [lia|].
  destruct (h_is_winner m =? 1); cbn; lia.
Qed.

(** C9.  [total_games] is the length of the history and [wins] the number
    of its rows with is_winner = 1.  The win rate of an empty history is
    the integer 0.  Of a non-empty one it is the float
    [wins / total_games * 100] of these two counts, where the quotient of
    the two integers is correctly rounded and the product is the binary64
    one; the quotient lies between 0.0 and 1.0 and the win rate between 0.0
    and 100.0. *)
Theorem win_rate_range :
  forall (history : list HistoryRow),
    total_games history = Z.of_nat (List.length history)
    /\ wins history
       = Z.of_nat (List.length (filter (fun m => h_is_winner m =? 1) history))
    /\ (history = [] -> win_rate history = Ok (PyInt 0))
    /\ (history <> [] ->
        exists q,
          int_truediv
            (Z.of_nat (List.length (filter (fun m => h_is_winner m =? 1) history)))
            (Z.of_nat (List.length history)) = Ok q
          /\ win_rate history = Ok (PyFloat (q * 100)%float)
          /\ (0 <=? q)%float = true /\ (q <=? 1)%float = true
          /\ (0 <=? q * 100)%float = true
          /\ (q * 100 <=? 100)%float = true).
Proof.
  intros history. split; [reflexivity|]. split; [reflexivity|]. split.
  - intros ->. reflexivity.
  - intros Hne.
    assert (Htot : 0 < total_games history).
    { unfold total_games. destruct history; [contradiction | cbn; lia]. }
    destruct (int_truediv_le_one (wins history) (total_games history)
                (wins_le_total history) Htot) as (q & Hq & Hf & Hs).
    exists q. split; [exact Hq|]. split; [|split; [|split]].
    + unfold win_rate. apply Z.ltb_lt in Htot. rewrite Htot.
      fold (wins history). fold (total_games history). rewrite Hq. reflexivity.
    + rewrite leb_spec. change (Prim2SF 0%float) with (S754_zero false).
      now apply (SFleb_zero_nonneg _ (2 ^ 52) (-52)).
    + rewrite leb_spec.
      change (Prim2SF 1%float) with (S754_finite false 4503599627370496 (-52)).
      now apply SFleb_below.
    + assert (Hprod : finite_below 7036874417766400 (-46)
                        (SFmul prec emax (Prim2SF q)
                               (S754_finite false 7036874417766400 (-46)))).
      { apply (SFmul_below (2 ^ 52) (-52) 7036874417766400 (-46)
                           7036874417766400 (-46) 52);
          try (unfold prec, emax; lia); try exact Hf.
        cbn. split; lia. }
      assert (Hsign : sign_is false
                        (SFmul prec emax (Prim2SF q)
                               (S754_finite false 7036874417766400 (-46)))).
      { change false with (xorb false false) at 1.
        apply (SFmul_sign _ _ (2 ^ 52) (-52) 7036874417766400 (-46));
          [exact Hf | cbn; split; lia | exact Hs | reflexivity]. }
      rewrite !leb_spec, mul_spec, prim_hundred.
      change (Prim2SF 0%float) with (S754_zero false).
      split; [now apply (SFleb_zero_nonneg _ 7036874417766400 (-46))|].
      now apply SFleb_below.
Qed.

End Stats.

(** ** Symmetry of the expected score *)

Module Symmetry.
Import Magnitude Binary64.

(** A finite float minus itself is +0.0. *)
Lemma sub_self (a : float) :
  PrimFloat.is_nan a = false -> PrimFloat.is_infinity a = false ->
  (a - a)%float = 0%float.
Proof.
  intros Hnan Hinf. apply Prim2SF_inj. rewrite sub_spec.
  rewrite is_nan_spec in Hnan. rewrite is_infinity_spec in Hinf.
  change (Prim2SF 0%float) with (S754_zero false).
  destruct (Prim2SF a) as [s|s| |s m e]; cbn in Hnan, Hinf; try discriminate.
  - now destruct s.
  - unfold SF64sub. cbn [SFsub]. now rewrite Z.sub_diag.
Qed.

Section Engine.
Variable libm_pow10 : float -> float.
Hypothesis pow10_zero : libm_pow10 0%float = 1%float.

Lemma expected_score_equal (a : float) :
  PrimFloat.is_nan a = false -> PrimFloat.is_infinity a = false ->
  Elo.expected_score libm_pow10 a a = Ok 0.5%float.
Proof.
  intros Hnan Hinf. unfold Elo.expected_score. rewrite (sub_self a Hnan Hinf).
  change (0 / 400)%float with 0%float.
  unfold Elo.math_pow10. change (PrimFloat.is_nan 0) with false.
  change (PrimFloat.is_infinity 0) with false. cbn match. rewrite pow10_zero.
  reflexivity.
Qed.

(** Ratings 1200 apart: the exponents are 3.0 and -3.0.  Whatever a C
    library accurate to less than one unit in the last place returns for
    them (1000.0 exactly, and one of the two floats around 0.001), the two
    scores add up to 1.0000000000000002. *)
Lemma expected_score_sum_1200_apart :
  libm_pow10 3%float = 1000%float ->
  libm_pow10 (-3)%float = 0x1.0624dd2f1a9fbp-10%float
  \/ libm_pow10 (-3)%float = 0x1.0624dd2f1a9fcp-10%float ->
  (x <- Elo.expected_score libm_pow10 1000 2200 ;;
   y <- Elo.expected_score libm_pow10 2200 1000 ;;
   Ok (x + y)%float)%py
  = Ok 1.0000000000000002%float.
Proof.
  intros H3 Hm3. unfold Elo.expected_score.
  change ((2200 - 1000) / 400)%float with 3%float.
  change ((1000 - 2200) / 400)%float with (-3)%float.
  unfold Elo.math_pow10.
  change (PrimFloat.is_nan 3) with false. change (PrimFloat.is_infinity 3) with false.
  change (PrimFloat.is_nan (-3)) with false.
  change (PrimFloat.is_infinity (-3)) with false.
  cbn match. rewrite H3. destruct Hm3 as [-> | ->]; reflexivity.
Qed.
End Engine.

End Symmetry.

(** ** The rows a recorded match stores *)

Module Rows.
Import Database Spec Storage Recording FlaskApp.

Lemma losers_update_data_sound :
  forall (losers : list Player) (i : nat) (deltas_l : list float) (data : list LoserData),
    losers_update_data losers i deltas_l = Ok data ->
    Forall (fun l => l_new_rating l = (l_old_rating l + l_delta l)%float) data.
Proof.
  induction losers as [|l losers IH]; intros i dls data H; cbn in H.
  - injection H as <-. constructor.
  - destruct (nth_error dls i) as [d|]; [|discriminate].
    destruct (losers_update_data losers (S i) dls) as [more|e] eqn:Hmore;
      cbn in H; [|discriminate].
    injection H as <-. constructor; [reflexivity|]. exact (IH _ _ _ Hmore).
Qed.

(** C7 (amended).  A committed [record_match] appends exactly one winner
    row and one row per loser, in order, holding the values it was passed
    as REAL columns hold them (a -0.0 is stored as +0.0, anything else
    as it is): the winner row has the new rating, the delta and, as
    rating_before, the binary64 difference of the two, which is also the
    binary64 difference rating_after - rating_delta of the stored values; a
    loser row has the caller's old_rating, new_rating and delta.  When the
    call comes from [create_match], every loser row has rating_after =
    rating_before + rating_delta as a binary64 addition of the stored
    values. *)
Theorem recorded_rows :
  (forall (uuid : nat -> string) (now : float) (date winner : string)
          (loser_ids : list string) (wd wnew : float) (ld : list LoserData)
          (s s1 : Ledger) (mid : string),
      record_match uuid now date winner loser_ids wd wnew ld s = (Ok mid, s1) ->
      participations s1
      = participations s
          ++ mkParticipation (uuid 1%nat) mid winner 1
               (real_column (wnew - wd)%float) (real_column wnew) (real_column wd)
          :: map (fun il => mkParticipation (uuid (fst il)) mid (l_id (snd il)) 0
                              (real_column (l_old_rating (snd il)))
                              (real_column (l_new_rating (snd il)))
                              (real_column (l_delta (snd il))))
                 (enumerate 2 ld)
      /\ real_column (wnew - wd)%float = (real_column wnew - real_column wd)%float)
  /\ (forall (libm_pow10 : float -> float) (uuid : nat -> string) (now : float)
             (winner : string) (loser_ids : list string) (date : string)
             (s s1 : Ledger) (mid : string) (delta_w : float) (deltas_l : list float),
         create_match libm_pow10 uuid now winner loser_ids date s
         = (MatchCreated mid delta_w deltas_l, s1) ->
         exists rows,
           participations s1 = participations s ++ rows
           /\ List.length rows = S (List.length loser_ids)
           /\ Forall (fun pa =>
                        match_id pa = mid
                        /\ (is_winner pa = 1 ->
                            rating_before pa = (rating_after pa - rating_delta pa)%float)
                        /\ (is_winner pa = 0 ->
                            rating_after pa = (rating_before pa + rating_delta pa)%float))
                     rows).
Proof.
  assert (Hrec : forall uuid now date winner loser_ids wd wnew ld s s1 mid,
             record_match uuid now date winner loser_ids wd wnew ld s = (Ok mid, s1) ->
             participations s1
             = participations s
                 ++ winner_row uuid mid winner wd wnew
                 :: map (loser_row uuid mid) (enumerate 2 ld)).
  { intros uuid now date winner loser_ids wd wnew ld s s1 mid H.
    unfold record_match, transaction in H.
    destruct (record_match_body uuid now date winner loser_ids wd wnew ld
                (uuid 0%nat) (get_k_factor s) s) as [[r s']|e] eqn:Hbody;
      [|discriminate].
    injection H as -> ->. apply record_match_body_ok in Hbody.
    destruct Hbody as (-> & _ & _ & _ & _ & Hpa & _). exact Hpa. }
  split.
  { intros uuid now date winner loser_ids wd wnew ld s s1 mid H.
    split; [exact (Hrec _ _ _ _ _ _ _ _ _ _ _ H) | apply real_column_sub]. }
  intros libm uuid now winner loser_ids date s s1 mid delta_w deltas_l H.
  unfold create_match in H.
  destruct (String.eqb winner "" || _ || String.eqb date ""); [discriminate|].
  destruct (create_match_try libm uuid now winner loser_ids date s)
    as [[resp|e] s'] eqn:Htry; [|discriminate].
  injection H as -> ->. unfold create_match_try in Htry.
  destruct (get_player winner s) as [w|]; [|discriminate].
  destruct (lookup_losers loser_ids s) as [losers|] eqn:Hlook; [|discriminate].
  destruct (existsb PrimFloat.is_nan _); [discriminate|].
  destruct (Elo.calculate_deltas libm (rating w) (map rating losers) (get_k_factor s))
    as [[dw dls]|e]; [|discriminate].
  destruct (losers_update_data losers 0 dls) as [data|e] eqn:Hdata; [|discriminate].
  destruct (record_match uuid now date winner loser_ids dw (rating w + dw)%float data s)
    as [[mid'|e] s''] eqn:Hr; [|discriminate].
  injection Htry as <- <- <- <-.
  eexists. split; [exact (Hrec _ _ _ _ _ _ _ _ _ _ _ Hr)|].
  assert (Hlen : List.length data = List.length loser_ids).
  { clear - Hlook Hdata.
    assert (H1 : List.length losers = List.length loser_ids).
    { clear Hdata. revert losers Hlook. induction loser_ids as [|lid lids IH]; intros losers H; cbn in H.
      - now injection H as <-.
      - destruct (get_player lid s); [|discriminate].
        destruct (lookup_losers lids s) as [ls|]; [|discriminate].
        injection H as <-. cbn. f_equal. now apply IH. }
    rewrite <- H1. clear H1 Hlook. revert data Hdata. generalize 0%nat.
    induction losers as [|l losers IH]; intros i data H; cbn in H.
    - now injection H as <-.
    - destruct (nth_error dls i); [|discriminate].
      destruct (losers_update_data losers (S i) dls) as [more|] eqn:Hm; cbn in H;
        [|discriminate].
      injection H as <-. cbn. f_equal. exact (IH _ _ Hm). }
  split.
  - cbn [List.length]. rewrite length_map. f_equal. rewrite <- Hlen.
    clear. generalize 2%nat. induction data as [|l data IH]; intros i; cbn;
      [reflexivity | now rewrite IH].
  - constructor.
    + cbn. repeat split; [intros _; apply real_column_sub | discriminate].
    + apply losers_update_data_sound in Hdata. clear - Hdata.
      generalize 2%nat. induction Hdata as [|l data Hl _ IH]; intros i; cbn; constructor.
      * cbn. repeat split; [discriminate | intros _].
        rewrite Hl. apply real_column_add.
      * apply IH.
Qed.

End Rows.

(** ** Sorting *)

Module Ordering.

Section Sorting.
Context {A K : Type} (key : A -> K) (lt : K -> K -> bool).

Lemma insert_desc_perm (x : A) (l : list A) :
  Permutation (x :: l) (insert_desc key lt x l).
Proof.
  induction l as [|y l IH]; cbn; [reflexivity|].
  destruct (lt (key x) (key y)); [|reflexivity].
  rewrite perm_swap. now apply perm_skip.
Qed.

Lemma sort_desc_perm (l : list A) : Permutation l (sort_desc key lt l).
Proof.
  induction l as [|x l IH]; cbn; [reflexivity|].
  rewrite <- insert_desc_perm. now apply perm_skip.
Qed.

Hypothesis lt_asym : forall a b, lt a b = true -> lt b a = false.

Lemma insert_desc_sorted (x : A) (l : list A) :
  Sorted (fun a b => lt (key a) (key b) = false) l -> Sorted (fun a b => lt (key a) (key b) = false) (insert_desc key lt x l).
Proof.
  induction l as [|y l IH]; intros Hs; cbn.
  - repeat constructor.
  - destruct (lt (key x) (key y)) eqn:E.
    + apply Sorted_inv in Hs. destruct Hs as [Hs Hhd]. constructor; [now apply IH|].
      destruct l as [|z l]; cbn.
      * constructor. now apply lt_asym.
      * destruct (lt (key x) (key z)).
        -- constructor. now apply HdRel_inv in Hhd.
        -- constructor. now apply lt_asym.
    + constructor; [exact Hs|]. constructor. exact E.
Qed.

Lemma sort_desc_sorted (l : list A) : Sorted (fun a b => lt (key a) (key b) = false) (sort_desc key lt l).
Proof.
  induction l as [|x l IH]; cbn; [constructor | now apply insert_desc_sorted].
Qed.
End Sorting.

Lemma string_ltb_asym (a b : string) : String.ltb a b = true -> String.ltb b a = false.
Proof.
  unfold String.ltb. rewrite (String.compare_antisym b a).
  now destruct (String.compare a b).
Qed.

Lemma SFcompare_antisym (x y : spec_float) :
  SFcompare y x = option_map CompOpp (SFcompare x y).
Proof.
  destruct x as [sx|sx| |sx mx ex], y as [sy|sy| |sy my ey]; cbn;
    try reflexivity; try (now destruct sx); try (now destruct sy);
    try (now destruct sx, sy).
  destruct sx, sy; try reflexivity; rewrite (Z.compare_antisym ey ex);
    destruct (ey ?= ex)%Z eqn:E; cbn; try reflexivity;
    fold (Pos.compare my mx); fold (Pos.compare mx my);
    rewrite (Pos.compare_antisym my mx); now destruct (Pos.compare my mx).
Qed.

Lemma float_ltb_asym (a b : float) : (a <? b)%float = true -> (b <? a)%float = false.
Proof.
  rewrite !ltb_spec. unfold SFltb. rewrite (SFcompare_antisym (Prim2SF a) (Prim2SF b)).
  now destruct (SFcompare (Prim2SF a) (Prim2SF b)) as [[| |]|].
Qed.

(** Two floats that are not NaN are comparable. *)
Lemma float_not_ltb (a b : float) :
  PrimFloat.is_nan a = false -> PrimFloat.is_nan b = false ->
  (a <? b)%float = false -> (b <=? a)%float = true.
Proof.
  rewrite !Binary64.is_nan_spec, ltb_spec, leb_spec. unfold SFltb, SFleb.
  rewrite (SFcompare_antisym (Prim2SF a) (Prim2SF b)).
  destruct (Prim2SF a) as [sx|sx| |sx mx ex], (Prim2SF b) as [sy|sy| |sy my ey];
    cbn [is_nan]; try discriminate; intros _ _;
    destruct (SFcompare _ _) as [[| |]|] eqn:E; cbn; try reflexivity;
    try discriminate; cbn in E; try discriminate; try (destruct sx; discriminate);
    try (destruct sy; discriminate); try (destruct sx, sy; discriminate).
Qed.

End Ordering.

(** ** When a match can be recorded *)

Module Commit.
Import Database Spec DatabaseFacts Recording Consistency.

Lemma existsb_in_map {A} (f : A -> string) (x : string) (l : list A) :
  existsb (fun a => String.eqb (f a) x) l = false <-> ~ In x (map f l).
Proof.
  rewrite existsb_false_iff. split.
  - intros H Hin. apply in_map_iff in Hin. destruct Hin as [a [<- Ha]].
    specialize (H a Ha). now rewrite String.eqb_refl in H.
  - intros H a Ha. apply String.eqb_neq. intros <-. apply H. now apply in_map.
Qed.

Lemma insert_participation_cases (pa : Participation) (s : Ledger) :
  (acceptable pa s
   /\ insert_participation pa s
      = Ok (tt, set_participations s (participations s ++ [stored_row pa])))
  \/ (~ acceptable pa s /\ insert_participation pa s = Raise IntegrityError).
Proof.
  unfold insert_participation, acceptable.
  destruct (existsb (fun q => String.eqb (pa_id q) (pa_id pa)) (participations s)) eqn:Eid.
  { right. split; [|reflexivity]. intros [H _]. apply existsb_in_map in H. congruence. }
  apply existsb_in_map in Eid.
  destruct (not_null (rating_before pa)); cbn;
    [|right; split; [intros (_ & H & _); discriminate | reflexivity]].
  destruct (not_null (rating_after pa)); cbn;
    [|right; split; [intros (_ & _ & H & _); discriminate | reflexivity]].
  destruct (not_null (rating_delta pa)); cbn;
    [|right; split; [intros (_ & _ & _ & H & _); discriminate | reflexivity]].
  destruct (has_match (match_id pa) s); cbn;
    [|right; split; [intros (_ & _ & _ & _ & H & _); discriminate | reflexivity]].
  destruct (has_player (player_id pa) s); cbn;
    [|right; split; [intros (_ & _ & _ & _ & _ & H); discriminate | reflexivity]].
  left. now repeat split.
Qed.

Lemma has_player_after_row (x : string) (r : float) (pid : string) (pa : Participation)
    (s : Ledger) :
  has_player x (after_row r pid pa s) = has_player x s.
Proof. unfold has_player, after_row. cbn [players]. apply existsb_id_apply. Qed.

Lemma update_then_insert (r : float) (pid : string) (pa : Participation) (s : Ledger) :
  player_id pa = pid ->
  (acceptable pa s
   /\ (update_player_rating r pid ;; insert_participation pa)%sql s
      = Ok (tt, after_row r pid pa s))
  \/ (~ acceptable pa s
      /\ (update_player_rating r pid ;; insert_participation pa)%sql s
         = Raise IntegrityError).
Proof.
  intros Hpid. unfold bind, update_player_rating.
  set (su := set_players s (map (apply_rating r pid) (players s))).
  assert (Hacc : acceptable pa su <-> acceptable pa s).
  { unfold acceptable, su, has_match, has_player. cbn [participations matches players set_players].
    rewrite existsb_id_apply. tauto. }
  destruct (insert_participation_cases pa su) as [[Ha ->]|[Hn ->]].
  - left. split; [now apply Hacc | reflexivity].
  - right. split; [|reflexivity]. intros Ha. apply Hn. now apply Hacc.
Qed.

Lemma bind_ok {A B} (c : sql A) (k : A -> sql B) (s s' : Ledger) (a : A) :
  c s = Ok (a, s') -> bind c k s = k a s'.
Proof. intros H. unfold bind. now rewrite H. Qed.

Lemma bind_raise {A B} (c : sql A) (k : A -> sql B) (s : Ledger) (e : pyexn) :
  c s = Raise e -> bind c k s = Raise e.
Proof. intros H. unfold bind. now rewrite H. Qed.

Lemma fresh_keys_step (uuid : nat -> string) (i n : nat) (s s1 : Ledger) :
  map pa_id (participations s1) = map pa_id (participations s) ++ [uuid i] ->
  fresh_keys uuid i (S n) s
  <-> ~ In (uuid i) (map pa_id (participations s)) /\ fresh_keys uuid (S i) n s1.
Proof.
  intros Hids. unfold fresh_keys. rewrite Hids. cbn [seq map]. rewrite NoDup_cons_iff.
  split.
  - intros [[Hni Hnd] Hall]. split; [apply Hall; now left|]. split; [exact Hnd|].
    intros j Hj Hin. apply in_app_or in Hin. destruct Hin as [Hin|[Heq|[]]].
    + apply (Hall j); [now right | exact Hin].
    + apply Hni. rewrite Heq. now apply in_map.
  - intros [Hfresh [Hnd Hall]]. split; [split; [|exact Hnd]|].
    + intros Hin. apply in_map_iff in Hin. destruct Hin as [j [Hj Hin]].
      apply (Hall j Hin). apply in_or_app. right. left. now symmetry.
    + intros j [<-|Hj]; [exact Hfresh|]. intros Hin. apply (Hall j Hj).
      apply in_or_app. now left.
Qed.

Lemma loser_ok_after_row (r : float) (pid : string) (pa : Participation) (s : Ledger)
    (ld : list LoserData) :
  Forall (loser_ok (after_row r pid pa s)) ld <-> Forall (loser_ok s) ld.
Proof.
  rewrite !Forall_forall. unfold loser_ok.
  split; intros H x Hx; specialize (H x Hx);
    [rewrite has_player_after_row in H | rewrite has_player_after_row]; exact H.
Qed.

Lemma losers_loop_cases (uuid : nat -> string) (mid : string) :
  forall (ld : list LoserData) (i : nat) (s : Ledger),
    has_match mid s = true ->
    let loop :=
      for_each (enumerate i ld)
        (fun il =>
           (update_player_rating (l_new_rating (snd il)) (l_id (snd il)) ;;
            insert_participation
              (mkParticipation (uuid (fst il)) mid (l_id (snd il)) 0
                 (l_old_rating (snd il)) (l_new_rating (snd il)) (l_delta (snd il))))%sql) in
    let ok := Forall (loser_ok s) ld /\ fresh_keys uuid i (List.length ld) s in
    (ok /\ exists s', loop s = Ok (tt, s')) \/ (~ ok /\ loop s = Raise IntegrityError).
Proof.
  induction ld as [|l ld IH]; intros i s Hmid; cbn zeta.
  - left. split; [|eexists; reflexivity]. split; [constructor|]. split; [constructor|].
    intros j [].
  - cbn [enumerate for_each fst snd List.length].
    set (pa := mkParticipation (uuid i) mid (l_id l) 0 (l_old_rating l) (l_new_rating l)
                               (l_delta l)).
    destruct (update_then_insert (l_new_rating l) (l_id l) pa s eq_refl) as [[Ha He]|[Hn He]];
      [rewrite (bind_ok _ _ _ _ _ He) | rewrite (bind_raise _ _ _ _ He)].
    + set (s1 := after_row (l_new_rating l) (l_id l) pa s).
      assert (Hmid1 : has_match mid s1 = true) by exact Hmid.
      pose proof (fresh_keys_step uuid i (List.length ld) s s1) as Hfr.
      unfold s1 at 1, after_row in Hfr. cbn [participations] in Hfr.
      rewrite map_app in Hfr. specialize (Hfr eq_refl).
      pose proof (loser_ok_after_row (l_new_rating l) (l_id l) pa s ld) as Hok1.
      fold s1 in Hok1.
      destruct Ha as (Hfresh & Hb & Hc & Hd & _ & Hp). cbn [pa pa_id rating_before
        rating_after rating_delta player_id] in Hfresh, Hb, Hc, Hd, Hp.
      destruct (IH (S i) s1 Hmid1) as [[[H1 H2] Hex]|[Hno Hr]].
      * left. split; [|exact Hex]. split.
        -- constructor; [now repeat split | now apply Hok1].
        -- apply Hfr. now split.
      * right. split; [|exact Hr]. intros [Hall Hfk]. apply Hno.
        apply Forall_inv_tail in Hall. split; [now apply Hok1|]. now apply Hfr.
    + right. split; [|reflexivity]. intros [Hall [Hnd Hfk]]. apply Hn.
      apply Forall_inv in Hall. destruct Hall as (Hp & Hb & Hc & Hd).
      unfold acceptable. cbn [pa pa_id rating_before rating_after rating_delta match_id
        player_id]. repeat split; try assumption. apply Hfk. now left.
Qed.

Lemma insert_match_cases (m : Match) (s : Ledger) :
  let ok := has_match (m_id m) s = false /\ not_null (k_factor_used m) = true
            /\ has_player (winner_id m) s = true in
  (ok /\ insert_match m s
         = Ok (tt, set_matches s
                     (matches s ++ [mkMatch (m_id m) (m_date m) (real_column (k_factor_used m))
                                            (winner_id m) (real_column (m_created_at m))])))
  \/ (~ ok /\ insert_match m s = Raise IntegrityError).
Proof.
  cbn zeta. unfold insert_match.
  destruct (has_match (m_id m) s);
    [right; split; [intros [H _]; discriminate | reflexivity]|].
  destruct (not_null (k_factor_used m)); cbn [negb];
    [|right; split; [intros (_ & H & _); discriminate | reflexivity]].
  destruct (has_player (winner_id m) s); cbn [negb];
    [|right; split; [intros (_ & _ & H); discriminate | reflexivity]].
  left. now repeat split.
Qed.

Lemma record_match_body_cases :
  forall (uuid : nat -> string) (now : float) (date winner : string)
         (loser_ids : list string) (wd wnew : float) (ld : list LoserData) (s : Ledger),
    let body := record_match_body uuid now date winner loser_ids wd wnew ld
                  (uuid 0%nat) (get_k_factor s) in
    (recordable uuid winner wd wnew ld s /\ exists s', body s = Ok (uuid 0%nat, s'))
    \/ (~ recordable uuid winner wd wnew ld s /\ body s = Raise IntegrityError).
Proof.
  intros uuid now date winner loser_ids wd wnew ld s. cbn zeta.
  unfold record_match_body, recordable.
  set (m := mkMatch (uuid 0%nat) date (get_k_factor s) winner now).
  destruct (insert_match_cases m s) as [[(Hfresh & Hk & Hw) He]|[Hn He]];
    [rewrite (bind_ok _ _ _ _ _ He) | rewrite (bind_raise _ _ _ _ He)].
  2:{ right. split; [|reflexivity]. intros (H1 & H2 & H3 & _). apply Hn. now repeat split. }
  cbn [m m_id m_date k_factor_used winner_id m_created_at] in Hfresh, Hk, Hw |- *.
  set (sm := set_matches s (matches s ++ [mkMatch (uuid 0%nat) date
                                            (real_column (get_k_factor s)) winner
                                            (real_column now)])).
  set (pa := mkParticipation (uuid 1%nat) (uuid 0%nat) winner 1 (wnew - wd)%float wnew wd).
  assert (Hup : update_player_rating wnew winner sm
                = Ok (tt, set_players sm (map (apply_rating wnew winner) (players sm))))
    by reflexivity.
  rewrite (bind_ok _ _ _ _ _ Hup).
  set (su := set_players sm (map (apply_rating wnew winner) (players sm))).
  assert (Hmid : has_match (uuid 0%nat) su = true).
  { unfold has_match, su, sm. cbn [matches set_players set_matches].
    rewrite existsb_app. cbn. rewrite String.eqb_refl. now rewrite orb_true_r. }
  assert (Hacc : acceptable pa su
                 <-> ~ In (uuid 1%nat) (map pa_id (participations s))
                     /\ not_null (wnew - wd)%float = true /\ not_null wnew = true
                     /\ not_null wd = true).
  { unfold acceptable. cbn [pa pa_id rating_before rating_after rating_delta match_id
      player_id]. rewrite Hmid.
    assert (Hp : has_player winner su = true).
    { unfold has_player, su, sm. cbn [players set_players set_matches].
      now rewrite existsb_id_apply. }
    rewrite Hp. change (participations su) with (participations s). tauto. }
  destruct (insert_participation_cases pa su) as [[Ha He2]|[Hna He2]];
    [rewrite (bind_ok _ _ _ _ _ He2) | rewrite (bind_raise _ _ _ _ He2)].
  2:{ right. split; [|reflexivity]. intros (_ & _ & _ & H4 & H5 & H6 & _ & Hfk).
      apply Hna. apply Hacc. repeat split; try assumption. apply Hfk. now left. }
  apply Hacc in Ha. destruct Ha as (Hid & Hb & Hc & Hd).
  set (s2 := set_participations su (participations su ++ [stored_row pa])).
  assert (Hs2 : s2 = after_row wnew winner pa sm) by reflexivity.
  assert (Hmid2 : has_match (uuid 0%nat) s2 = true) by exact Hmid.
  pose proof (fresh_keys_step uuid 1 (List.length ld) s s2) as Hfr.
  unfold s2 at 1 in Hfr. cbn [participations set_participations] in Hfr.
  rewrite map_app in Hfr. specialize (Hfr eq_refl).
  assert (Hok : Forall (loser_ok s2) ld <-> Forall (loser_ok s) ld).
  { rewrite Hs2, loser_ok_after_row. unfold loser_ok, has_player, sm.
    cbn [players set_matches]. tauto. }
  destruct (losers_loop_cases uuid (uuid 0%nat) ld 2 s2 Hmid2) as [[[H1 H2] [s' Hex]]|[Hno Hr]];
    [rewrite (bind_ok _ _ _ _ _ Hex) | rewrite (bind_raise _ _ _ _ Hr)].
  - left. split; [|eexists; reflexivity].
    repeat split; try assumption; [now apply Hok | apply Hfr; now split | apply Hfr; now split].
  - right. split; [|reflexivity]. intros (_ & _ & _ & _ & _ & _ & Hall & Hfk).
    apply Hno. split; [now apply Hok | now apply Hfr].
Qed.

End Commit.

(** ** The operations one by one *)

Module Operations.
Import Database Spec Storage DatabaseFacts Deletion Recording Reversal Invariant Consistency
       Commit.

Lemma find_id_app (pid : string) (l1 l2 : list Player) :
  find (fun p => String.eqb (p_id p) pid) (l1 ++ l2)
  = match find (fun p => String.eqb (p_id p) pid) l1 with
    | Some p => Some p
    | None => find (fun p => String.eqb (p_id p) pid) l2
    end.
Proof.
  induction l1 as [|q l1 IH]; cbn; [reflexivity|].
  now destruct (String.eqb (p_id q) pid).
Qed.

Lemma find_id_absent (pid : string) (l : list Player) :
  (forall p, In p l -> p_id p <> pid) -> find (fun p => String.eqb (p_id p) pid) l = None.
Proof.
  intros H. induction l as [|q l IH]; cbn; [reflexivity|].
  assert (Hq : String.eqb (p_id q) pid = false).
  { apply String.eqb_neq. apply H. now left. }
  rewrite Hq. apply IH. intros p Hp. apply H. now right.
Qed.

Lemma find_id_filter (pid other : string) (l : list Player) :
  other <> pid ->
  find (fun p => String.eqb (p_id p) other)
       (filter (fun p => negb (String.eqb (p_id p) pid)) l)
  = find (fun p => String.eqb (p_id p) other) l.
Proof.
  intros Hne. induction l as [|q l IH]; cbn; [reflexivity|].
  destruct (String.eqb (p_id q) pid) eqn:E; cbn.
  - apply String.eqb_eq in E.
    assert (Hq : String.eqb (p_id q) other = false).
    { apply String.eqb_neq. congruence. }
    now rewrite Hq.
  - now destruct (String.eqb (p_id q) other).
Qed.

Lemma flat_map_none {A B} (f : A -> list B) (l : list A) :
  (forall x, In x l -> f x = []) -> flat_map f l = [].
Proof.
  intros H. induction l as [|x l IH]; cbn; [reflexivity|].
  rewrite (H x (or_introl eq_refl)). apply IH. intros y Hy. apply H. now right.
Qed.

Lemma create_player_cases :
  forall (new_id : string) (now : float) (name : string) (s : Ledger),
    ((exists p, In p (players s) /\ (p_id p = new_id \/ p_name p = name))
     /\ create_player new_id now name s
        = (Raise (ValueError "Player name already exists"), s))
    \/ ((forall p, In p (players s) -> p_id p <> new_id /\ p_name p <> name)
        /\ create_player new_id now name s
           = (Ok new_id,
              mkLedger (players s ++ [mkPlayer new_id name 1200%float 0 (real_column now)])
                       (matches s) (participations s) (k_factor_row s))).
Proof.
  intros new_id now name s. unfold create_player, insert_player.
  destruct (existsb (fun p => String.eqb (p_id p) new_id || String.eqb (p_name p) name)
                    (players s)) eqn:E.
  - left. split; [|reflexivity]. apply existsb_exists in E. destruct E as [p [Hp H]].
    exists p. split; [exact Hp|]. apply orb_true_iff in H.
    destruct H as [H|H]; apply String.eqb_eq in H; tauto.
  - right. split; [|reflexivity]. intros p Hp.
    pose proof (proj1 (existsb_false_iff _ _) E p Hp) as H. cbn in H.
    apply orb_false_iff in H. destruct H as [H1 H2].
    apply String.eqb_neq in H1, H2. now split.
Qed.

(** X1.  [create_player] fails exactly when the drawn id or the name is
    already stored, with ValueError "Player name already exists" and the
    ledger as it was; that is its only failure.  Otherwise it returns the
    id and appends one row rated 1200.0 with no game played, created at the
    clock reading as the REAL column holds it. *)
Theorem create_player_outcome :
  forall (new_id : string) (now : float) (name : string) (s : Ledger),
    (fst (create_player new_id now name s) = Raise (ValueError "Player name already exists")
     <-> exists p, In p (players s) /\ (p_id p = new_id \/ p_name p = name))
    /\ (forall e, fst (create_player new_id now name s) = Raise e ->
                  e = ValueError "Player name already exists"
                  /\ snd (create_player new_id now name s) = s)
    /\ (forall r, fst (create_player new_id now name s) = Ok r ->
                  r = new_id
                  /\ snd (create_player new_id now name s)
                     = mkLedger (players s
                                   ++ [mkPlayer new_id name 1200%float 0 (real_column now)])
                                (matches s) (participations s) (k_factor_row s)).
Proof.
  intros new_id now name s.
  destruct (create_player_cases new_id now name s) as [[Hex ->]|[Hfresh ->]];
    cbn [fst snd].
  - split; [tauto|]. split; [|discriminate]. intros e H. injection H as <-. now split.
  - split; [|split; [discriminate|]].
    + split; [discriminate|]. intros [p [Hp Hdup]]. destruct (Hfresh p Hp). tauto.
    + intros r H. injection H as <-. now split.
Qed.

(** X2.  After a successful [create_player] the new id looks up the new
    row, every other lookup answers as before, and nothing else in the
    ledger has changed. *)
Theorem create_player_lookup :
  forall (new_id : string) (now : float) (name : string) (s s' : Ledger) (r : string),
    create_player new_id now name s = (Ok r, s') ->
    r = new_id
    /\ get_player new_id s' = Some (mkPlayer new_id name 1200%float 0 (real_column now))
    /\ (forall pid, pid <> new_id -> get_player pid s' = get_player pid s)
    /\ matches s' = matches s /\ participations s' = participations s
    /\ k_factor_row s' = k_factor_row s.
Proof.
  intros new_id now name s s' r H.
  destruct (create_player_cases new_id now name s) as [[_ E]|[Hfresh E]];
    rewrite E in H; [discriminate|].
  injection H as <- <-. split; [reflexivity|]. unfold get_player. cbn [players].
  split; [|split; [|now repeat split]].
  - rewrite find_id_app, find_id_absent; [cbn; now rewrite String.eqb_refl|].
    intros p Hp. now apply Hfresh.
  - intros pid Hne. rewrite find_id_app. cbn.
    assert (Hq : String.eqb new_id pid = false) by (apply String.eqb_neq; congruence).
    rewrite Hq. now destruct (find _ (players s)).
Qed.

(** X3.  After [delete_player] the id looks up nothing and has an empty
    history, whatever the ledger was; every other lookup answers as
    before. *)
Theorem delete_player_lookup :
  forall (pid : string) (s : Ledger),
    get_player pid (snd (delete_player pid s)) = None
    /\ get_player_history pid (snd (delete_player pid s)) = []
    /\ (forall other, other <> pid ->
          get_player other (snd (delete_player pid s)) = get_player other s).
Proof.
  intros pid s. rewrite delete_player_effect. cbn [snd].
  unfold get_player, get_player_history. cbn [players participations matches].
  split; [|split].
  - apply find_id_absent. intros p Hp. apply filter_In in Hp.
    destruct Hp as [_ Hp]. now apply negb_true_iff, String.eqb_neq in Hp.
  - rewrite flat_map_none; [reflexivity|].
    intros pa Hpa. apply filter_In in Hpa. destruct Hpa as [_ Hpa].
    apply andb_true_iff in Hpa. destruct Hpa as [_ Hpa].
    apply negb_true_iff in Hpa. now rewrite Hpa.
  - intros other Hne. now apply find_id_filter.
Qed.

Lemma won_by_none (pid : string) (s : Ledger) (mid : string) :
  (forall m, In m (matches s) -> winner_id m <> pid) -> won_by pid s mid = false.
Proof.
  intros H. unfold won_by. rewrite filter_none; [reflexivity|].
  intros m Hm. apply String.eqb_neq. now apply H.
Qed.

(** X4.  On a ledger whose foreign keys hold, [delete_player] of an id that
    is not stored returns without error and changes nothing. *)
Theorem delete_player_unknown :
  forall (pid : string) (s : Ledger),
    foreign_keys_hold s -> has_player pid s = false ->
    delete_player pid s = (Ok tt, s).
Proof.
  intros pid s [Hm Hpa] Hno. rewrite delete_player_effect. f_equal.
  assert (Hother : forall x, has_player x s = true -> String.eqb x pid = false).
  { intros x Hx. apply String.eqb_neq. intros ->. congruence. }
  assert (Hwon : forall m, In m (matches s) -> winner_id m <> pid).
  { intros m Hin. apply String.eqb_neq. apply Hother. now apply Hm. }
  rewrite (filter_absent _ (players s)), (filter_absent _ (matches s)),
    (filter_absent _ (participations s)).
  - now destruct s.
  - intros pa Hin. rewrite (won_by_none pid _ _ Hwon). cbn.
    apply negb_true_iff. apply Hother. now apply (Hpa pa Hin).
  - intros m Hin. apply negb_true_iff, String.eqb_neq. now apply Hwon.
  - intros p Hp. apply negb_true_iff. apply Hother.
    apply has_player_iff. now exists p.
Qed.

(** X5.  [delete_player] is idempotent: a second call with the same id
    returns without error and leaves the ledger of the first. *)
Theorem delete_player_twice :
  forall (pid : string) (s : Ledger),
    delete_player pid (snd (delete_player pid s))
    = (Ok tt, snd (delete_player pid s)).
Proof.
  intros pid s. rewrite (delete_player_effect pid s). cbn [snd].
  rewrite delete_player_effect. cbn [players matches participations k_factor_row].
  f_equal. f_equal.
  - apply filter_absent. intros p Hp. apply filter_In in Hp. tauto.
  - apply filter_absent. intros m Hm. apply filter_In in Hm. tauto.
  - apply filter_absent. intros pa Hpa. apply filter_In in Hpa. destruct Hpa as [_ Hpa].
    apply andb_true_iff in Hpa. destruct Hpa as [_ Hpa]. rewrite Hpa, andb_true_r.
    apply negb_true_iff. apply won_by_none. cbn [matches]. intros m Hm.
    apply filter_In in Hm. destruct Hm as [_ Hm].
    now apply negb_true_iff, String.eqb_neq in Hm.
Qed.

Lemma revert_row_frame (q : Player) (r : Participation) :
  p_id (revert_row q r) = p_id q /\ p_name (revert_row q r) = p_name q
  /\ p_created_at (revert_row q r) = p_created_at q.
Proof. unfold revert_row, revert_rating. now destruct (String.eqb _ _). Qed.

Lemma fold_revert_frame (parts : list Participation) (q : Player) :
  p_name (fold_left revert_row parts q) = p_name q
  /\ p_created_at (fold_left revert_row parts q) = p_created_at q.
Proof.
  revert q. induction parts as [|r parts IH]; intros q; cbn; [now split|].
  destruct (IH (revert_row q r)) as [-> ->]. apply revert_row_frame.
Qed.

(** Only the rows of the player itself act on its row. *)
Lemma fold_revert_hits (parts : list Participation) (q : Player) :
  fold_left revert_row parts q
  = fold_left revert_row
      (filter (fun r => String.eqb (player_id r) (p_id q)) parts) q.
Proof.
  revert q. induction parts as [|r parts IH]; intros q; cbn [fold_left filter];
    [reflexivity|].
  destruct (String.eqb (player_id r) (p_id q)) eqn:E.
  - cbn [fold_left]. rewrite IH.
    rewrite (filter_ext (fun r0 => String.eqb (player_id r0) (p_id (revert_row q r)))
                        (fun r0 => String.eqb (player_id r0) (p_id q))); [reflexivity|].
    intros r0. now rewrite (proj1 (revert_row_frame q r)).
  - assert (Hsame : revert_row q r = q).
    { unfold revert_row, revert_rating. now rewrite String.eqb_sym, E. }
    now rewrite Hsame.
Qed.

Lemma Forall2_map_self {A B} (R : A -> B -> Prop) (f : A -> B) (l : list A) :
  (forall x, In x l -> R x (f x)) -> Forall2 R l (map f l).
Proof.
  induction l as [|x l IH]; intros H; cbn; constructor.
  - apply H. now left.
  - apply IH. intros y Hy. apply H. now right.
Qed.

Lemma delete_match_commit :
  forall (mid : string) (s s' : Ledger),
    delete_match mid s = (Ok tt, s') ->
    players s' = map (fun p => fold_left revert_row
                                 (filter (fun pa => String.eqb (match_id pa) mid)
                                         (participations s)) p)
                     (players s)
    /\ matches s' = filter (fun m => negb (String.eqb (m_id m) mid)) (matches s)
    /\ participations s'
       = filter (fun pa => negb (String.eqb (match_id pa) mid)) (participations s)
    /\ k_factor_row s' = k_factor_row s.
Proof.
  intros mid s s' H. unfold delete_match, transaction in H.
  destruct (filter (fun pa => String.eqb (match_id pa) mid) (participations s))
    as [|r0 parts] eqn:Hparts.
  { unfold delete_match_body in H. unfold bind at 1 in H.
    unfold select_participations at 1 in H. rewrite Hparts in H. discriminate. }
  rewrite (delete_match_body_found mid s r0 parts Hparts) in H.
  rewrite (fold_map_pointwise (fun r q => revert_row q r)) in H.
  injection H as <-. cbn [players matches participations k_factor_row].
  now repeat split.
Qed.

(** X6.  A [delete_match] that commits removes the match row and all its
    participation rows and no other row.  Every player row keeps its id,
    name and creation time; its games_played drops by the number of rows
    the player had in the match; a player with no row in the match is
    untouched, and a player with one row has that row's delta subtracted
    from the rating (in binary64, written to the REAL column; the
    difference is stored as computed whenever the old rating is a value
    that a REAL column can hold, that is, not -0.0). *)
Theorem delete_match_players :
  forall (mid : string) (s s' : Ledger),
    delete_match mid s = (Ok tt, s') ->
    matches s' = filter (fun m => negb (String.eqb (m_id m) mid)) (matches s)
    /\ participations s'
       = filter (fun pa => negb (String.eqb (match_id pa) mid)) (participations s)
    /\ k_factor_row s' = k_factor_row s
    /\ Forall2 (fun p p' =>
                  p_id p' = p_id p /\ p_name p' = p_name p
                  /\ p_created_at p' = p_created_at p
                  /\ games_played p'
                     = games_played p - Z.of_nat (List.length (rows_in_match mid p s))
                  /\ (rows_in_match mid p s = [] -> p' = p)
                  /\ (forall r, rows_in_match mid p s = [r] ->
                                rating p' = real_column (rating p - rating_delta r)%float
                                /\ (real_column (rating p) = rating p ->
                                    rating p' = (rating p - rating_delta r)%float)))
               (players s) (players s').
Proof.
  intros mid s s' H. apply delete_match_commit in H.
  destruct H as (Hp & Hm & Hpa & Hk).
  split; [exact Hm|]. split; [exact Hpa|]. split; [exact Hk|].
  rewrite Hp. apply Forall2_map_self. intros p _.
  set (hits := filter (fun pa => String.eqb (match_id pa) mid) (participations s)).
  assert (Hrows : filter (fun r => String.eqb (player_id r) (p_id p)) hits
                  = rows_in_match mid p s).
  { unfold hits, rows_in_match. now rewrite filter_filter. }
  change (fold_left (fun q x => revert_row q x) hits p) with (fold_left revert_row hits p).
  rewrite (fold_revert_hits hits p), Hrows.
  split; [apply p_id_fold_revert|].
  destruct (fold_revert_frame (rows_in_match mid p s) p) as [Hn Hc].
  split; [exact Hn|]. split; [exact Hc|]. split.
  - rewrite gp_fold_revert.
    rewrite (filter_absent (fun r => String.eqb (p_id p) (player_id r))); [reflexivity|].
    intros r Hr. unfold rows_in_match in Hr. apply filter_In in Hr.
    destruct Hr as [_ Hr]. apply andb_true_iff in Hr. now rewrite String.eqb_sym.
  - split; [now intros -> | intros r Hr].
    assert (Hin : In r (rows_in_match mid p s)) by (rewrite Hr; now left).
    rewrite Hr. cbn [fold_left]. unfold rows_in_match in Hin. apply filter_In in Hin.
    destruct Hin as [_ Hin]. apply andb_true_iff in Hin. destruct Hin as [_ Hin].
    unfold revert_row, revert_rating. rewrite String.eqb_sym, Hin. cbn [rating].
    split; [reflexivity|]. intros Hst. now apply real_column_sub_stored.
Qed.

(** X7.  A match can be reversed once: after a [delete_match] that
    commits, a second call with the same id raises "Match not found" and
    changes nothing. *)
Theorem delete_match_twice :
  forall (mid : string) (s s' : Ledger),
    delete_match mid s = (Ok tt, s') ->
    delete_match mid s' = (Raise (ValueError "Match not found"), s').
Proof.
  intros mid s s' H. apply delete_match_commit in H.
  destruct H as (_ & _ & Hpas & _).
  unfold delete_match, transaction, delete_match_body.
  unfold bind at 1. unfold select_participations at 1.
  rewrite Hpas, filter_filter, filter_none; [reflexivity|].
  intros pa _. now destruct (String.eqb (match_id pa) mid).
Qed.

Lemma record_match_commit :
  forall (uuid : nat -> string) (now : float) (date winner : string)
         (loser_ids : list string) (wd wnew : float) (ld : list LoserData)
         (s s1 : Ledger) (mid : string),
    record_match uuid now date winner loser_ids wd wnew ld s = (Ok mid, s1) ->
    mid = uuid 0%nat
    /\ recordable uuid winner wd wnew ld s
    /\ players s1 = map (fun p => fold_left apply_entry (participants winner wd wnew ld) p)
                        (players s)
    /\ matches s1 = matches s ++ [mkMatch mid date (real_column (get_k_factor s)) winner (real_column now)]
    /\ participations s1
       = participations s
           ++ winner_row uuid mid winner wd wnew
           :: map (loser_row uuid mid) (enumerate 2 ld)
    /\ k_factor_row s1 = k_factor_row s.
Proof.
  intros uuid now date winner loser_ids wd wnew ld s s1 mid H.
  unfold record_match, transaction in H.
  destruct (record_match_body_cases uuid now date winner loser_ids wd wnew ld s)
    as [[Hrec [s' Hb]]|[_ Hb]]; cbn zeta in Hb; rewrite Hb in H; [|discriminate].
  injection H as <- <-. apply record_match_body_ok in Hb.
  destruct Hb as (_ & _ & _ & Hp & Hm & Hpa & Hk & _).
  split; [reflexivity|]. split; [exact Hrec|]. split; [|now repeat split].
  rewrite Hp. apply (fold_map_pointwise (fun e p => apply_entry p e)).
Qed.

Lemma record_match_cases :
  forall (uuid : nat -> string) (now : float) (date winner : string)
         (loser_ids : list string) (wd wnew : float) (ld : list LoserData) (s : Ledger),
    (recordable uuid winner wd wnew ld s
     /\ exists s1, record_match uuid now date winner loser_ids wd wnew ld s
                   = (Ok (uuid 0%nat), s1))
    \/ (~ recordable uuid winner wd wnew ld s
        /\ record_match uuid now date winner loser_ids wd wnew ld s
           = (Raise IntegrityError, s)).
Proof.
  intros uuid now date winner loser_ids wd wnew ld s.
  unfold record_match, transaction.
  destruct (record_match_body_cases uuid now date winner loser_ids wd wnew ld s)
    as [[Hrec [s' Hb]]|[Hno Hb]]; cbn zeta in Hb; rewrite Hb.
  - left. split; [exact Hrec|]. now exists s'.
  - right. now split.
Qed.

(** X8.  [record_match] commits exactly when the constraints of the three
    tables allow it: the drawn match id is new, the K-factor in force is
    not NULL, the winner and every loser are stored players, no rating or
    delta written to a participation row is NULL, and the participation
    ids drawn are new and pairwise distinct.  It then returns the drawn
    match id.  Otherwise it raises IntegrityError, its only failure, and
    the ledger is as it was before the call. *)
Theorem record_match_outcome :
  forall (uuid : nat -> string) (now : float) (date winner : string)
         (loser_ids : list string) (wd wnew : float) (ld : list LoserData) (s : Ledger),
    ((exists mid s1, record_match uuid now date winner loser_ids wd wnew ld s = (Ok mid, s1))
     <-> recordable uuid winner wd wnew ld s)
    /\ (forall mid s1,
          record_match uuid now date winner loser_ids wd wnew ld s = (Ok mid, s1) ->
          mid = uuid 0%nat)
    /\ (forall e s1,
          record_match uuid now date winner loser_ids wd wnew ld s = (Raise e, s1) ->
          e = IntegrityError /\ s1 = s).
Proof.
  intros uuid now date winner loser_ids wd wnew ld s.
  destruct (record_match_cases uuid now date winner loser_ids wd wnew ld s)
    as [[Hrec [s1 ->]]|[Hno ->]].
  - split; [split; [intros _; exact Hrec | intros _; now exists (uuid 0%nat), s1]|].
    split; [|discriminate]. intros mid s1' H. now injection H as <- _.
  - split; [split; [intros (mid & s1 & H); discriminate | contradiction]|].
    split; [discriminate|]. intros e s1 H. injection H as <- <-. now split.
Qed.

Lemma fold_apply_recorded (es : list (string * float * float)) (q : Player) :
  NoDup (map (fun e => fst (fst e)) es) ->
  fold_left apply_entry es q = recorded es q.
Proof.
  revert q. induction es as [|e es IH]; intros q Hnd; [reflexivity|].
  cbn [map] in Hnd. apply NoDup_cons_iff in Hnd. destruct Hnd as [Hnotin Hnd].
  cbn [fold_left]. unfold recorded. cbn [find].
  destruct (String.eqb (p_id q) (fst (fst e))) eqn:Heq.
  - assert (Hid : p_id (apply_entry q e) = fst (fst e)).
    { rewrite p_id_apply_entry. now apply String.eqb_eq. }
    assert (H1 : ~ In (p_id (apply_entry q e)) (map (fun e => fst (fst e)) es))
      by now rewrite Hid.
    destruct (bystander_untouched es _ H1) as [-> _].
    unfold apply_entry, apply_rating. rewrite Heq. now destruct e as [[pid r] d].
  - assert (Hsame : apply_entry q e = q).
    { unfold apply_entry, apply_rating. now rewrite Heq. }
    rewrite Hsame. apply (IH q Hnd).
Qed.

(** X10.  A [record_match] that commits with pairwise distinct
    participants appends one match row, stamped with the K-factor in force
    and the winner, and rewrites exactly the participants' player rows:
    each gets the new rating passed for it and one more game played; every
    other player row and the settings are untouched.  The K-factor and the
    new ratings are stored as REAL columns hold them: a -0.0 as +0.0,
    anything else as passed. *)
Theorem record_match_players :
  forall (uuid : nat -> string) (now : float) (date winner : string)
         (loser_ids : list string) (wd wnew : float) (ld : list LoserData)
         (s s1 : Ledger) (mid : string),
    record_match uuid now date winner loser_ids wd wnew ld s = (Ok mid, s1) ->
    NoDup (winner :: map l_id ld) ->
    mid = uuid 0%nat
    /\ matches s1 = matches s ++ [mkMatch mid date (real_column (get_k_factor s)) winner
                                          (real_column now)]
    /\ players s1 = map (recorded (participants winner wd wnew ld)) (players s)
    /\ k_factor_row s1 = k_factor_row s.
Proof.
  intros uuid now date winner loser_ids wd wnew ld s s1 mid H Hnd.
  apply record_match_commit in H. destruct H as (Hmid & _ & Hp & Hm & _ & Hk).
  split; [exact Hmid|]. split; [exact Hm|]. split; [|exact Hk].
  rewrite Hp. apply map_ext. intros p. apply fold_apply_recorded.
  unfold participants. cbn [map fst]. now rewrite map_map.
Qed.

End Operations.

(** ** Consistency of the reachable ledgers *)

Module Reachable.
Import Database Spec DatabaseFacts Deletion Recording Reversal Invariant Consistency
       Commit Operations.

Lemma NoDup_map_filter {A B} (f : A -> B) (g : A -> bool) (l : list A) :
  NoDup (map f l) -> NoDup (map f (filter g l)).
Proof.
  induction l as [|x l IH]; cbn; intros H; [constructor|].
  apply NoDup_cons_iff in H. destruct H as [Hx Hl].
  destruct (g x); cbn; [|now apply IH].
  constructor; [|now apply IH]. intros Hin. apply Hx.
  apply in_map_iff in Hin. destruct Hin as [y [Hy Hin]]. apply filter_In in Hin.
  apply in_map_iff. exists y. tauto.
Qed.

Lemma NoDup_snoc {A} (l : list A) (x : A) : NoDup l -> ~ In x l -> NoDup (l ++ [x]).
Proof.
  intros Hl Hx. apply NoDup_app; [exact Hl | repeat constructor; intros [] |].
  intros a Ha [<-|[]]. contradiction.
Qed.

Lemma map_same {A B} (f : A -> B) (g : A -> A) (l : list A) :
  (forall x, f (g x) = f x) -> map f (map g l) = map f l.
Proof. intros H. rewrite map_map. apply map_ext. exact H. Qed.

Lemma unique_by_key {A} (f : A -> string) (l : list A) (a b : A) :
  NoDup (map f l) -> In a l -> In b l -> f a = f b -> a = b.
Proof.
  induction l as [|x l IH]; intros Hnd Ha Hb Heq; [contradiction|].
  cbn in Hnd. apply NoDup_cons_iff in Hnd. destruct Hnd as [Hx Hnd].
  destruct Ha as [<-|Ha], Hb as [<-|Hb]; [reflexivity| | |now apply IH].
  - exfalso. apply Hx. rewrite Heq. now apply in_map.
  - exfalso. apply Hx. rewrite <- Heq. now apply in_map.
Qed.

Lemma p_name_fold_apply (es : list (string * float * float)) (q : Player) :
  p_name (fold_left apply_entry es q) = p_name q.
Proof.
  revert q. induction es as [|e es IH]; intros q; cbn; [reflexivity|].
  rewrite IH. unfold apply_entry, apply_rating. now destruct (String.eqb _ _).
Qed.

Lemma loser_row_ids (uuid : nat -> string) (mid : string) (ld : list LoserData) (i : nat) :
  map pa_id (map (loser_row uuid mid) (enumerate i ld))
  = map uuid (seq i (List.length ld)).
Proof.
  revert i. induction ld as [|l ld IH]; intros i; cbn; [reflexivity|]. now rewrite IH.
Qed.

Lemma transaction_raise {A} (body : sql A) (s s' : Ledger) (e : pyexn) :
  transaction body s = (Raise e, s') -> s' = s.
Proof.
  unfold transaction. destruct (body s) as [[a s1]|e1]; intros H; [discriminate|].
  now injection H.
Qed.

(** The primary keys and the unique names are kept by every operation. *)
Lemma step_keys_unique (s : Ledger) (op : Op) :
  keys_unique s -> keys_unique (step s op).
Proof.
  intros (Hp & Hn & Hm & Hpa).
  destruct op as [new_id now name|uuid now date winner lids wd wnew ld|mid|pid|k];
    cbn [step].
  - destruct (create_player_cases new_id now name s) as [[_ ->]|[Hfresh ->]];
      cbn [snd]; [now repeat split|].
    unfold keys_unique. cbn [players matches participations]. rewrite !map_app. cbn [map].
    repeat split; try assumption.
    + apply NoDup_snoc; [exact Hp|]. intros Hin. apply in_map_iff in Hin.
      destruct Hin as [p [Heq Hin]]. cbn in Heq. destruct (Hfresh p Hin). contradiction.
    + apply NoDup_snoc; [exact Hn|]. intros Hin. apply in_map_iff in Hin.
      destruct Hin as [p [Heq Hin]]. cbn in Heq. destruct (Hfresh p Hin). contradiction.
  - destruct (record_match uuid now date winner lids wd wnew ld s) as [[mid|e] s1] eqn:H;
      cbn [snd].
    2:{ apply transaction_raise in H. subst s1. now repeat split. }
    apply record_match_commit in H.
    destruct H as (-> & Hrec & Hps & Hms & Hpas & _).
    destruct Hrec as (Hfresh & _ & _ & _ & _ & _ & _ & Hnd & Hnew).
    unfold keys_unique. rewrite Hps, Hms, Hpas.
    rewrite (map_same p_id _ _ (p_id_fold_apply _)).
    rewrite (map_same p_name _ _ (p_name_fold_apply _)).
    rewrite !map_app. cbn [map m_id winner_row pa_id]. rewrite loser_row_ids.
    repeat split; try assumption.
    + apply NoDup_snoc; [exact Hm|]. unfold has_match in Hfresh.
      now apply existsb_in_map in Hfresh.
    + apply NoDup_app; [exact Hpa | exact Hnd |].
      intros a Ha Hin. change (uuid 1%nat :: map uuid (seq 2 (List.length ld)))
        with (map uuid (seq 1 (S (List.length ld)))) in Hin.
      apply in_map_iff in Hin. destruct Hin as [j [<- Hj]]. exact (Hnew j Hj Ha).
  - destruct (delete_match mid s) as [[[]|e] s1] eqn:H; cbn [snd].
    2:{ apply transaction_raise in H. subst s1. now repeat split. }
    apply delete_match_commit in H. destruct H as (Hps & Hms & Hpas & _).
    unfold keys_unique. rewrite Hps, Hms, Hpas.
    rewrite (map_same p_id _ _ (p_id_fold_revert _)).
    rewrite (map_same p_name _ _ (fun q => proj1 (fold_revert_frame _ q))).
    repeat split; try assumption; now apply NoDup_map_filter.
  - rewrite delete_player_effect. cbn [snd]. unfold keys_unique.
    cbn [players matches participations].
    repeat split; now apply NoDup_map_filter.
  - now repeat split.
Qed.

(** Rows that are dropped by a deletion and are no winner row of [m] do
    not change the winner rows of [m]. *)
Lemma winner_rows_filter (m : Match) (keep : Participation -> bool) (s s' : Ledger) :
  participations s' = filter keep (participations s) ->
  (forall pa, In pa (winner_rows m s) -> keep pa = true) ->
  winner_rows m s' = winner_rows m s.
Proof.
  intros Hs' H. unfold winner_rows in *. rewrite Hs', filter_filter. apply filter_ext_in.
  intros pa Hin.
  destruct (String.eqb (match_id pa) (m_id m) && (is_winner pa =? 1)) eqn:E;
    [|apply andb_false_r].
  rewrite andb_true_r. apply H. apply filter_In. now split.
Qed.

Lemma won_by_iff (pid : string) (s : Ledger) (mid : string) :
  won_by pid s mid = true
  <-> exists m, In m (matches s) /\ winner_id m = pid /\ m_id m = mid.
Proof.
  unfold won_by. rewrite existsb_exists. split.
  - intros [x [Hx Heq]]. apply in_map_iff in Hx. destruct Hx as [m [<- Hm]].
    apply filter_In in Hm. destruct Hm as [Hm Hw].
    apply String.eqb_eq in Hw, Heq. exists m. now repeat split.
  - intros [m (Hm & Hw & Heq)]. exists (m_id m). split.
    + apply in_map. apply filter_In. split; [exact Hm | now apply String.eqb_eq].
    + rewrite Heq. apply String.eqb_refl.
Qed.

(** Every operation keeps one winner row per match, naming its winner. *)
Lemma step_winner_rows (s : Ledger) (op : Op) :
  foreign_keys_hold s -> keys_unique s -> winner_rows_hold s ->
  winner_rows_hold (step s op).
Proof.
  intros [_ Hfk] (_ & _ & Hmu & _) [Hw Hflag].
  destruct op as [new_id now name|uuid now date winner lids wd wnew ld|mid|pid|k];
    cbn [step].
  - destruct (create_player_cases new_id now name s) as [[_ ->]|[_ ->]];
      cbn [snd]; now split.
  - destruct (record_match uuid now date winner lids wd wnew ld s) as [[mid|e] s1] eqn:H;
      cbn [snd].
    2:{ apply transaction_raise in H. subst s1. now split. }
    apply record_match_commit in H.
    destruct H as (-> & Hrec & _ & Hms & Hpas & _).
    destruct Hrec as (Hfresh & _).
    set (mid := uuid 0%nat) in *.
    set (new := winner_row uuid mid winner wd wnew
                  :: map (loser_row uuid mid) (enumerate 2 ld)) in *.
    assert (Hnewid : forall pa, In pa new -> match_id pa = mid).
    { intros pa [<-|Hin]; [reflexivity|].
      apply in_map_iff in Hin. now destruct Hin as [il [<- _]]. }
    assert (Hold : forall pa, In pa (participations s) -> match_id pa <> mid).
    { intros pa Hin Heq. destruct (Hfk pa Hin) as [Hhas _]. rewrite Heq in Hhas.
      congruence. }
    split.
    + intros m Hm. rewrite Hms in Hm. apply in_app_or in Hm.
      unfold winner_rows. rewrite Hpas, filter_app.
      destruct Hm as [Hm|[<-|[]]].
      * destruct (Hw m Hm) as [pa [Hrows Hpl]]. exists pa. split; [|exact Hpl].
        unfold winner_rows in Hrows. rewrite Hrows.
        rewrite (filter_none _ new); [reflexivity|].
        intros x Hx. rewrite (Hnewid x Hx).
        assert (Hne : String.eqb mid (m_id m) = false).
        { apply String.eqb_neq. intros Heq. unfold has_match in Hfresh.
          apply existsb_in_map in Hfresh. apply Hfresh. rewrite Heq. now apply in_map. }
        now rewrite Hne.
      * exists (winner_row uuid mid winner wd wnew). split; [|reflexivity].
        rewrite (filter_none _ (participations s)).
        2:{ intros x Hx. cbn [m_id].
            assert (Hne : String.eqb (match_id x) mid = false)
              by (apply String.eqb_neq; now apply Hold).
            now rewrite Hne. }
        unfold new. cbn [filter winner_row match_id is_winner m_id app].
        rewrite String.eqb_refl. cbn [andb Z.eqb Pos.eqb]. f_equal.
        apply filter_none. intros x Hx. apply in_map_iff in Hx.
        destruct Hx as [il [<- _]]. cbn. apply andb_false_r.
    + intros pa Hin. rewrite Hpas in Hin. apply in_app_or in Hin.
      destruct Hin as [Hin|[<-|Hin]]; [now apply Hflag | now right |].
      apply in_map_iff in Hin. destruct Hin as [il [<- _]]. now left.
  - destruct (delete_match mid s) as [[[]|e] s1] eqn:H; cbn [snd].
    2:{ apply transaction_raise in H. subst s1. now split. }
    apply delete_match_commit in H. destruct H as (_ & Hms & Hpas & _). split.
    + intros m Hm. rewrite Hms in Hm. apply filter_In in Hm. destruct Hm as [Hm Hne].
      rewrite (winner_rows_filter m _ s s1 Hpas); [now apply Hw|].
      intros pa Hpa. unfold winner_rows in Hpa. apply filter_In in Hpa.
      destruct Hpa as [_ Hpa]. apply andb_true_iff in Hpa. destruct Hpa as [Hpa _].
      apply String.eqb_eq in Hpa. now rewrite Hpa.
    + intros pa Hin. rewrite Hpas in Hin. apply filter_In in Hin. now apply Hflag.
  - rewrite delete_player_effect. cbn [snd]. split; cbn [matches participations].
    + intros m Hm. apply filter_In in Hm. destruct Hm as [Hm Hne].
      apply negb_true_iff, String.eqb_neq in Hne.
      destruct (Hw m Hm) as [pa0 [Hrows Hpl]].
      rewrite (winner_rows_filter m
                 (fun pa => negb (won_by pid s (match_id pa))
                            && negb (String.eqb (player_id pa) pid)) s);
        [now exists pa0 | reflexivity |].
      intros pa Hpa. rewrite Hrows in Hpa. destruct Hpa as [<-|[]].
      assert (Hin0 : In pa0 (winner_rows m s)) by (rewrite Hrows; now left).
      unfold winner_rows in Hin0. apply filter_In in Hin0. destruct Hin0 as [_ Hin0].
      apply andb_true_iff in Hin0. destruct Hin0 as [Hmid _]. apply String.eqb_eq in Hmid.
      apply andb_true_iff. split; apply negb_true_iff.
      * destruct (won_by pid s (match_id pa0)) eqn:E; [|reflexivity]. exfalso.
        apply won_by_iff in E. destruct E as [m' (Hm' & Hw' & Hid')].
        assert (m' = m).
        { apply (unique_by_key m_id (matches s)); try assumption. congruence. }
        subst m'. contradiction.
      * apply String.eqb_neq. congruence.
    + intros pa Hin. apply filter_In in Hin. now apply Hflag.
  - now split.
Qed.

Lemma run_consistent (ops : list Op) : consistent (run ops).
Proof.
  unfold run.
  assert (H0 : consistent init_db).
  { split; [split; intros ? []|]. split; [repeat split; constructor|].
    split; intros ? []. }
  revert H0. generalize init_db. induction ops as [|op ops IH]; intros s Hs; cbn.
  - exact Hs.
  - apply IH. destruct Hs as (Hfk & Hk & Hw). split; [now apply step_foreign_keys|].
    split; [now apply step_keys_unique | now apply step_winner_rows].
Qed.

(** X11.  In every ledger reached from the empty one by the public
    operations, the winner of every stored match is a stored player, and
    every participation row belongs to a stored match and a stored
    player. *)
Theorem reachable_foreign_keys :
  forall (ops : list Op),
    (forall m, In m (matches (run ops)) ->
               exists w, In w (players (run ops)) /\ p_id w = winner_id m)
    /\ (forall pa, In pa (participations (run ops)) ->
                   (exists m, In m (matches (run ops)) /\ m_id m = match_id pa)
                   /\ (exists p, In p (players (run ops)) /\ p_id p = player_id pa)).
Proof.
  intros ops. destruct (run_consistent ops) as [[Hm Hpa] _]. split.
  - intros m Hin. apply has_player_iff. now apply Hm.
  - intros pa Hin. destruct (Hpa pa Hin) as [H1 H2].
    split; [now apply has_match_iff | now apply has_player_iff].
Qed.

Lemma find_unique (l : list Player) (p : Player) :
  NoDup (map p_id l) -> In p l -> find (fun q => String.eqb (p_id q) (p_id p)) l = Some p.
Proof.
  induction l as [|x l IH]; intros Hnd Hin; [contradiction|].
  cbn in Hnd. apply NoDup_cons_iff in Hnd. destruct Hnd as [Hx Hnd]. cbn [find].
  destruct Hin as [->|Hin]; [now rewrite String.eqb_refl|].
  destruct (String.eqb (p_id x) (p_id p)) eqn:E; [|now apply IH].
  exfalso. apply String.eqb_eq in E. apply Hx. rewrite E. now apply in_map.
Qed.

(** X12.  In every reachable ledger the player ids, the player names, the
    match ids and the participation ids are pairwise distinct; so every
    stored player row is the one [get_player] returns for its id. *)
Theorem reachable_keys_unique :
  forall (ops : list Op),
    NoDup (map p_id (players (run ops)))
    /\ NoDup (map p_name (players (run ops)))
    /\ NoDup (map m_id (matches (run ops)))
    /\ NoDup (map pa_id (participations (run ops)))
    /\ (forall p, In p (players (run ops)) -> get_player (p_id p) (run ops) = Some p).
Proof.
  intros ops. destruct (run_consistent ops) as (_ & (Hp & Hn & Hm & Hpa) & _).
  repeat split; try assumption. intros p Hin. now apply find_unique.
Qed.

(** X13.  In every reachable ledger each stored match has exactly one
    participation row flagged as winner, and that row belongs to the
    player the match names as its winner; every is_winner flag is 0 or 1,
    and a row flagged 1 is the winner row of its match. *)
Theorem reachable_winner_rows :
  forall (ops : list Op),
    (forall m, In m (matches (run ops)) ->
               exists pa, winner_rows m (run ops) = [pa] /\ player_id pa = winner_id m)
    /\ (forall pa, In pa (participations (run ops)) ->
                   (is_winner pa = 0 \/ is_winner pa = 1)
                   /\ (is_winner pa = 1 ->
                       exists m, In m (matches (run ops)) /\ m_id m = match_id pa
                                 /\ winner_id m = player_id pa)).
Proof.
  intros ops. destruct (run_consistent ops) as ([_ Hfk] & _ & [Hw Hflag]).
  split; [exact Hw|]. intros pa Hin. split; [now apply Hflag|]. intros H1.
  destruct (Hfk pa Hin) as [Hm _]. apply has_match_iff in Hm.
  destruct Hm as [m [Hm Hid]]. exists m. split; [exact Hm|]. split; [exact Hid|].
  destruct (Hw m Hm) as [pa0 [Hrows Hpl]].
  assert (Hpa : In pa (winner_rows m (run ops))).
  { unfold winner_rows. apply filter_In. split; [exact Hin|].
    rewrite Hid, String.eqb_refl, H1. reflexivity. }
  rewrite Hrows in Hpa. destruct Hpa as [<-|[]]. now symmetry.
Qed.

Lemma filter_by_key {A} (f : A -> string) (l : list A) (a : A) :
  NoDup (map f l) -> In a l -> filter (fun x => String.eqb (f a) (f x)) l = [a].
Proof.
  induction l as [|x l IH]; intros Hnd Hin; [contradiction|].
  cbn in Hnd. apply NoDup_cons_iff in Hnd. destruct Hnd as [Hx Hnd]. cbn [filter].
  destruct Hin as [->|Hin].
  - rewrite String.eqb_refl. f_equal. apply filter_none. intros y Hy.
    apply String.eqb_neq. intros Heq. apply Hx. rewrite Heq. now apply in_map.
  - assert (Hne : String.eqb (f a) (f x) = false).
    { apply String.eqb_neq. intros Heq. apply Hx. rewrite <- Heq. now apply in_map. }
    rewrite Hne. now apply IH.
Qed.

(** With the foreign keys and unique match ids, the join of a player's
    rows with the matches keeps each row once. *)
Lemma history_length (pid : string) (s : Ledger) :
  foreign_keys_hold s -> NoDup (map m_id (matches s)) ->
  FlaskApp.total_games (get_player_history pid s) = participation_count s pid.
Proof.
  intros [_ Hfk] Hnd. unfold FlaskApp.total_games, participation_count, rows_of.
  f_equal. unfold get_player_history.
  rewrite <- (Permutation_length (Ordering.sort_desc_perm h_date String.ltb _)).
  induction (participations s) as [|pa pas IH]; [reflexivity|].
  cbn [flat_map filter]. rewrite length_app, IH by (intros x Hx; apply Hfk; now right).
  destruct (String.eqb (player_id pa) pid); [|reflexivity].
  destruct (Hfk pa (or_introl eq_refl)) as [Hm _]. apply has_match_iff in Hm.
  destruct Hm as [m [Hm Hid]]. rewrite <- Hid.
  rewrite (filter_by_key m_id (matches s) m Hnd Hm). reflexivity.
Qed.

(** X14.  In every reachable ledger the history of a player has exactly
    one row per stored participation of that player; as long as
    [delete_player] has not been used, its length (total_games on the
    player page) is the games_played of the player row. *)
Theorem reachable_history_length :
  forall (ops : list Op),
    (forall pid, FlaskApp.total_games (get_player_history pid (run ops))
                 = participation_count (run ops) pid)
    /\ (existsb is_delete_player ops = false ->
        forall p, In p (players (run ops)) ->
                  FlaskApp.total_games (get_player_history (p_id p) (run ops))
                  = games_played p).
Proof.
  intros ops. destruct (run_consistent ops) as (Hfk & (_ & _ & Hm & _) & _).
  split; [intros pid; now apply history_length|].
  intros Hno p Hin. rewrite (history_length _ _ Hfk Hm). symmetry.
  unfold run in *.
  apply (run_counts ops init_db false); [split; intros ? [] | intros ? [] | exact Hin |].
  exact Hno.
Qed.

(** X9.  Match rows are never rewritten and the K-factor changes only
    through [set_k_factor]: a match stored after an operation was stored
    before it, or is the row a [record_match] call has just appended,
    stamped with the K-factor that was in force as the REAL column
    k_factor_used holds it (a K-factor of -0.0 is stamped as +0.0);
    [set_k_factor k] makes [k] the K-factor in force, which the text
    column of the settings keeps as it is, and every other operation
    leaves it. *)
Theorem match_rows_immutable :
  forall (s : Ledger) (op : Op),
    (forall m, In m (matches (step s op)) ->
       In m (matches s)
       \/ exists uuid now date winner loser_ids wd wnew ld,
            op = RecordMatch uuid now date winner loser_ids wd wnew ld
            /\ m = mkMatch (uuid 0%nat) date (real_column (get_k_factor s)) winner
                          (real_column now))
    /\ (forall k, op = SetKFactor k -> get_k_factor (step s op) = k)
    /\ ((forall k, op <> SetKFactor k) -> get_k_factor (step s op) = get_k_factor s).
Proof.
  intros s op.
  destruct op as [new_id now name|uuid now date winner lids wd wnew ld|mid|pid|k];
    cbn [step].
  - destruct (create_player_cases new_id now name s) as [[_ ->]|[_ ->]]; cbn [snd];
      (split; [intros m Hm; now left | split; [discriminate | reflexivity]]).
  - destruct (record_match uuid now date winner lids wd wnew ld s) as [[mid|e] s1] eqn:H;
      cbn [snd].
    2:{ apply transaction_raise in H. subst s1.
        split; [intros m Hm; now left | split; [discriminate | reflexivity]]. }
    apply record_match_commit in H. destruct H as (-> & _ & _ & Hms & _ & Hk).
    split; [|split; [discriminate | intros _; unfold get_k_factor; now rewrite Hk]].
    intros m Hm. rewrite Hms in Hm. apply in_app_or in Hm.
    destruct Hm as [Hm|[<-|[]]]; [now left|]. right.
    exists uuid, now, date, winner, lids, wd, wnew, ld. now split.
  - destruct (delete_match mid s) as [[[]|e] s1] eqn:H; cbn [snd].
    2:{ apply transaction_raise in H. subst s1.
        split; [intros m Hm; now left | split; [discriminate | reflexivity]]. }
    apply delete_match_commit in H. destruct H as (_ & Hms & _ & Hk).
    split; [|split; [discriminate | intros _; unfold get_k_factor; now rewrite Hk]].
    intros m Hm. rewrite Hms in Hm. apply filter_In in Hm. now left.
  - rewrite delete_player_effect. cbn [snd matches].
    split; [|split; [discriminate | reflexivity]].
    intros m Hm. apply filter_In in Hm. now left.
  - split; [intros m Hm; now left|]. split.
    + intros k' H. now injection H as <-.
    + intros H. now elim (H k).
Qed.

End Reachable.

(** ** The two histories *)

Module Histories.
Import Database History Ordering.

Lemma in_player_history (pid : string) (s : Ledger) (h : HistoryRow) :
  In h (get_player_history pid s)
  <-> exists pa m, In pa (participations s) /\ In m (matches s)
                   /\ player_id pa = pid /\ match_id pa = m_id m
                   /\ h = mkHistoryRow (match_id pa) (m_date m) (is_winner pa)
                                       (rating_delta pa) (rating_after pa).
Proof.
  unfold get_player_history. rewrite in_sort_desc, in_flat_map. split.
  - intros [pa [Hpa Hin]].
    destruct (String.eqb (player_id pa) pid) eqn:E; [|contradiction].
    apply in_map_iff in Hin. destruct Hin as [m [<- Hm]].
    apply filter_In in Hm. destruct Hm as [Hm Hid].
    apply String.eqb_eq in E, Hid. exists pa, m. now repeat split.
  - intros (pa & m & Hpa & Hm & Hpl & Hid & ->). exists pa. split; [exact Hpa|].
    apply String.eqb_eq in Hpl. rewrite Hpl. apply in_map_iff. exists m.
    split; [reflexivity|]. apply filter_In. split; [exact Hm|].
    now apply String.eqb_eq.
Qed.

(** X15.  The history of a player holds exactly the joins of a stored
    participation of that player with a stored match of the row's
    match_id, each with the date of the match and the flag, delta and
    rating_after of the row; the rows come newest date first. *)
Theorem player_history_rows :
  forall (pid : string) (s : Ledger),
    (forall h, In h (get_player_history pid s)
               <-> exists pa m, In pa (participations s) /\ In m (matches s)
                                /\ player_id pa = pid /\ match_id pa = m_id m
                                /\ h = mkHistoryRow (match_id pa) (m_date m) (is_winner pa)
                                                    (rating_delta pa) (rating_after pa))
    /\ Sorted (fun a b => String.ltb (h_date a) (h_date b) = false)
              (get_player_history pid s).
Proof.
  intros pid s. split; [intros h; apply in_player_history|].
  unfold get_player_history. apply sort_desc_sorted. exact string_ltb_asym.
Qed.

Lemma summary_ids (f : string -> list MatchSummary) (keys : list string) :
  (forall k row, In row (f k) -> f k = [row] /\ ms_id row = k) ->
  NoDup keys -> NoDup (map ms_id (flat_map f keys)).
Proof.
  intros Hf. induction keys as [|k keys IH]; intros Hnd; cbn; [constructor|].
  apply NoDup_cons_iff in Hnd. destruct Hnd as [Hk Hnd]. rewrite map_app.
  apply NoDup_app; [| now apply IH |].
  - destruct (f k) as [|row rows] eqn:E; [constructor|].
    destruct (Hf k row) as [Hone _]; [rewrite E; now left|].
    rewrite E in Hone. injection Hone as ->. repeat constructor. intros [].
  - intros a Ha Hin. apply in_map_iff in Ha. destruct Ha as [row [<- Hrow]].
    destruct (Hf k row Hrow) as [_ Hid]. apply in_map_iff in Hin.
    destruct Hin as [row' [Heq Hin']]. apply in_flat_map in Hin'.
    destruct Hin' as [k' [Hk' Hrow']]. destruct (Hf k' row' Hrow') as [_ Hid'].
    apply Hk. congruence.
Qed.

Lemma in_matches_history (s : Ledger) (row : MatchSummary) :
  In row (get_matches_history s) ->
  exists m w, In m (matches s) /\ In w (players s)
              /\ winner_id m = p_id w /\ ms_id row = m_id m
              /\ ms_date row = m_date m /\ winner_name row = p_name w.
Proof.
  unfold get_matches_history. intros Hin. apply in_sort_desc in Hin.
  apply in_flat_map in Hin. destruct Hin as [k [_ Hin]].
  destruct (filter (fun r => String.eqb (m_id (jr_match r)) k) (joined_rows s))
    as [|r group] eqn:Hg; [contradiction|].
  destruct Hin as [<-|[]].
  assert (Hr : In r (filter (fun r => String.eqb (m_id (jr_match r)) k) (joined_rows s)))
    by (rewrite Hg; now left).
  apply filter_In in Hr. destruct Hr as [Hr Hk]. apply String.eqb_eq in Hk.
  destruct r as [[[m w] p] l]. apply in_joined_rows in Hr.
  destruct Hr as (Hm & Hw & _ & _ & Ew & _). exists m, w. cbn in *.
  now repeat split.
Qed.

(** X16.  [get_matches_history] lists each match id at most once, newest
    date first, and every row carries the date of a stored match with that
    id and the name of a stored player who is that match's winner. *)
Theorem matches_history_rows :
  forall (s : Ledger),
    NoDup (map ms_id (get_matches_history s))
    /\ Sorted (fun a b => String.ltb (ms_date a) (ms_date b) = false)
              (get_matches_history s)
    /\ (forall row, In row (get_matches_history s) ->
          exists m w, In m (matches s) /\ In w (players s)
                      /\ winner_id m = p_id w /\ ms_id row = m_id m
                      /\ ms_date row = m_date m /\ winner_name row = p_name w).
Proof.
  intros s. unfold get_matches_history.
  set (rows := joined_rows s).
  set (f := fun k =>
              match filter (fun r => String.eqb (m_id (jr_match r)) k) rows with
              | [] => []
              | r :: group =>
                  [mkMatchSummary k (m_date (jr_match r)) (p_name (jr_winner r))
                     (group_concat (map (fun x => p_name (jr_loser x)) (r :: group)))]
              end).
  assert (Hf : forall k row, In row (f k) -> f k = [row] /\ ms_id row = k).
  { intros k row Hin. unfold f in *.
    destruct (filter _ rows) as [|r group]; [contradiction|].
    destruct Hin as [<-|[]]. now split. }
  split; [|split].
  - apply (Permutation_NoDup (Permutation_map ms_id (sort_desc_perm ms_date String.ltb _))).
    apply summary_ids; [exact Hf|].
    apply (Permutation_NoDup (sort_desc_perm (fun k => k) String.ltb _)).
    apply NoDup_nodup.
  - apply sort_desc_sorted. exact string_ltb_asym.
  - intros row Hin. fold (get_matches_history s) in Hin. now apply in_matches_history.
Qed.

End Histories.

(** ** The leaderboard and the rank *)

Module Board.
Import Database History Ordering PlayerPage.

Lemma partition_perm {A} (f : A -> bool) (l : list A) :
  Permutation (filter f l ++ filter (fun x => negb (f x)) l) l.
Proof.
  induction l as [|x l IH]; cbn; [reflexivity|].
  destruct (f x); cbn; [now apply perm_skip|].
  rewrite <- Permutation_middle. now apply perm_skip.
Qed.

Lemma Sorted_weaken {A} (R R' : A -> A -> Prop) (l : list A) :
  (forall a b, In a l -> In b l -> R a b -> R' a b) -> Sorted R l -> Sorted R' l.
Proof.
  induction l as [|x l IH]; intros H Hs; [constructor|].
  apply Sorted_inv in Hs. destruct Hs as [Hs Hhd]. constructor.
  - apply IH; [|exact Hs]. intros a b Ha Hb. apply H; now right.
  - destruct Hhd as [|y l' Hxy]; constructor. apply H; [now left | right; now left | exact Hxy].
Qed.

(** What [sort_by_rating] returns: the list sorted, ratings in
    non-increasing order. *)
Lemma sort_by_rating_sorted (l rows : list RankedPlayer) :
  sort_by_rating l = Ok rows ->
  Permutation l rows
  /\ Sorted (fun a b => (rating (player b) <=? rating (player a))%float = true) rows.
Proof.
  unfold sort_by_rating.
  destruct ((2 <=? Z.of_nat (List.length l))
            && existsb (fun r => PrimFloat.is_nan (rating (player r))) l) eqn:E;
    [discriminate|].
  intros H. injection H as <-. split; [apply sort_desc_perm|].
  apply andb_false_iff in E. destruct E as [E|E].
  - apply Z.leb_gt in E. destruct l as [|x [|y l]]; cbn in *; try lia;
      repeat constructor.
  - apply (Sorted_weaken (fun a b => PrimFloat.ltb (rating (player a)) (rating (player b))
                                     = false)).
    + intros a b Ha Hb Hab. apply in_sort_desc in Ha, Hb.
      pose proof (proj1 (DatabaseFacts.existsb_false_iff _ _) E) as Hnan.
      apply float_not_ltb; [now apply Hnan | now apply Hnan | exact Hab].
    + apply sort_desc_sorted. exact float_ltb_asym.
Qed.

(** The shape of a leaderboard that was returned. *)
Lemma get_all_players_shape (s : Ledger) (rows : list RankedPlayer) :
  get_all_players s = Ok rows ->
  exists (t : Z) (ranked provisional : list RankedPlayer),
    let all := map (fun p => mkRankedPlayer p (t <=? games_played p) t) (players s) in
    rows = ranked ++ provisional
    /\ sort_by_rating (filter is_ranked all) = Ok ranked
    /\ sort_by_rating (filter (fun r => negb (is_ranked r)) all) = Ok provisional.
Proof.
  unfold get_all_players. destruct (players s) as [|p0 rest] eqn:Hps.
  - intros H. injection H as <-. exists 0, [], []. now repeat split.
  - destruct (leaderboard_threshold (max_games_played p0 rest)) as [t|e];
      cbn [rbind]; [|discriminate].
    set (all := map (fun p => mkRankedPlayer p (t <=? games_played p) t) (p0 :: rest)).
    destruct (sort_by_rating (filter is_ranked all)) as [ranked|e] eqn:Hr;
      cbn [rbind]; [|discriminate].
    destruct (sort_by_rating (filter (fun r => negb (is_ranked r)) all))
      as [prov|e] eqn:Hpv; cbn [rbind]; [|discriminate].
    intros H. injection H as <-. exists t, ranked, prov. now repeat split.
Qed.

Lemma leaderboard_perm (s : Ledger) (rows : list RankedPlayer) :
  get_all_players s = Ok rows -> Permutation (map player rows) (players s).
Proof.
  intros H. apply get_all_players_shape in H.
  destruct H as (t & ranked & prov & -> & Hr & Hpv). cbn zeta in *.
  apply sort_by_rating_sorted in Hr, Hpv. destruct Hr as [Hr _], Hpv as [Hpv _].
  rewrite <- Hr, <- Hpv, partition_perm, map_map. cbn [player]. now rewrite map_id.
Qed.

(** X17.  A leaderboard that is returned lists every stored player row
    exactly once: it is a rearrangement of the players table (and empty
    for an empty table). *)
Theorem leaderboard_permutation :
  forall (s : Ledger) (rows : list RankedPlayer),
    get_all_players s = Ok rows ->
    Permutation (map player rows) (players s)
    /\ List.length rows = List.length (players s)
    /\ (players s = [] -> rows = []).
Proof.
  intros s rows H. pose proof (leaderboard_perm s rows H) as Hperm.
  split; [exact Hperm|]. split.
  - rewrite <- (Permutation_length Hperm). now rewrite length_map.
  - intros Hnil. rewrite Hnil in Hperm. apply Permutation_sym, Permutation_nil in Hperm.
    now destruct rows.
Qed.

(** X18.  A leaderboard that is returned is the ranked players followed by
    the provisional ones, and within each group the ratings never
    increase from one row to the next. *)
Theorem leaderboard_order :
  forall (s : Ledger) (rows : list RankedPlayer),
    get_all_players s = Ok rows ->
    exists ranked provisional,
      rows = ranked ++ provisional
      /\ Forall (fun r => is_ranked r = true) ranked
      /\ Forall (fun r => is_ranked r = false) provisional
      /\ Sorted (fun a b => (rating (player b) <=? rating (player a))%float = true) ranked
      /\ Sorted (fun a b => (rating (player b) <=? rating (player a))%float = true)
                provisional.
Proof.
  intros s rows H. apply get_all_players_shape in H.
  destruct H as (t & ranked & prov & -> & Hr & Hpv). cbn zeta in *.
  exists ranked, prov. split; [reflexivity|].
  apply sort_by_rating_sorted in Hr, Hpv.
  destruct Hr as [Hr Hrs], Hpv as [Hpv Hpvs].
  split; [|split; [|now split]].
  - apply Forall_forall. intros r Hin. apply (Permutation_in _ (Permutation_sym Hr)) in Hin.
    now apply filter_In in Hin.
  - apply Forall_forall. intros r Hin. apply (Permutation_in _ (Permutation_sym Hpv)) in Hin.
    apply filter_In in Hin. now apply negb_true_iff.
Qed.

Lemma rank_from_found (id : string) (l : list RankedPlayer) :
  forall i, (exists row, In row l /\ p_id (player row) = id) ->
            exists r row, rank_from i id l = Some r /\ i + 1 <= r <= i + Z.of_nat (List.length l)
                          /\ nth_error l (Z.to_nat (r - i - 1)) = Some row
                          /\ p_id (player row) = id.
Proof.
  induction l as [|x l IH]; intros i [row [Hin Hid]]; [contradiction|].
  cbn [rank_from]. destruct (String.eqb (p_id (player x)) id) eqn:E.
  - exists (i + 1), x. apply String.eqb_eq in E. replace (i + 1 - i - 1) with 0 by lia.
    cbn [List.length]. repeat split; try lia. exact E.
  - destruct Hin as [->|Hin]; [apply String.eqb_neq in E; contradiction|].
    destruct (IH (i + 1) (ex_intro _ row (conj Hin Hid))) as (r & row' & Hr & Hb & Hn & Hi).
    exists r, row'. split; [exact Hr|]. cbn [List.length]. split; [lia|]. split; [|exact Hi].
    replace (Z.to_nat (r - i - 1)) with (S (Z.to_nat (r - (i + 1) - 1))) by lia.
    exact Hn.
Qed.

Lemma rank_from_absent (id : string) (l : list RankedPlayer) :
  forall i, (forall row, In row l -> p_id (player row) <> id) -> rank_from i id l = None.
Proof.
  induction l as [|x l IH]; intros i H; [reflexivity|]. cbn [rank_from].
  assert (E : String.eqb (p_id (player x)) id = false).
  { apply String.eqb_neq. apply H. now left. }
  rewrite E. apply IH. intros row Hin. apply H. now right.
Qed.

(** X19.  On a leaderboard that is returned, a stored player has a
    numeric rank between 1 and the number of players, and it is the
    1-based position of a row of that player; an id that is not stored
    gets the default "-". *)
Theorem rank_of_stored_player :
  forall (s : Ledger) (rows : list RankedPlayer) (id : string),
    get_all_players s = Ok rows ->
    (has_player id s = true ->
     exists r row, rank id rows = Some r
                   /\ 1 <= r <= Z.of_nat (List.length (players s))
                   /\ nth_error rows (Z.to_nat (r - 1)) = Some row
                   /\ p_id (player row) = id)
    /\ (has_player id s = false -> rank id rows = None).
Proof.
  intros s rows id H. pose proof (leaderboard_perm s rows H) as Hperm.
  assert (Hlen : List.length rows = List.length (players s)).
  { rewrite <- (Permutation_length Hperm). now rewrite length_map. }
  split; intros Hhas.
  - apply Invariant.has_player_iff in Hhas. destruct Hhas as [p [Hp Hid]].
    apply (Permutation_in _ (Permutation_sym Hperm)) in Hp. apply in_map_iff in Hp.
    destruct Hp as [row [Hrow Hin]].
    destruct (rank_from_found id rows 0) as (r & row' & Hr & Hb & Hn & Hi).
    { exists row. split; [exact Hin | congruence]. }
    exists r, row'. unfold rank. rewrite <- Hlen. replace (r - 1) with (r - 0 - 1) by lia.
    repeat split; try assumption; lia.
  - apply rank_from_absent. intros row Hin Hid.
    assert (Hp : In (player row) (players s)).
    { apply (Permutation_in _ Hperm). now apply in_map. }
    assert (Hyes : has_player id s = true).
    { apply Invariant.has_player_iff. now exists (player row). }
    congruence.
Qed.

End Board.

(** ** The streak of the player page *)

Module Streak.
Import Database PlayerPage.

Lemma streak_loop_spec (b : bool) (history : list HistoryRow) :
  forall (streak_count : Z),
    exists n : nat,
      streak_loop (if b then "win"%string else "loss"%string) history streak_count
      = streak_count + Z.of_nat n
      /\ (n <= List.length history)%nat
      /\ Forall (fun m => (h_is_winner m =? 1) = b) (firstn n history)
      /\ (forall m, nth_error history n = Some m -> (h_is_winner m =? 1) = negb b).
Proof.
  induction history as [|m rest IH]; intros c.
  - exists 0%nat. cbn. split; [lia|]. split; [lia|]. split; [constructor | discriminate].
  - cbn [streak_loop].
    assert (Hcond : (String.eqb (if b then "win"%string else "loss"%string) "win"
                     && (h_is_winner m =? 1))
                    || (String.eqb (if b then "win"%string else "loss"%string) "loss"
                        && negb (h_is_winner m =? 1))
                    = Bool.eqb (h_is_winner m =? 1) b).
    { destruct b, (h_is_winner m =? 1); reflexivity. }
    rewrite Hcond. destruct (Bool.eqb (h_is_winner m =? 1) b) eqn:E.
    + apply Bool.eqb_prop in E. destruct (IH (c + 1)) as (n & Hn & Hle & Hall & Hnext).
      exists (S n). cbn [List.length firstn nth_error]. split; [lia|]. split; [lia|].
      split; [now constructor | exact Hnext].
    + exists 0%nat. cbn. split; [lia|]. split; [lia|]. split; [constructor|].
      intros m' H. injection H as <-. apply Bool.eqb_false_iff in E.
      now destruct (h_is_winner m =? 1), b.
Qed.

Lemma prefix_count {A} (f : A -> bool) (l : list A) (n : nat) :
  (n <= List.length l)%nat -> Forall (fun x => f x = true) (firstn n l) ->
  (n <= List.length (filter f l))%nat.
Proof.
  revert n. induction l as [|x l IH]; intros n Hn Hall; cbn in *; [lia|].
  destruct n as [|n]; [lia|]. cbn in Hall. apply Forall_cons_iff in Hall.
  destruct Hall as [Hx Hall]. rewrite Hx. cbn. apply le_n_S. apply IH; [lia | exact Hall].
Qed.

(** X20.  The streak of an empty history is (None, 0).  Otherwise its
    type is "win" or "loss" after the newest row, and its count is the
    length of the longest run of rows of that outcome at the head of the
    history: at least 1, at most the number of games, and for a winning
    streak at most the number of wins. *)
Theorem streak_spec :
  streak [] = (None, 0)
  /\ forall (first : HistoryRow) (rest : list HistoryRow),
       let history := first :: rest in
       exists n : nat,
         streak history
         = (Some (if h_is_winner first =? 1 then "win"%string else "loss"%string),
            Z.of_nat n)
         /\ (1 <= n <= List.length history)%nat
         /\ Forall (fun m => (h_is_winner m =? 1) = (h_is_winner first =? 1))
                   (firstn n history)
         /\ (forall m, nth_error history n = Some m ->
                       (h_is_winner m =? 1) = negb (h_is_winner first =? 1))
         /\ ((h_is_winner first =? 1) = true -> Z.of_nat n <= FlaskApp.wins history).
Proof.
  split; [reflexivity|]. intros first rest history. subst history.
  destruct (streak_loop_spec (h_is_winner first =? 1) (first :: rest) 0)
    as (n & Hn & Hle & Hall & Hnext).
  exists n. unfold streak.
  rewrite Hn. split; [reflexivity|]. split; [|split; [exact Hall|split; [exact Hnext|]]].
  - split; [|exact Hle]. destruct n as [|n]; [|lia].
    specialize (Hnext first eq_refl). now destruct (h_is_winner first =? 1).
  - intros Hwin. unfold FlaskApp.wins. apply Nat2Z.inj_le.
    apply prefix_count; [exact Hle|]. now rewrite Hwin in Hall.
Qed.

End Streak.

(** ** The handler that records a match *)

Module Handler.
Import Database Spec Storage Consistency Commit Operations FlaskApp.

Lemma get_player_some (pid : string) (s : Ledger) (p : Player) :
  get_player pid s = Some p -> In p (players s) /\ p_id p = pid.
Proof.
  unfold get_player. intros H. apply find_some in H. destruct H as [Hin Heq].
  now apply String.eqb_eq in Heq.
Qed.

Lemma lookup_losers_spec (s : Ledger) (loser_ids : list string) :
  (forall losers, lookup_losers loser_ids s = Some losers ->
                  Forall2 (fun lid l => get_player lid s = Some l) loser_ids losers)
  /\ (lookup_losers loser_ids s = None
      <-> exists lid, In lid loser_ids /\ get_player lid s = None).
Proof.
  induction loser_ids as [|lid lids [IH1 IH2]]; cbn [lookup_losers].
  - split; [intros losers H; injection H as <-; constructor|].
    split; [discriminate | intros [lid [[] _]]].
  - destruct (get_player lid s) as [l|] eqn:El.
    + destruct (lookup_losers lids s) as [ls|].
      * split; [intros losers H; injection H as <-; constructor; [exact El | now apply IH1]|].
        split; [discriminate|]. intros [x [[<-|Hx] Hnone]]; [congruence|].
        assert (H : Some ls = None) by (apply IH2; now exists x). discriminate H.
      * split; [discriminate|]. split; [|reflexivity]. intros _.
        destruct (proj1 IH2 eq_refl) as [x [Hx Hnone]]. exists x. split; [now right | exact Hnone].
    + split; [discriminate|]. split; [|reflexivity]. intros _. exists lid. split; [now left | exact El].
Qed.

Lemma map_result_length {A B} (f : A -> result B) (l : list A) (ys : list B) :
  map_result f l = Ok ys -> List.length ys = List.length l.
Proof.
  revert ys. induction l as [|x l IH]; intros ys H; cbn in H.
  - now injection H as <-.
  - destruct (f x) as [y|e]; cbn in H; [|discriminate].
    destruct (map_result f l) as [ys'|e]; cbn in H; [|discriminate].
    injection H as <-. cbn. f_equal. now apply IH.
Qed.

Lemma map_result_raise {A B} (f : A -> result B) (l : list A) (e : pyexn) :
  map_result f l = Raise e -> exists x, In x l /\ f x = Raise e.
Proof.
  induction l as [|x l IH]; intros H; cbn in H; [discriminate|].
  destruct (f x) as [y|e'] eqn:E; cbn in H.
  - destruct (map_result f l) as [ys'|e'']; cbn in H; [discriminate|].
    injection H as ->. destruct (IH eq_refl) as [x' [Hin Hx']]. exists x'. split; [now right | exact Hx'].
  - injection H as ->. exists x. split; [now left | exact E].
Qed.

Section Engine.
Variable libm_pow10 : float -> float.

(** The exceptions of [expected_score]: from [math.pow] or from the
    division. *)
Lemma expected_score_raises (a b : float) (e : pyexn) :
  Elo.expected_score libm_pow10 a b = Raise e ->
  e = OverflowError \/ e = ValueError "math domain error" \/ e = ZeroDivisionError.
Proof.
  unfold Elo.expected_score, Elo.math_pow10, Elo.truediv.
  destruct (PrimFloat.is_nan ((b - a) / 400)); cbn [rbind].
  { destruct (PrimFloat.is_zero _); intros H; [injection H as <-; tauto | discriminate]. }
  destruct (PrimFloat.is_infinity ((b - a) / 400)); cbn [rbind].
  { destruct (PrimFloat.is_zero _); intros H; [injection H as <-; tauto | discriminate]. }
  destruct (PrimFloat.is_nan (libm_pow10 _)); cbn [rbind];
    [intros H; injection H as <-; tauto|].
  destruct (PrimFloat.is_infinity (libm_pow10 _)); cbn [rbind];
    [intros H; injection H as <-; tauto|].
  destruct (PrimFloat.is_zero _); intros H; [injection H as <-; tauto | discriminate].
Qed.

Lemma calculate_deltas_outcome (w : float) (ls : list float) (k : float) :
  match Elo.calculate_deltas libm_pow10 w ls k with
  | Ok (dw, dls) => List.length dls = List.length ls
  | Raise e => e = OverflowError \/ e = ValueError "math domain error"
               \/ e = ZeroDivisionError
  end.
Proof.
  unfold Elo.calculate_deltas. rewrite EloFacts.calculate_deltas_from_spec.
  destruct (map_result (pair_deltas libm_pow10 w k) ls) as [pairs|e] eqn:E; cbn [rbind].
  - cbn [app]. rewrite length_map. now apply map_result_length in E.
  - apply map_result_raise in E. destruct E as [lr [_ E]]. unfold pair_deltas in E.
    destruct (Elo.expected_score libm_pow10 w lr) as [x|e1] eqn:E1; cbn [rbind] in E.
    + destruct (Elo.expected_score libm_pow10 lr w) as [y|e2] eqn:E2; cbn [rbind] in E;
        [discriminate|]. injection E as <-. exact (expected_score_raises _ _ _ E2).
    + injection E as <-. exact (expected_score_raises _ _ _ E1).
Qed.
End Engine.

(** With a delta for each loser, the update data is built without error,
    entry by entry. *)
Lemma losers_update_data_ok (losers : list Player) (deltas_l : list float) :
  forall i, (i + List.length losers <= List.length deltas_l)%nat ->
    exists data,
      losers_update_data losers i deltas_l = Ok data
      /\ Forall2 (fun l_player d => l_id d = p_id l_player
                                    /\ l_old_rating d = rating l_player
                                    /\ l_new_rating d = (rating l_player + l_delta d)%float)
                 losers data
      /\ (forall j d, nth_error data j = Some d ->
                      nth_error deltas_l (i + j) = Some (l_delta d)).
Proof.
  induction losers as [|l losers IH]; intros i Hlen; cbn [losers_update_data].
  - exists []. split; [reflexivity|]. split; [constructor|]. intros [|j] d H; discriminate.
  - cbn [List.length] in Hlen.
    destruct (nth_error deltas_l i) as [d|] eqn:Ed.
    2:{ apply nth_error_None in Ed. lia. }
    destruct (IH (S i)) as (more & Hmore & Hall & Hnth); [lia|].
    rewrite Hmore. cbn [rbind]. eexists. split; [reflexivity|]. split.
    + constructor; [now repeat split | exact Hall].
    + intros [|j] d' H; cbn in H.
      * injection H as <-. now rewrite Nat.add_0_r.
      * rewrite Nat.add_succ_r. now apply Hnth.
Qed.

Section Answers.
Variable libm_pow10 : float -> float.

(** The ways through the body of the handler's [try]. *)
Lemma create_match_try_cases :
  forall (uuid : nat -> string) (now : float) (winner : string)
         (loser_ids : list string) (date : string) (s : Ledger),
    let r := create_match_try libm_pow10 uuid now winner loser_ids date s in
    (r = (Ok (JsonError 404), s)
     /\ (get_player winner s = None
         \/ exists lid, In lid loser_ids /\ get_player lid s = None))
    \/ exists w losers,
         get_player winner s = Some w /\ lookup_losers loser_ids s = Some losers
         /\ ((exists e, r = (Raise e, s)
                        /\ (e = TypeError \/ e = OverflowError
                            \/ e = ValueError "math domain error"
                            \/ e = ZeroDivisionError \/ e = IntegrityError))
             \/ exists dw dls data mid s1,
                  Elo.calculate_deltas libm_pow10 (rating w) (map rating losers)
                                       (get_k_factor s) = Ok (dw, dls)
                  /\ losers_update_data losers 0 dls = Ok data
                  /\ record_match uuid now date winner loser_ids dw
                                  (rating w + dw)%float data s = (Ok mid, s1)
                  /\ r = (Ok (MatchCreated mid dw dls), s1)).
Proof.
  intros uuid now winner loser_ids date s. cbn zeta. unfold create_match_try.
  destruct (get_player winner s) as [w|] eqn:Ew; [|left; split; [reflexivity | now left]].
  destruct (lookup_losers loser_ids s) as [losers|] eqn:El.
  2:{ left. split; [reflexivity|]. right. now apply (lookup_losers_spec s loser_ids). }
  right. exists w, losers. split; [reflexivity|]. split; [reflexivity|].
  destruct (existsb PrimFloat.is_nan (rating w :: map rating losers));
    [left; exists TypeError; split; [reflexivity | tauto]|].
  pose proof (calculate_deltas_outcome libm_pow10 (rating w) (map rating losers)
                                       (get_k_factor s)) as Hcalc.
  destruct (Elo.calculate_deltas libm_pow10 (rating w) (map rating losers) (get_k_factor s))
    as [[dw dls]|e]; [|left; exists e; split; [reflexivity | tauto]].
  rewrite length_map in Hcalc.
  destruct (losers_update_data_ok losers dls 0) as (data & Hdata & _); [cbn; lia|].
  rewrite Hdata.
  destruct (record_match_cases uuid now date winner loser_ids dw (rating w + dw)%float
                                 data s) as [[_ [s1 Hr]]|[_ Hr]]; rewrite Hr.
  - right. exists dw, dls, data, (uuid 0%nat), s1. now repeat split.
  - left. exists IntegrityError. split; [reflexivity | tauto].
Qed.
End Answers.

Section Properties.
Variable libm_pow10 : float -> float.

(** X21.  [create_match] answers 400 exactly when a field is missing, and
    404 exactly when the fields are there but the winner or one of the
    losers is not a stored player; whenever it answers with an error (400,
    404 or 500) the ledger is as it was before the request. *)
Theorem create_match_answers :
  forall (uuid : nat -> string) (now : float) (winner : string)
         (loser_ids : list string) (date : string) (s : Ledger),
    let r := create_match libm_pow10 uuid now winner loser_ids date s in
    (fst r = JsonError 400
     <-> winner = EmptyString \/ loser_ids = [] \/ date = EmptyString)
    /\ (fst r = JsonError 404
        <-> (winner <> EmptyString /\ loser_ids <> [] /\ date <> EmptyString)
            /\ (get_player winner s = None
                \/ exists lid, In lid loser_ids /\ get_player lid s = None))
    /\ (forall status, fst r = JsonError status ->
                       snd r = s /\ (status = 400 \/ status = 404 \/ status = 500)).
Proof.
  intros uuid now winner loser_ids date s. cbn zeta. unfold create_match.
  assert (Hmissing : String.eqb winner "" || (match loser_ids with [] => true | _ => false end)
                     || String.eqb date "" = true
                     <-> winner = EmptyString \/ loser_ids = [] \/ date = EmptyString).
  { rewrite !orb_true_iff, !String.eqb_eq. destruct loser_ids; intuition discriminate. }
  destruct (String.eqb winner "" || _ || String.eqb date "") eqn:E.
  - pose proof (proj1 Hmissing eq_refl) as Hm. cbn [fst snd].
    split; [tauto|]. split.
    + split; [discriminate | tauto].
    + intros status H. injection H as <-. tauto.
  - assert (Hpresent : winner <> EmptyString /\ loser_ids <> [] /\ date <> EmptyString).
    { repeat split; intros H; assert (false = true) by (apply Hmissing; tauto); discriminate. }
    assert (Hno : ~ (winner = EmptyString \/ loser_ids = [] \/ date = EmptyString)) by tauto.
    destruct (create_match_try_cases libm_pow10 uuid now winner loser_ids date s)
      as [[Hr Hmiss]|(w & losers & Hw & Hl & [(e & Hr & _)|(dw & dls & data & mid & s1 & _ & _ & _ & Hr)])];
      cbn zeta in Hr; rewrite Hr; cbn [fst snd].
    + split; [split; [discriminate | tauto]|]. split; [tauto|].
      intros status H. injection H as <-. tauto.
    + split; [split; [discriminate | tauto]|]. split.
      * split; [discriminate|]. intros [_ [Hnone|Hnone]]; [congruence|].
        apply (lookup_losers_spec s loser_ids) in Hnone. congruence.
      * intros status H. injection H as <-. tauto.
    + split; [split; [discriminate | tauto]|]. split.
      * split; [discriminate|]. intros [_ [Hnone|Hnone]]; [congruence|].
        apply (lookup_losers_spec s loser_ids) in Hnone. congruence.
      * discriminate.
Qed.

(** X22.  The only exceptions that can leave the handler's [try] (and are
    answered with 500) are TypeError from a NULL rating, OverflowError,
    ValueError or ZeroDivisionError from the rating engine, and
    IntegrityError from the ledger; [deltas_l[i]] is always in range, and
    the ledger is as it was. *)
Theorem create_match_exceptions :
  forall (uuid : nat -> string) (now : float) (winner : string)
         (loser_ids : list string) (date : string) (s s' : Ledger) (e : pyexn),
    create_match_try libm_pow10 uuid now winner loser_ids date s = (Raise e, s') ->
    s' = s
    /\ (e = TypeError \/ e = OverflowError \/ e = ValueError "math domain error"
        \/ e = ZeroDivisionError \/ e = IntegrityError).
Proof.
  intros uuid now winner loser_ids date s s' e H.
  destruct (create_match_try_cases libm_pow10 uuid now winner loser_ids date s)
    as [[Hr _]|(w & losers & _ & _ & [(e' & Hr & He)|(dw & dls & data & mid & s1 & _ & _ & _ & Hr)])];
    cbn zeta in Hr; rewrite Hr in H; try discriminate.
  injection H as <- <-. now split.
Qed.
End Properties.

Lemma Forall2_nth {A B} (R : A -> B -> Prop) (l : list A) (l' : list B) :
  Forall2 R l l' ->
  forall i x, nth_error l i = Some x -> exists y, nth_error l' i = Some y /\ R x y.
Proof.
  induction 1 as [|a b l l' Hab _ IH]; intros [|i] x H; cbn in H; try discriminate.
  - injection H as <-. now exists b.
  - now apply IH.
Qed.

Lemma recorded_id (es : list (string * float * float)) (p : Player) :
  p_id (recorded es p) = p_id p.
Proof. unfold recorded. now destruct (find _ es) as [[[x r] d]|]. Qed.

Lemma find_recorded (es : list (string * float * float)) (pid : string) (ps : list Player) :
  find (fun p => String.eqb (p_id p) pid) (map (recorded es) ps)
  = option_map (recorded es) (find (fun p => String.eqb (p_id p) pid) ps).
Proof.
  induction ps as [|q ps IH]; cbn; [reflexivity|]. rewrite recorded_id.
  now destruct (String.eqb (p_id q) pid).
Qed.

Lemma find_entry (data : list LoserData) (x : LoserData) :
  NoDup (map l_id data) -> In x data ->
  find (fun e : string * float * float => String.eqb (l_id x) (fst (fst e)))
       (map (fun l => (l_id l, l_new_rating l, l_delta l)) data)
  = Some (l_id x, l_new_rating x, l_delta x).
Proof.
  induction data as [|y data IH]; intros Hnd Hin; [contradiction|].
  cbn in Hnd. apply NoDup_cons_iff in Hnd. destruct Hnd as [Hy Hnd]. cbn [map find fst].
  destruct Hin as [->|Hin]; [now rewrite String.eqb_refl|].
  destruct (String.eqb (l_id x) (l_id y)) eqn:E; [|now apply IH].
  exfalso. apply String.eqb_eq in E. apply Hy. rewrite <- E. now apply in_map.
Qed.

Lemma find_entry_none (es : list (string * float * float)) (pid : string) :
  ~ In pid (map (fun e => fst (fst e)) es) ->
  find (fun e : string * float * float => String.eqb pid (fst (fst e))) es = None.
Proof.
  induction es as [|e es IH]; intros H; cbn; [reflexivity|].
  assert (Hne : String.eqb pid (fst (fst e)) = false).
  { apply String.eqb_neq. intros Heq. apply H. now left. }
  rewrite Hne. apply IH. intros Hin. apply H. now right.
Qed.

Section Effect.
Variable libm_pow10 : float -> float.

(** X23.  After a match created by the handler between pairwise distinct
    players, the winner's row holds the old rating plus the returned
    winner delta and each loser's row the old rating plus the returned
    delta of the same position (binary64 sums written to the REAL column,
    which holds the sum as computed whenever the old rating is a value
    that a REAL column can hold, that is, not -0.0), each with one more
    game played; every other lookup answers as before. *)
Theorem create_match_ratings :
  forall (uuid : nat -> string) (now : float) (winner : string)
         (loser_ids : list string) (date : string) (s s1 : Ledger)
         (mid : string) (delta_w : float) (deltas_l : list float),
    create_match libm_pow10 uuid now winner loser_ids date s
    = (MatchCreated mid delta_w deltas_l, s1) ->
    NoDup (winner :: loser_ids) ->
    (exists w, get_player winner s = Some w
               /\ get_player winner s1
                  = Some (mkPlayer (p_id w) (p_name w)
                                   (real_column (rating w + delta_w)%float)
                                   (games_played w + 1) (p_created_at w))
               /\ (real_column (rating w) = rating w ->
                   real_column (rating w + delta_w)%float = (rating w + delta_w)%float))
    /\ (forall i lid, nth_error loser_ids i = Some lid ->
          exists l d, get_player lid s = Some l /\ nth_error deltas_l i = Some d
                      /\ get_player lid s1
                         = Some (mkPlayer (p_id l) (p_name l)
                                          (real_column (rating l + d)%float)
                                          (games_played l + 1) (p_created_at l))
                      /\ (real_column (rating l) = rating l ->
                          real_column (rating l + d)%float = (rating l + d)%float))
    /\ (forall pid, ~ In pid (winner :: loser_ids) ->
                    get_player pid s1 = get_player pid s).
Proof.
  intros uuid now winner loser_ids date s s1 mid delta_w deltas_l H Hnd.
  unfold create_match in H.
  destruct (String.eqb winner "" || _ || String.eqb date ""); [discriminate|].
  destruct (create_match_try_cases libm_pow10 uuid now winner loser_ids date s)
    as [[Hr _]|(w & losers & Hw & Hl
                & [(e & Hr & _)|(dw & dls & data & mid' & s1' & Hcalc & Hdata & Hrec & Hr)])];
    cbn zeta in Hr; rewrite Hr in H; try discriminate.
  injection H as -> -> -> ->.
  pose proof (proj1 (lookup_losers_spec s loser_ids) losers Hl) as Hlosers.
  pose proof (calculate_deltas_outcome libm_pow10 (rating w) (map rating losers)
                                       (get_k_factor s)) as Hlen.
  rewrite Hcalc, length_map in Hlen.
  destruct (losers_update_data_ok losers deltas_l 0) as (data' & Hd' & Hall & Hnth);
    [cbn; lia|].
  rewrite Hdata in Hd'. injection Hd' as <-.
  assert (Hids : map l_id data = loser_ids).
  { clear - Hlosers Hall. revert data Hall.
    induction Hlosers as [|lid l lids ls Hget _ IH]; intros data Hall;
      inversion Hall as [|? d ? ds Hd Hds]; subst; [reflexivity|].
    cbn. f_equal; [|now apply IH].
    destruct Hd as [-> _]. now apply get_player_some in Hget. }
  set (es := participants winner delta_w (rating w + delta_w)%float data).
  assert (Hps : players s1 = map (recorded es) (players s)).
  { apply record_match_commit in Hrec. destruct Hrec as (_ & _ & Hp & _).
    rewrite Hp. apply map_ext. intros p. apply fold_apply_recorded.
    unfold es, participants. cbn [map fst]. rewrite map_map. cbn [fst].
    change (NoDup (winner :: map l_id data)). now rewrite Hids. }
  assert (Hget : forall pid, get_player pid s1 = option_map (recorded es) (get_player pid s)).
  { intros pid. unfold get_player. rewrite Hps. apply find_recorded. }
  apply NoDup_cons_iff in Hnd. destruct Hnd as [Hwl Hndl].
  split; [|split].
  - exists w. split; [exact Hw|]. split; [|apply real_column_add_stored].
    rewrite Hget, Hw. cbn [option_map]. f_equal.
    apply get_player_some in Hw. destruct Hw as [_ Hwid].
    unfold recorded, es, participants. cbn [find fst]. now rewrite Hwid, String.eqb_refl.
  - intros i lid Hi.
    destruct (Forall2_nth _ _ _ Hlosers i lid Hi) as (l & Hli & Hgl).
    destruct (Forall2_nth _ _ _ Hall i l Hli) as (d & Hdi & Hdid & Hold & Hnew).
    exists l, (l_delta d). split; [exact Hgl|]. split; [exact (Hnth i d Hdi)|].
    split; [|apply real_column_add_stored].
    rewrite Hget, Hgl. cbn [option_map]. f_equal.
    apply get_player_some in Hgl. destruct Hgl as [_ Hlid].
    assert (Hin : In lid loser_ids) by (apply nth_error_In in Hi; exact Hi).
    assert (Hne : String.eqb (p_id l) winner = false).
    { apply String.eqb_neq. rewrite Hlid. intros ->. contradiction. }
    unfold recorded, es, participants. cbn [find fst]. rewrite Hne.
    rewrite <- Hdid. rewrite (find_entry data d); [now rewrite Hnew|now rewrite Hids|].
    now apply nth_error_In in Hdi.
  - intros pid Hnot. rewrite Hget. destruct (get_player pid s) as [p|] eqn:Ep; [|reflexivity].
    cbn [option_map]. f_equal. apply get_player_some in Ep. destruct Ep as [_ Hpid].
    unfold recorded. rewrite find_entry_none; [reflexivity|].
    unfold es, participants. cbn [map fst]. rewrite map_map. cbn [fst].
    change (~ In (p_id p) (winner :: map l_id data)). now rewrite Hids, Hpid.
Qed.
End Effect.

End Handler.

(** ** The range of the expected score and the signs of the deltas *)

Module Scores.
Import Magnitude Binary64.

Lemma prim_one : Prim2SF 1%float = S754_finite false 4503599627370496 (-52).
Proof. reflexivity. Qed.

(** The floats that compare as at least 0.0. *)
Lemma nonneg_cases (x : spec_float) :
  SFleb (S754_zero false) x = true ->
  (exists s, x = S754_zero s) \/ (exists m e, x = S754_finite false m e)
  \/ x = S754_infinity false.
Proof.
  destruct x as [s|[|]| |[|] m e]; cbn; try discriminate; intros _.
  - left. now exists s.
  - right. now right.
  - right. left. now exists m, e.
Qed.

Lemma sign_false_nonneg (x : spec_float) :
  sign_is false x -> SFleb (S754_zero false) x = true.
Proof. destruct x as [s|s| |s m e]; cbn; intros H; subst; try contradiction; reflexivity. Qed.

(** [1.0 + p] for [p >= 0] is at least 1. *)
Lemma one_plus_nonneg (p : spec_float) :
  SFleb (S754_zero false) p = true ->
  at_least 1 (SFadd prec emax (S754_finite false 4503599627370496 (-52)) p)
  /\ sign_is false (SFadd prec emax (S754_finite false 4503599627370496 (-52)) p).
Proof.
  intros H. destruct (nonneg_cases p H) as [[s ->]|[(m & e & ->)| ->]].
  - cbn. split; [lia | reflexivity].
  - cbn [SFadd]. set (ez := Z.min (-52) e).
    pose proof (shl_align_spec 4503599627370496 (-52) ez) as H1.
    pose proof (shl_align_spec m e ez) as H2.
    destruct (shl_align 4503599627370496 (-52) ez) as [a ea].
    destruct (shl_align m e ez) as [b eb]. destruct H1 as [Hea Ha], H2 as [Heb Hb].
    cbn [fst cond_Zopp Z.add binary_normalize].
    split; [|apply binary_round_sign].
    apply binary_round_at_least. split; [lia|].
    assert (Hez : ea = ez) by (unfold ez in *; lia).
    assert (Hapow : Zpos a = 2 ^ (- ez)).
    { rewrite Ha, Hez. change 4503599627370496 with (2 ^ 52).
      rewrite <- Z.pow_add_r by (unfold ez; lia). f_equal. lia. }
    pose proof (Zdigits2_mono (Zpos a) (Zpos (a + b)) ltac:(lia)) as Hd.
    rewrite Hapow, Zdigits2_pow2 in Hd by (unfold ez; lia). lia.
  - cbn. split; [exact I | reflexivity].
Qed.

(** [1.0 / x] for [x >= 1] lies in [0, 1]. *)
Lemma SFdiv_one_by_large (m2 : positive) (e2 : Z) :
  1 <= Zdigits2 (Zpos m2) + e2 ->
  finite_below (2 ^ 52) (-52)
    (SFdiv prec emax (S754_finite false 4503599627370496 (-52)) (S754_finite false m2 e2))
  /\ sign_is false
       (SFdiv prec emax (S754_finite false 4503599627370496 (-52))
              (S754_finite false m2 e2)).
Proof.
  intros Hx. cbn [SFdiv xorb]. unfold SFdiv_core_binary.
  change (Zdigits2 4503599627370496) with 53.
  set (d2 := Zdigits2 (Zpos m2)) in *.
  pose proof (Zdigits2_spec (Zpos m2) ltac:(lia)) as [Hm1 Hm2]. fold d2 in Hm1, Hm2.
  set (e' := Z.min (fexp prec emax (53 + -52 - (d2 + e2))) (-52 - e2)).
  assert (He' : e' <= -53 /\ e' <= -52 - e2).
  { unfold e'. rewrite fexp_unfold. lia. }
  destruct He' as [He53 Hes].
  set (s := -52 - e2 - e').
  assert (Hs : 0 <= s) by (unfold s; lia).
  set (m' := match s with
             | 0 => 4503599627370496
             | Zpos _ => Z.shiftl 4503599627370496 s
             | Zneg _ => 0
             end).
  assert (Hm' : m' = 2 ^ (- e2 - e')).
  { unfold m'. change 4503599627370496 with (2 ^ 52).
    replace (- e2 - e') with (52 + s) by (unfold s; lia).
    destruct s as [|ps|ps] eqn:Es; try lia.
    rewrite Z.shiftl_mul_pow2 by lia. now rewrite Z.pow_add_r by lia. }
  assert (Hbig : m' <= 2 ^ (- e') * Zpos m2).
  { rewrite Hm'. destruct (Z_le_gt_dec e2 0) as [Hneg|Hpos].
    - replace (- e2 - e') with (- e' + - e2) by lia. rewrite Z.pow_add_r by lia.
      apply Z.mul_le_mono_nonneg_l; [apply Z.pow_nonneg; lia|].
      apply Z.le_trans with (2 ^ (d2 - 1)); [apply Z.pow_le_mono_r; lia | exact Hm1].
    - apply Z.le_trans with (2 ^ (- e')); [apply Z.pow_le_mono_r; lia|].
      pose proof (Z.pow_pos_nonneg 2 (- e') ltac:(lia) ltac:(lia)). nia. }
  pose proof (Z.div_eucl_eq m' (Zpos m2) ltac:(lia)) as Heq.
  pose proof (Z.mod_pos_bound m' (Zpos m2) ltac:(lia)) as Hmod.
  unfold Z.modulo in Hmod.
  destruct (Z.div_eucl m' (Zpos m2)) as [q r].
  assert (Hm'pos : 0 < m') by (rewrite Hm'; apply Z.pow_pos_nonneg; lia).
  assert (Hpow : 0 < 2 ^ (- e')) by (apply Z.pow_pos_nonneg; lia).
  assert (Hq0 : 0 <= q) by nia.
  assert (Hqle : q <= 2 ^ (- e')) by nia.
  assert (Hbound : 2 ^ 52 * 2 ^ (-52 - e') = 2 ^ (- e')).
  { rewrite <- Z.pow_add_r by lia. f_equal. lia. }
  split; [|now apply binary_round_aux_sign].
  apply binary_round_aux_good; [unfold prec; lia | unfold emax, prec; lia | lia|].
  unfold room. rewrite Hbound.
  destruct (new_location_exact (Zpos m2) r) as [->|[Hr [c ->]]].
  - cbn. repeat split; try lia; try discriminate.
  - assert (Hlt : q + 1 <= 2 ^ (- e')) by nia.
    destruct c; cbn; repeat split; lia.
Qed.

Lemma is_zero_spec (x : float) :
  PrimFloat.is_zero x = SFeqb (Prim2SF x) (S754_zero false).
Proof. unfold PrimFloat.is_zero. now rewrite eqb_spec. Qed.

(** [1.0 / (1.0 + p)] for [p >= 0]: no division by zero, and a quotient
    between 0.0 and 1.0. *)
Lemma score_of_nonneg (p : float) :
  (0 <=? p)%float = true ->
  Elo.truediv 1 (1 + p)%float = Ok (1 / (1 + p))%float
  /\ finite_below (2 ^ 52) (-52) (Prim2SF (1 / (1 + p))%float)
  /\ sign_is false (Prim2SF (1 / (1 + p))%float).
Proof.
  intros Hp. rewrite leb_spec in Hp. change (Prim2SF 0%float) with (S754_zero false) in Hp.
  destruct (one_plus_nonneg (Prim2SF p) Hp) as [Hge Hsign].
  unfold Elo.truediv. rewrite is_zero_spec, div_spec, add_spec, prim_one.
  unfold SF64div, SF64add.
  destruct (SFadd prec emax (S754_finite false 4503599627370496 (-52)) (Prim2SF p))
    as [s|s| |s m e]; try contradiction; cbn in Hsign; subst s.
  - cbn. repeat split; lia.
  - cbn [at_least] in Hge. destruct (SFdiv_one_by_large m e Hge) as [Hb Hs].
    split; [reflexivity|]. now split.
Qed.

Lemma sign_true_nonpos (x : spec_float) :
  sign_is true x -> SFleb x (S754_zero false) = true.
Proof. destruct x as [s|s| |s m e]; cbn; intros H; subst; try contradiction; reflexivity. Qed.

(** [1.0 - e] for [e] in [0, 1] is in [0, 1] again. *)
Lemma one_minus_unit (e : spec_float) :
  finite_below (2 ^ 52) (-52) e -> sign_is false e ->
  finite_below (2 ^ 52) (-52) (SFsub prec emax (S754_finite false 4503599627370496 (-52)) e)
  /\ sign_is false (SFsub prec emax (S754_finite false 4503599627370496 (-52)) e).
Proof.
  intros Hb Hs. destruct e as [s|s| |s m e]; try contradiction; cbn in Hs; subst s.
  - cbn. repeat split; lia.
  - cbn [finite_below] in Hb. destruct Hb as [He Hm]. cbn [SFsub].
    set (ez := Z.min (-52) e).
    pose proof (shl_align_spec 4503599627370496 (-52) ez) as H1.
    pose proof (shl_align_spec m e ez) as H2.
    destruct (shl_align 4503599627370496 (-52) ez) as [a ea].
    destruct (shl_align m e ez) as [b eb]. destruct H1 as [Hea Ha], H2 as [Heb Hb].
    cbn [fst cond_Zopp].
    assert (Hez : ez = e) by (unfold ez; lia).
    assert (Hea' : ea = e) by lia. assert (Heb' : eb = e) by lia.
    rewrite Hea' in Ha. rewrite Heb', Z.sub_diag, Z.mul_1_r in Hb.
    change 4503599627370496 with (2 ^ 52) in Ha.
    destruct (Zpos a - Zpos b) as [|M|M] eqn:EM; cbn [binary_normalize]; try lia.
    + now split.
    + rewrite Hez. split; [|apply binary_round_sign].
      apply binary_round_good; [unfold prec; lia | unfold emax, prec; lia|].
      split; lia.
Qed.

(** [0.0 - e] for [e >= 0] is +0.0 or negative. *)
Lemma zero_minus_nonneg (e : spec_float) :
  finite_below (2 ^ 52) (-52) e -> sign_is false e ->
  SFsub prec emax (S754_zero false) e = S754_zero false
  \/ exists m x, SFsub prec emax (S754_zero false) e = S754_finite true m x.
Proof.
  intros Hb Hs. destruct e as [s|s| |s m e]; try contradiction; cbn in Hs; subst s.
  - now left.
  - right. now exists m, e.
Qed.

(** A finite [k >= 0] is a zero or a positive finite float. *)
Lemma finite_nonneg_cases (k : float) :
  (0 <=? k)%float = true -> PrimFloat.is_infinity k = false ->
  (exists s, Prim2SF k = S754_zero s) \/ (exists m e, Prim2SF k = S754_finite false m e).
Proof.
  rewrite leb_spec, is_infinity_spec. change (Prim2SF 0%float) with (S754_zero false).
  intros H Hinf. destruct (nonneg_cases _ H) as [[s Hk]|[(m & e & Hk)|Hk]].
  - left. now exists s.
  - right. now exists m, e.
  - rewrite Hk in Hinf. discriminate.
Qed.

Lemma win_delta_nonneg (k e : float) :
  (0 <=? k)%float = true -> PrimFloat.is_infinity k = false ->
  finite_below (2 ^ 52) (-52) (Prim2SF e) -> sign_is false (Prim2SF e) ->
  (0 <=? k * (1 - e))%float = true.
Proof.
  intros Hk Hinf Hb Hs. rewrite leb_spec, mul_spec, sub_spec, prim_one.
  change (Prim2SF 0%float) with (S754_zero false). unfold SF64mul, SF64sub.
  destruct (one_minus_unit (Prim2SF e) Hb Hs) as [Hdb Hds].
  destruct (SFsub prec emax (S754_finite false 4503599627370496 (-52)) (Prim2SF e))
    as [sd|sd| |sd md ed]; try contradiction; cbn in Hds; subst sd;
    destruct (finite_nonneg_cases k Hk Hinf) as [[s ->]|(m & x & ->)]; cbn [SFmul xorb];
    try reflexivity.
  apply sign_false_nonneg. apply binary_round_aux_sign. lia.
Qed.

Lemma loss_delta_nonpos (k e : float) :
  (0 <=? k)%float = true -> PrimFloat.is_infinity k = false ->
  finite_below (2 ^ 52) (-52) (Prim2SF e) -> sign_is false (Prim2SF e) ->
  (k * (0 - e) <=? 0)%float = true.
Proof.
  intros Hk Hinf Hb Hs. rewrite leb_spec, mul_spec, sub_spec.
  change (Prim2SF 0%float) with (S754_zero false). unfold SF64mul, SF64sub.
  destruct (zero_minus_nonneg (Prim2SF e) Hb Hs) as [->|(md & ed & ->)];
    destruct (finite_nonneg_cases k Hk Hinf) as [[s ->]|(m & x & ->)]; cbn [SFmul xorb];
    try reflexivity.
  apply sign_true_nonpos. apply binary_round_aux_sign. lia.
Qed.

Lemma add_nonneg (x y : float) :
  (0 <=? x)%float = true -> (0 <=? y)%float = true -> (0 <=? x + y)%float = true.
Proof.
  rewrite !leb_spec, add_spec. change (Prim2SF 0%float) with (S754_zero false).
  unfold SF64add. intros Hx Hy.
  destruct (nonneg_cases _ Hx) as [[sx ->]|[(mx & ex & ->)| ->]];
    destruct (nonneg_cases _ Hy) as [[sy ->]|[(my & ey & ->)| ->]];
    cbn [SFadd]; try reflexivity.
  - now destruct sx, sy.
  - destruct (shl_align mx ex (Z.min ex ey)) as [a ea].
    destruct (shl_align my ey (Z.min ex ey)) as [b eb].
    cbn [fst cond_Zopp Z.add binary_normalize].
    apply sign_false_nonneg. apply binary_round_sign.
Qed.

Section Engine.
Variable libm_pow10 : float -> float.

Lemma expected_score_unit (a b p : float) :
  Elo.math_pow10 libm_pow10 ((b - a) / 400)%float = Ok p -> (0 <=? p)%float = true ->
  Elo.expected_score libm_pow10 a b = Ok (1 / (1 + p))%float
  /\ finite_below (2 ^ 52) (-52) (Prim2SF (1 / (1 + p))%float)
  /\ sign_is false (Prim2SF (1 / (1 + p))%float).
Proof.
  intros Hpow Hp. unfold Elo.expected_score. rewrite Hpow. cbn [rbind].
  exact (score_of_nonneg p Hp).
Qed.

(** X24.  Whenever [math.pow] returns a value that is not negative (as
    the power of 10 is), [expected_score] returns without a division by
    zero, and the score lies between 0.0 and 1.0. *)
Theorem expected_score_range :
  forall (a b p : float),
    Elo.math_pow10 libm_pow10 ((b - a) / 400)%float = Ok p ->
    (0 <=? p)%float = true ->
    exists e, Elo.expected_score libm_pow10 a b = Ok e
              /\ (0 <=? e)%float = true /\ (e <=? 1)%float = true.
Proof.
  intros a b p Hpow Hp. destruct (expected_score_unit a b p Hpow Hp) as (He & Hb & Hs).
  exists (1 / (1 + p))%float. split; [exact He|].
  rewrite !leb_spec, prim_one. change (Prim2SF 0%float) with (S754_zero false).
  split; [now apply (SFleb_zero_nonneg _ (2 ^ 52) (-52)) | now apply SFleb_below].
Qed.

Lemma calculate_deltas_from_signs (w k : float) :
  (0 <=? k)%float = true -> PrimFloat.is_infinity k = false ->
  forall (ls : list float) (wd : float) (lds : list float),
    (forall lr, In lr ls ->
       exists p q, Elo.math_pow10 libm_pow10 ((lr - w) / 400)%float = Ok p
                   /\ (0 <=? p)%float = true
                   /\ Elo.math_pow10 libm_pow10 ((w - lr) / 400)%float = Ok q
                   /\ (0 <=? q)%float = true) ->
    (0 <=? wd)%float = true -> Forall (fun d => (d <=? 0)%float = true) lds ->
    exists dw dls,
      Elo.calculate_deltas_from libm_pow10 w k ls wd lds = Ok (dw, dls)
      /\ (0 <=? dw)%float = true /\ Forall (fun d => (d <=? 0)%float = true) dls.
Proof.
  intros Hk Hinf. induction ls as [|lr ls IH]; intros wd lds Hpow Hwd Hlds;
    cbn [Elo.calculate_deltas_from].
  - exists wd, lds. now repeat split.
  - destruct (Hpow lr (or_introl eq_refl)) as (p & q & Hp & Hp0 & Hq & Hq0).
    destruct (expected_score_unit w lr p Hp Hp0) as (-> & Hb1 & Hs1).
    destruct (expected_score_unit lr w q Hq Hq0) as (-> & Hb2 & Hs2).
    cbn [rbind]. apply IH.
    + intros x Hx. apply Hpow. now right.
    + apply add_nonneg; [exact Hwd | now apply win_delta_nonneg].
    + apply Forall_app. split; [exact Hlds|]. constructor; [|constructor].
      now apply loss_delta_nonpos.
Qed.

(** X25.  With a finite K-factor that is not negative, and [math.pow]
    returning values that are not negative for the rating gaps of the
    match, [calculate_deltas] returns, the winner's delta is not negative
    and no loser's delta is positive. *)
Theorem calculate_deltas_signs :
  forall (winner_rating : float) (loser_ratings : list float) (k_factor : float),
    (0 <=? k_factor)%float = true -> PrimFloat.is_infinity k_factor = false ->
    (forall lr, In lr loser_ratings ->
       exists p q,
         Elo.math_pow10 libm_pow10 ((lr - winner_rating) / 400)%float = Ok p
         /\ (0 <=? p)%float = true
         /\ Elo.math_pow10 libm_pow10 ((winner_rating - lr) / 400)%float = Ok q
         /\ (0 <=? q)%float = true) ->
    exists winner_delta loser_deltas,
      Elo.calculate_deltas libm_pow10 winner_rating loser_ratings k_factor
      = Ok (winner_delta, loser_deltas)
      /\ (0 <=? winner_delta)%float = true
      /\ Forall (fun d => (d <=? 0)%float = true) loser_deltas.
Proof.
  intros w ls k Hk Hinf Hpow. unfold Elo.calculate_deltas.
  apply calculate_deltas_from_signs; try assumption; [reflexivity | constructor].
Qed.
End Engine.

Section Equal.
Variable libm_pow10 : float -> float.
Hypothesis pow10_zero : libm_pow10 0%float = 1%float.

(** X26.  On a C library whose [pow(10.0, 0.0)] is 1.0, a match between
    players of one and the same finite rating takes exactly [k * 0.5] from
    every loser and gives the winner the float sum of as many [k * 0.5]. *)
Theorem equal_ratings_deltas :
  forall (r k : float) (n : nat),
    PrimFloat.is_nan r = false -> PrimFloat.is_infinity r = false ->
    Elo.calculate_deltas libm_pow10 r (repeat r n) k
    = Ok (Spec.fsum (repeat (k * 0.5)%float n), repeat (k * -0.5)%float n).
Proof.
  intros r k n Hnan Hinf. unfold Elo.calculate_deltas.
  rewrite EloFacts.calculate_deltas_from_spec.
  rewrite (EloFacts.map_result_total _ (fun _ => ((k * 0.5)%float, (k * -0.5)%float))).
  - cbn [rbind app]. now rewrite !map_map, !map_repeat.
  - intros lr Hlr. apply repeat_spec in Hlr. subst lr. unfold Spec.pair_deltas.
    rewrite (Symmetry.expected_score_equal libm_pow10 pow10_zero r Hnan Hinf).
    reflexivity.
Qed.
End Equal.

End Scores.

(** ** Symmetry of the expected score within a tolerance *)

Module Tolerance.
Import Stdlib.Reals.Reals Stdlib.micromega.Lra.
Import Magnitude Binary64 RealValue Rounding.
Local Open Scope R_scope.

Lemma Rabs_bounds (x b : R) : Rabs x <= b <-> - b <= x <= b.
Proof.
  split; [|apply Rabs_le]. unfold Rabs. destruct (Rcase_abs x); lra.
Qed.

Lemma pow2_opp (k : Z) : pow2 (- k) = / pow2 k.
Proof. unfold pow2. apply powerRZ_neg'. Qed.

Lemma u_value : pow2 (-53) = / 9007199254740992.
Proof.
  change (-53)%Z with (Z.opp 53). rewrite pow2_opp, pow2_IZR by lia.
  now replace (2 ^ 53)%Z with 9007199254740992%Z by reflexivity.
Qed.

Lemma tiny_value (k : Z) :
  (k <= -100)%Z -> 0 < pow2 k <= / 1267650600228229401496703205376.
Proof.
  intros Hk. split; [apply pow2_pos|].
  apply Rle_trans with (pow2 (-100)); [now apply pow2_le|].
  change (-100)%Z with (Z.opp 100). rewrite pow2_opp, pow2_IZR by lia.
  replace (2 ^ 100)%Z with 1267650600228229401496703205376%Z by reflexivity. lra.
Qed.

(** *** The reciprocal of a rounded sum *)

Lemma recip_bound (u eta A S X : R) :
  0 <= u <= / 8 -> 0 <= eta <= / 8 -> 1 <= A ->
  Rabs (S - A) <= u * A + eta ->
  Rabs (X - / S) <= u * / S + eta ->
  Rabs (X - / A) <= 4 * u * / A + 3 * eta.
Proof.
  intros Hu Heta HA HS HX. apply Rabs_bounds in HS. apply Rabs_bounds.
  assert (HA0 : 0 < A) by lra.
  assert (HT : / A * A = 1) by (apply Rinv_l; lra).
  pose proof (Rinv_0_lt_compat A HA0) as HT0. set (T := / A) in *.
  assert (HuA : u * A <= A / 8) by nra.
  assert (HS2 : A / 2 <= S) by lra.
  assert (HS0 : 0 < S) by lra.
  assert (HV : / S * S = 1) by (apply Rinv_l; lra).
  pose proof (Rinv_0_lt_compat S HS0) as HV0. set (V := / S) in *.
  apply Rabs_bounds in HX.
  assert (HT1 : T <= 1) by nra.
  assert (HVA : V * A <= 2) by nra.
  assert (HVAT : V * A * T = V) by (rewrite Rmult_assoc, (Rmult_comm A T), HT; ring).
  assert (HVT : V <= 2 * T) by nra.
  assert (Hd : V - T = (A - S) * (V * T)).
  { transitivity (V * (T * A) - T * (V * S)); [rewrite HT, HV; ring | ring]. }
  assert (HVT0 : 0 <= V * T) by nra.
  assert (HVT2 : V * T <= 2) by nra.
  assert (Hd1 : (A - S) * (V * T) <= (u * A + eta) * (V * T)) by nra.
  assert (Hd2 : - ((u * A + eta) * (V * T)) <= (A - S) * (V * T)) by nra.
  assert (HuV : (u * A) * (V * T) = u * V).
  { transitivity (u * (V * A * T)); [ring | now rewrite HVAT]. }
  assert (HuV2 : u * V <= 2 * u * T) by nra.
  assert (HeVT : eta * (V * T) <= 2 * eta) by nra.
  assert (Hsplit : (u * A + eta) * (V * T) = u * V + eta * (V * T)).
  { rewrite Rmult_plus_distr_r, HuV. reflexivity. }
  split; lra.
Qed.

(** *** The floats of the engine as real numbers *)

Lemma SF2R_one : SF2R (S754_finite false 4503599627370496 (-52)) = 1.
Proof.
  cbn [SF2R cond_Zopp]. change (-52)%Z with (Z.opp 52). rewrite pow2_opp, pow2_IZR by lia.
  replace (2 ^ 52)%Z with 4503599627370496%Z by reflexivity. lra.
Qed.

Lemma positive_finite (p : float) :
  0 < to_R p ->
  exists m e, Prim2SF p = S754_finite false m e /\ to_R p = IZR (Zpos m) * pow2 e.
Proof.
  unfold to_R. destruct (Prim2SF p) as [s|s| |[|] m e]; cbn [SF2R cond_Zopp Z.opp];
    intros H; try lra.
  - exfalso. pose proof (pow2_pos e). assert (IZR (Zneg m) < 0) by (apply IZR_lt; lia). nra.
  - now exists m, e.
Qed.

(** A float that is +0.0 or a positive finite number. *)
Lemma nonneg_value (x : spec_float) :
  x = S754_zero false \/ (exists m e, x = S754_finite false m e) -> 0 <= SF2R x.
Proof.
  intros [->|(m & e & ->)]; cbn [SF2R cond_Zopp]; [lra|].
  pose proof (pow2_pos e). assert (0 < IZR (Zpos m)) by (apply IZR_lt; lia). nra.
Qed.

Lemma score_error (p : float) (mp : positive) (ep : Z) :
  Prim2SF p = S754_finite false mp ep ->
  exists x,
    Elo.truediv 1 (1 + p)%float = Ok x
    /\ (Prim2SF x = S754_zero false \/ exists m e, Prim2SF x = S754_finite false m e)
    /\ Rabs (to_R x - / (1 + IZR (Zpos mp) * pow2 ep))
       <= 4 * pow2 (-53) * / (1 + IZR (Zpos mp) * pow2 ep) + pow2 (-1023).
Proof.
  intros Hp. set (P := IZR (Zpos mp) * pow2 ep).
  assert (HP : 0 < P).
  { unfold P. pose proof (pow2_pos ep). assert (0 < IZR (Zpos mp)) by (apply IZR_lt; lia).
    nra. }
  pose proof u_value as Hu. pose proof (tiny_value (-1075) ltac:(lia)) as Heta.
  pose proof (tiny_value (-1023) ltac:(lia)) as Hzeta.
  assert (Hez : 3 * pow2 (-1075) <= pow2 (-1023)).
  { pose proof (pow2_le (-1073) (-1023) ltac:(lia)) as Hle.
    replace (-1073)%Z with ((-1075 + 1) + 1)%Z in Hle by lia.
    rewrite !pow2_succ in Hle. pose proof (pow2_pos (-1075)). lra. }
  assert (HT0 : 0 < / (1 + P)) by (apply Rinv_0_lt_compat; lra).
  pose proof (SFadd_pos_rounded 4503599627370496 mp (-52) ep) as Hadd.
  fold P in Hadd. change (IZR (Zpos 4503599627370496) * pow2 (-52))
    with (SF2R (S754_finite false 4503599627370496 (-52))) in Hadd.
  rewrite SF2R_one in Hadd.
  exists (1 / (1 + p))%float. unfold Elo.truediv.
  rewrite Scores.is_zero_spec. unfold to_R. rewrite div_spec, add_spec, Scores.prim_one, Hp.
  unfold SF64div, SF64add.
  destruct (SFadd prec emax (S754_finite false 4503599627370496 (-52))
                  (S754_finite false mp ep)) as [s|s| |s m e];
    cbn [rounded] in Hadd; try contradiction; destruct Hadd as [-> Hadd].
  - exfalso. rewrite Hu in Hadd. lra.
  - split; [reflexivity|]. cbn [SFdiv xorb SF2R]. split; [now left|].
    assert (HA : pow2 1023 <= 1 + P).
    { replace 1024%Z with (1023 + 1)%Z in Hadd by lia. rewrite pow2_succ, Hu in Hadd.
      pose proof (pow2_ge_1 1023 ltac:(lia)). lra. }
    apply Rabs_bounds. rewrite Hu.
    assert (Hinv : / (1 + P) <= pow2 (-1023)).
    { change (-1023)%Z with (Z.opp 1023). rewrite pow2_opp.
      apply Rinv_le_contravar; [apply pow2_pos | exact HA]. }
    split; lra.
  - split; [reflexivity|].
    pose proof (SFdiv_pos_rounded 4503599627370496 m (-52) e) as Hdiv.
    change (IZR (Zpos 4503599627370496) * pow2 (-52))
      with (SF2R (S754_finite false 4503599627370496 (-52))) in Hdiv.
    rewrite SF2R_one in Hdiv. unfold Rdiv in Hdiv. rewrite Rmult_1_l in Hdiv.
    set (S := IZR (Zpos m) * pow2 e) in *.
    assert (HS : / 2 <= S) by (apply Rabs_bounds in Hadd; rewrite Hu in Hadd; lra).
    assert (HV : / S <= 2).
    { replace 2 with (/ / 2) by lra. apply Rinv_le_contravar; lra. }
    assert (HV0 : 0 < / S) by (apply Rinv_0_lt_compat; lra).
    assert (Hbound : forall X, Rabs (X - / S) <= pow2 (-53) * / S + pow2 (-1075) ->
               Rabs (X - / (1 + P)) <= 4 * pow2 (-53) * / (1 + P) + pow2 (-1023)).
    { intros X HX.
      pose proof (recip_bound (pow2 (-53)) (pow2 (-1075)) (1 + P) S X
                    ltac:(rewrite Hu; lra) ltac:(lra) ltac:(lra) Hadd HX) as H.
      lra. }
    destruct (SFdiv prec emax (S754_finite false 4503599627370496 (-52))
                    (S754_finite false m e)) as [s|s| |s m' e'];
      cbn [rounded] in Hdiv; try contradiction; destruct Hdiv as [-> Hdiv].
    + split; [now left|]. cbn [SF2R]. apply Hbound. apply Rabs_bounds. lra.
    + exfalso. pose proof (pow2_le 2 1024 ltac:(lia)) as H4.
      rewrite (pow2_IZR 2) in H4 by lia. rewrite Hu in Hdiv.
      replace (2 ^ 2)%Z with 4%Z in H4 by reflexivity. lra.
    + split; [right; now exists m', e'|]. cbn [SF2R cond_Zopp]. now apply Hbound.
Qed.

Lemma SFeqb_refl_nonneg (x : spec_float) :
  x = S754_zero false \/ (exists m e, x = S754_finite false m e) ->
  SFeqb x x = true /\ SFeqb (SFabs x) (S754_infinity false) = false.
Proof.
  intros [->|(m & e & ->)]; [now split|]. split; [|reflexivity].
  unfold SFeqb, SFcompare. rewrite Z.compare_refl.
  change (Pos.compare_cont Eq m m) with (Pos.compare m m). now rewrite Pos.compare_refl.
Qed.

Lemma is_finite_nonneg (x : float) :
  Prim2SF x = S754_zero false \/ (exists m e, Prim2SF x = S754_finite false m e) ->
  PrimFloat.is_finite x = true.
Proof.
  intros H. unfold PrimFloat.is_finite. rewrite is_nan_spec, is_infinity_spec.
  destruct (SFeqb_refl_nonneg _ H) as [-> ->]. reflexivity.
Qed.

(** The sum of two floats that are not negative, when it stays small. *)
Lemma sum_error (x y : float) :
  Prim2SF x = S754_zero false \/ (exists m e, Prim2SF x = S754_finite false m e) ->
  Prim2SF y = S754_zero false \/ (exists m e, Prim2SF y = S754_finite false m e) ->
  to_R x + to_R y <= 3 ->
  (Prim2SF (x + y) = S754_zero false
   \/ exists m e, Prim2SF (x + y) = S754_finite false m e)
  /\ Rabs (to_R (x + y) - (to_R x + to_R y))
     <= pow2 (-53) * (to_R x + to_R y) + pow2 (-1075).
Proof.
  intros Hx Hy Hsum.
  pose proof (nonneg_value _ Hx) as Hx0. pose proof (nonneg_value _ Hy) as Hy0.
  pose proof u_value as Hu. pose proof (tiny_value (-1075) ltac:(lia)) as Heta.
  unfold to_R in *. rewrite add_spec. unfold SF64add.
  destruct Hx as [Ex|(mx & ex & Ex)], Hy as [Ey|(my & ey & Ey)]; rewrite Ex, Ey in *.
  - cbn [SFadd SF2R]. split; [now left|]. apply Rabs_bounds. rewrite Hu. lra.
  - cbn [SFadd]. split; [right; now exists my, ey|]. apply Rabs_bounds.
    cbn [SF2R] in *. rewrite Hu. lra.
  - cbn [SFadd]. split; [right; now exists mx, ex|]. apply Rabs_bounds.
    cbn [SF2R] in *. rewrite Hu. lra.
  - pose proof (SFadd_pos_rounded mx my ex ey) as Hadd. cbn [SF2R cond_Zopp] in *.
    destruct (SFadd prec emax (S754_finite false mx ex) (S754_finite false my ey))
      as [s|s| |s m e]; cbn [rounded] in Hadd; try contradiction;
      destruct Hadd as [-> Hadd].
    + split; [now left|]. cbn [SF2R]. apply Rabs_bounds. lra.
    + exfalso. pose proof (pow2_le 2 1024 ltac:(lia)) as H4.
      rewrite (pow2_IZR 2) in H4 by lia. rewrite Hu in Hadd.
      replace (2 ^ 2)%Z with 4%Z in H4 by reflexivity. lra.
    + split; [right; now exists m, e|]. exact Hadd.
Qed.

Section Engine.
Variable libm_pow10 : float -> float.

(** Whatever positive values [math.pow] returns for the two exponents, the
    two scores are returned and their binary64 sum is as close to 1 as the
    product of the two powers is, up to [2^-49]. *)
Lemma expected_score_sum (a b p q : float) :
  Elo.math_pow10 libm_pow10 ((b - a) / 400)%float = Ok p ->
  Elo.math_pow10 libm_pow10 ((a - b) / 400)%float = Ok q ->
  0 < to_R p -> 0 < to_R q ->
  exists x y,
    Elo.expected_score libm_pow10 a b = Ok x
    /\ Elo.expected_score libm_pow10 b a = Ok y
    /\ PrimFloat.is_finite (x + y) = true
    /\ Rabs (to_R (x + y) - 1) <= Rabs (to_R p * to_R q - 1) + pow2 (-49).
Proof.
  intros Hpow Hqow Hp0 Hq0.
  destruct (positive_finite p Hp0) as (mp & ep & Hp & HP).
  destruct (positive_finite q Hq0) as (mq & eq & Hq & HQ).
  destruct (score_error p mp ep Hp) as (x & Hx & Hxn & Hxe).
  destruct (score_error q mq eq Hq) as (y & Hy & Hyn & Hye).
  rewrite <- HP in Hxe. rewrite <- HQ in Hye.
  exists x, y. unfold Elo.expected_score. rewrite Hpow, Hqow. cbn [rbind].
  split; [exact Hx|]. split; [exact Hy|].
  set (P := to_R p) in *. set (Q := to_R q) in *.
  pose proof u_value as Hu. pose proof (tiny_value (-1075) ltac:(lia)) as Heta.
  pose proof (tiny_value (-1023) ltac:(lia)) as Hzeta.
  assert (H49 : pow2 (-49) = / 562949953421312).
  { change (-49)%Z with (Z.opp 49). rewrite pow2_opp, pow2_IZR by lia.
    now replace (2 ^ 49)%Z with 562949953421312%Z by reflexivity. }
  assert (HT1 : / (1 + P) * (1 + P) = 1) by (apply Rinv_l; lra).
  assert (HT2 : / (1 + Q) * (1 + Q) = 1) by (apply Rinv_l; lra).
  pose proof (Rinv_0_lt_compat (1 + P) ltac:(lra)) as HT10.
  pose proof (Rinv_0_lt_compat (1 + Q) ltac:(lra)) as HT20.
  set (T1 := / (1 + P)) in *. set (T2 := / (1 + Q)) in *.
  assert (HT1le : T1 <= 1) by nra. assert (HT2le : T2 <= 1) by nra.
  pose proof (nonneg_value _ Hxn) as HX0. pose proof (nonneg_value _ Hyn) as HY0.
  fold (to_R x) in HX0. fold (to_R y) in HY0.
  apply Rabs_bounds in Hxe, Hye. rewrite Hu in Hxe, Hye.
  assert (Hsum3 : to_R x + to_R y <= 3) by lra.
  destruct (sum_error x y Hxn Hyn Hsum3) as [Hwn Hwe].
  split; [now apply is_finite_nonneg|].
  apply Rabs_bounds in Hwe. rewrite Hu in Hwe.
  pose proof (proj1 (Rabs_bounds (P * Q - 1) _) (Rle_refl _)) as HE.
  set (E := Rabs (P * Q - 1)) in *.
  assert (HT12 : 0 <= T1 * T2 <= 1) by nra.
  assert (Hid : T1 + T2 - 1 = (1 - P * Q) * (T1 * T2)).
  { transitivity (T1 * (T2 * (1 + Q)) + T2 * (T1 * (1 + P))
                  - (T1 * (1 + P)) * (T2 * (1 + Q))); [rewrite HT1, HT2; ring|].
    transitivity ((1 + Q + (1 + P) - (1 + P) * (1 + Q)) * (T1 * T2)); [ring | ring]. }
  assert (HE0 : 0 <= E) by lra.
  assert (Hexact : - E <= T1 + T2 - 1 <= E) by (rewrite Hid; nra).
  apply Rabs_bounds. rewrite H49. lra.
Qed.
End Engine.

Lemma positive_value (x : float) (m : positive) (e : Z) :
  Prim2SF x = S754_finite false m e -> 0 < to_R x.
Proof.
  intros H. unfold to_R. rewrite H. cbn [SF2R cond_Zopp].
  pose proof (pow2_pos e). assert (0 < IZR (Zpos m)) by (apply IZR_lt; lia). nra.
Qed.

Lemma infinity_not_nan (r : float) :
  PrimFloat.is_infinity r = true -> PrimFloat.is_nan r = false.
Proof.
  rewrite is_infinity_spec, is_nan_spec.
  destruct (Prim2SF r) as [s|[|]| |s m e]; cbn; congruence.
Qed.

Section Overflow.
Variable libm_pow10 : float -> float.

(** [expected_score] raises OverflowError exactly when the exponent is
    finite and the C function returns an infinity for it. *)
Lemma expected_score_overflow (a b : float) :
  Elo.expected_score libm_pow10 a b = Raise OverflowError
  <-> PrimFloat.is_nan ((b - a) / 400)%float = false
      /\ PrimFloat.is_infinity ((b - a) / 400)%float = false
      /\ PrimFloat.is_infinity (libm_pow10 ((b - a) / 400)%float) = true.
Proof.
  unfold Elo.expected_score, Elo.math_pow10.
  set (y := ((b - a) / 400)%float).
  destruct (PrimFloat.is_nan y).
  { split; [intros H; vm_compute in H; discriminate | intros [H _]; discriminate]. }
  destruct (PrimFloat.is_infinity y).
  { split; [|intros (_ & H & _); discriminate].
    destruct (0 <? y)%float; intros H; vm_compute in H; discriminate. }
  destruct (PrimFloat.is_infinity (libm_pow10 y)) eqn:Hinf.
  - rewrite (infinity_not_nan _ Hinf). now split.
  - split; [|intros (_ & _ & H); discriminate].
    destruct (PrimFloat.is_nan (libm_pow10 y)); cbn [rbind]; [discriminate|].
    unfold Elo.truediv. destruct (PrimFloat.is_zero _); discriminate.
Qed.
End Overflow.

(** C8 (amended).  For equal finite ratings [expected_score] returns
    exactly 0.5, on any C library whose [pow(10.0, 0.0)] is 1.0, so the two
    scores add up to exactly 1.0.  For other ratings the two scores add up
    to 1 within a tolerance: whenever [math.pow] returns positive values
    [p] and [q] for the two exponents, both calls return, the binary64 sum
    of the two scores is finite, and it differs from 1 by at most
    [|p * q - 1| + 2^-49], the product being the exact one of the two
    floats.  [expected_score] raises OverflowError exactly when its
    exponent is finite and the C function returns an infinity for it. *)
Theorem expected_score_symmetry :
  (forall (libm_pow10 : float -> float) (a : float),
      libm_pow10 0%float = 1%float ->
      PrimFloat.is_nan a = false -> PrimFloat.is_infinity a = false ->
      Elo.expected_score libm_pow10 a a = Ok 0.5%float
      /\ (x <- Elo.expected_score libm_pow10 a a ;;
          y <- Elo.expected_score libm_pow10 a a ;;
          Ok (x + y)%float)%py = Ok 1%float)
  /\ (forall (libm_pow10 : float -> float) (a b p q : float),
        Elo.math_pow10 libm_pow10 ((b - a) / 400)%float = Ok p ->
        Elo.math_pow10 libm_pow10 ((a - b) / 400)%float = Ok q ->
        0 < to_R p -> 0 < to_R q ->
        exists x y,
          Elo.expected_score libm_pow10 a b = Ok x
          /\ Elo.expected_score libm_pow10 b a = Ok y
          /\ PrimFloat.is_finite (x + y) = true
          /\ Rabs (to_R (x + y) - 1) <= Rabs (to_R p * to_R q - 1) + pow2 (-49))
  /\ (forall (libm_pow10 : float -> float) (a b : float),
        Elo.expected_score libm_pow10 a b = Raise OverflowError
        <-> PrimFloat.is_nan ((b - a) / 400)%float = false
            /\ PrimFloat.is_infinity ((b - a) / 400)%float = false
            /\ PrimFloat.is_infinity (libm_pow10 ((b - a) / 400)%float) = true).
Proof.
  split; [|split].
  - intros libm a H0 Hnan Hinf.
    rewrite (Symmetry.expected_score_equal libm H0 a Hnan Hinf). now split.
  - exact expected_score_sum.
  - exact expected_score_overflow.
Qed.

End Tolerance.

(** ** The win rate at its ends *)

Module Rates.
Import Database FlaskApp.

Lemma div_eucl_exact (a b : Z) : 0 < b -> Z.div_eucl (b * a) b = (a, 0).
Proof.
  intros Hb. pose proof (Z.div_mul a b ltac:(lia)) as Hd.
  pose proof (Z.mod_mul a b ltac:(lia)) as Hm.
  rewrite (Z.mul_comm a b) in Hd, Hm. unfold Z.div, Z.modulo in Hd, Hm.
  destruct (Z.div_eucl (b * a) b) as [q r]. cbn in Hd, Hm. now subst.
Qed.

(** An integer divided by itself is exactly 1.0. *)
Lemma int_truediv_self (n : Z) : 0 < n -> int_truediv n n = Ok 1%float.
Proof.
  intros Hn. unfold int_truediv.
  assert (Hnz : (n =? 0) = false) by (apply Z.eqb_neq; lia). rewrite Hnz.
  destruct n as [|n|n]; try lia. cbn [exact_int SFdiv xorb].
  unfold SFdiv_core_binary.
  replace (Zdigits2 (Zpos n) + 0 - (Zdigits2 (Zpos n) + 0)) with 0 by lia.
  change (Z.min (fexp prec emax 0) (0 - 0)) with (-53).
  change (0 - 0 - -53) with 53. cbv iota.
  rewrite Z.shiftl_mul_pow2 by lia. rewrite div_eucl_exact by lia.
  assert (Hloc : new_location (Zpos n) 0 = loc_Exact).
  { unfold new_location, new_location_even, new_location_odd.
    now destruct (Z.even (Zpos n)). }
  rewrite Hloc. reflexivity.
Qed.

Lemma int_truediv_zero (n : Z) : 0 < n -> int_truediv 0 n = Ok 0%float.
Proof.
  intros Hn. unfold int_truediv.
  assert (Hnz : (n =? 0) = false) by (apply Z.eqb_neq; lia). rewrite Hnz.
  destruct n as [|n|n]; try lia. reflexivity.
Qed.

(** X27.  The win rate of a player who won every game of a non-empty
    history is exactly 100.0, and of one who won none exactly 0.0. *)
Theorem win_rate_extremes :
  forall (first : HistoryRow) (rest : list HistoryRow),
    (Forall (fun m => h_is_winner m = 1) (first :: rest) ->
     win_rate (first :: rest) = Ok (PyFloat 100))
    /\ (Forall (fun m => h_is_winner m <> 1) (first :: rest) ->
        win_rate (first :: rest) = Ok (PyFloat 0)).
Proof.
  intros first rest. set (history := first :: rest).
  assert (Htot : 0 < total_games history) by (unfold total_games; cbn; lia).
  unfold win_rate. rewrite (proj2 (Z.ltb_lt _ _) Htot). split; intros Hall.
  - assert (Hw : wins history = total_games history).
    { unfold wins, total_games. f_equal. f_equal. apply Reversal.filter_absent.
      intros m Hm. apply Z.eqb_eq. exact (proj1 (Forall_forall _ _) Hall m Hm). }
    rewrite Hw, (int_truediv_self _ Htot). reflexivity.
  - assert (Hw : wins history = 0).
    { unfold wins. rewrite Reversal.filter_none; [reflexivity|].
      intros m Hm. apply Z.eqb_neq. exact (proj1 (Forall_forall _ _) Hall m Hm). }
    rewrite Hw, (int_truediv_zero _ Htot). reflexivity.
Qed.

End Rates.

(** ** What the histories show *)

Module Shown.
Import Database Spec DatabaseFacts Invariant Consistency Operations Reachable
       History Histories FlaskApp Handler.

Lemma filter_length_perm {A} (f : A -> bool) (l l' : list A) :
  Permutation l l' -> List.length (filter f l) = List.length (filter f l').
Proof.
  induction 1 as [|x l l' _ IH|x y l|l l' l'' _ IH1 _ IH2]; cbn.
  - reflexivity.
  - destruct (f x); cbn; now rewrite IH.
  - destruct (f x), (f y); reflexivity.
  - now rewrite IH1.
Qed.

(** The wins counted on a player's history are the player's stored
    winner rows. *)
Lemma wins_as_rows (pid : string) (s : Ledger) :
  foreign_keys_hold s -> NoDup (map m_id (matches s)) ->
  wins (get_player_history pid s)
  = Z.of_nat (List.length
                (filter (fun pa => String.eqb (player_id pa) pid && (is_winner pa =? 1))
                        (participations s))).
Proof.
  intros [_ Hfk] Hnd. unfold wins. f_equal. unfold get_player_history.
  rewrite <- (filter_length_perm _ _ _ (Ordering.sort_desc_perm h_date String.ltb _)).
  induction (participations s) as [|pa pas IH]; [reflexivity|].
  cbn [flat_map filter]. rewrite filter_app, length_app, IH
    by (intros x Hx; apply Hfk; now right).
  destruct (String.eqb (player_id pa) pid); cbn [andb]; [|reflexivity].
  destruct (Hfk pa (or_introl eq_refl)) as [Hm _]. apply has_match_iff in Hm.
  destruct Hm as [m [Hm Hid]]. rewrite <- Hid.
  rewrite (filter_by_key m_id (matches s) m Hnd Hm). cbn [map filter h_is_winner].
  now destruct (is_winner pa =? 1).
Qed.

(** In a consistent ledger the winner rows of a player and the matches
    the player has won are as many. *)
Lemma winner_rows_count (pid : string) (s : Ledger) :
  consistent s ->
  List.length (filter (fun pa => String.eqb (player_id pa) pid && (is_winner pa =? 1))
                      (participations s))
  = List.length (filter (fun m => String.eqb (winner_id m) pid) (matches s)).
Proof.
  intros ([_ Hfk] & (_ & _ & Hmu & Hpau) & [Hw _]).
  set (rows := filter (fun pa => String.eqb (player_id pa) pid && (is_winner pa =? 1))
                      (participations s)).
  set (won := filter (fun m => String.eqb (winner_id m) pid) (matches s)).
  rewrite <- (length_map match_id rows), <- (length_map m_id won).
  apply Permutation_length. apply NoDup_Permutation.
  - apply Finite.Injective_map_NoDup_in.
    + intros x y Hx Hy Heq. unfold rows in Hx, Hy. apply filter_In in Hx, Hy.
      destruct Hx as [Hx Hxw], Hy as [Hy Hyw].
      apply andb_true_iff in Hxw, Hyw. destruct Hxw as [_ Hxw], Hyw as [_ Hyw].
      destruct (Hfk x Hx) as [Hm _]. apply has_match_iff in Hm.
      destruct Hm as [m [Hm Hid]]. destruct (Hw m Hm) as [pa0 [Hrows _]].
      assert (Hx0 : In x (winner_rows m s)).
      { unfold winner_rows. apply filter_In. split; [exact Hx|].
        now rewrite Hid, String.eqb_refl, Hxw. }
      assert (Hy0 : In y (winner_rows m s)).
      { unfold winner_rows. apply filter_In. split; [exact Hy|].
        now rewrite <- Heq, Hid, String.eqb_refl, Hyw. }
      rewrite Hrows in Hx0, Hy0. destruct Hx0 as [<-|[]], Hy0 as [<-|[]]. reflexivity.
    + apply NoDup_filter. now apply NoDup_map_inv in Hpau.
  - now apply NoDup_map_filter.
  - intros mid. rewrite !in_map_iff. split.
    + intros [pa [<- Hpa]]. unfold rows in Hpa. apply filter_In in Hpa.
      destruct Hpa as [Hpa Hcond]. apply andb_true_iff in Hcond.
      destruct Hcond as [Hpl Hwin]. apply String.eqb_eq in Hpl.
      destruct (Hfk pa Hpa) as [Hm _]. apply has_match_iff in Hm.
      destruct Hm as [m [Hm Hid]]. exists m. split; [exact Hid|].
      apply filter_In. split; [exact Hm|]. apply String.eqb_eq.
      destruct (Hw m Hm) as [pa0 [Hrows Hpl0]].
      assert (H0 : In pa (winner_rows m s)).
      { unfold winner_rows. apply filter_In. split; [exact Hpa|].
        now rewrite Hid, String.eqb_refl, Hwin. }
      rewrite Hrows in H0. destruct H0 as [<-|[]]. congruence.
    + intros [m [<- Hm]]. unfold won in Hm. apply filter_In in Hm.
      destruct Hm as [Hm Hwon]. apply String.eqb_eq in Hwon.
      destruct (Hw m Hm) as [pa0 [Hrows Hpl0]].
      assert (H0 : In pa0 (winner_rows m s)) by (rewrite Hrows; now left).
      unfold winner_rows in H0. apply filter_In in H0. destruct H0 as [Hin Hcond].
      apply andb_true_iff in Hcond. destruct Hcond as [Hid Hwin].
      apply String.eqb_eq in Hid. exists pa0. split; [exact Hid|].
      apply filter_In. split; [exact Hin|].
      rewrite Hwin, andb_true_r. apply String.eqb_eq. congruence.
Qed.

(** X28.  In every reachable ledger the wins counted on a player's page
    are exactly the stored matches whose winner is that player. *)
Theorem reachable_wins :
  forall (ops : list Op) (pid : string),
    wins (get_player_history pid (run ops))
    = Z.of_nat (List.length (filter (fun m => String.eqb (winner_id m) pid)
                                    (matches (run ops)))).
Proof.
  intros ops pid. pose proof (run_consistent ops) as Hc.
  rewrite wins_as_rows; [|apply Hc|apply Hc].
  f_equal. now apply winner_rows_count.
Qed.

(** X29.  After a [delete_match] that commits, the match shows neither in
    the list of matches nor in any player's history. *)
Theorem deleted_match_hidden :
  forall (mid : string) (s s' : Ledger),
    delete_match mid s = (Ok tt, s') ->
    (forall row, In row (get_matches_history s') -> ms_id row <> mid)
    /\ (forall pid h, In h (get_player_history pid s') -> h_match_id h <> mid).
Proof.
  intros mid s s' H. apply delete_match_commit in H. destruct H as (_ & Hms & Hpas & _).
  split.
  - intros row Hrow. apply in_matches_history in Hrow.
    destruct Hrow as (m & w & Hm & _ & _ & -> & _). rewrite Hms in Hm.
    apply filter_In in Hm. destruct Hm as [_ Hne].
    now apply negb_true_iff, String.eqb_neq in Hne.
  - intros pid h Hh. apply in_player_history in Hh.
    destruct Hh as (pa & m & Hpa & _ & _ & _ & ->). cbn [h_match_id].
    rewrite Hpas in Hpa. apply filter_In in Hpa. destruct Hpa as [_ Hne].
    now apply negb_true_iff, String.eqb_neq in Hne.
Qed.

Lemma matches_history_has (s : Ledger) (m : Match) (w : Player) (p : Participation)
    (l : Player) :
  In (m, w, p, l) (joined_rows s) ->
  exists row, In row (get_matches_history s) /\ ms_id row = m_id m.
Proof.
  intros Hr. unfold get_matches_history.
  assert (Hk : In (m_id m) (sort_desc (fun k => k) String.ltb
                              (nodup string_dec
                                 (map (fun r => m_id (jr_match r)) (joined_rows s))))).
  { apply in_sort_desc, nodup_In. apply in_map_iff. exists (m, w, p, l). now split. }
  destruct (filter (fun r => String.eqb (m_id (jr_match r)) (m_id m)) (joined_rows s))
    as [|r group] eqn:Hg.
  - exfalso.
    assert (Hin : In (m, w, p, l)
                     (filter (fun r => String.eqb (m_id (jr_match r)) (m_id m))
                             (joined_rows s))).
    { apply filter_In. split; [exact Hr|]. cbn. apply String.eqb_refl. }
    rewrite Hg in Hin. exact Hin.
  - eexists. split.
    + apply in_sort_desc. apply in_flat_map. exists (m_id m). split; [exact Hk|].
      rewrite Hg. left. reflexivity.
    + reflexivity.
Qed.

Lemma nth_enumerate {A} (l : list A) :
  forall (k i : nat) (x : A),
    nth_error l i = Some x -> In ((k + i)%nat, x) (enumerate k l).
Proof.
  induction l as [|y l IH]; intros k [|i] x H; cbn in H; try discriminate.
  - injection H as <-. rewrite Nat.add_0_r. now left.
  - right. rewrite Nat.add_succ_r. apply (IH (S k) i x H).
Qed.

Section Created.
Variable libm_pow10 : float -> float.

(** X30.  A match created by the handler shows at once: in the winner's
    history with the winner flag, the returned delta and the new rating;
    in each loser's history with the delta of the same position and the
    loser's new rating; and in the list of matches.  The deltas and
    ratings show as the REAL columns hold them: a returned delta of -0.0
    (every loser's delta under a K-factor of 0.0) shows as +0.0. *)
Theorem created_match_shown :
  forall (uuid : nat -> string) (now : float) (winner : string)
         (loser_ids : list string) (date : string) (s s1 : Ledger)
         (mid : string) (delta_w : float) (deltas_l : list float),
    create_match libm_pow10 uuid now winner loser_ids date s
    = (MatchCreated mid delta_w deltas_l, s1) ->
    (exists w, get_player winner s = Some w
               /\ In (mkHistoryRow mid date 1 (real_column delta_w)
                                   (real_column (rating w + delta_w)%float))
                     (get_player_history winner s1))
    /\ (forall i lid, nth_error loser_ids i = Some lid ->
          exists l d, get_player lid s = Some l /\ nth_error deltas_l i = Some d
                      /\ In (mkHistoryRow mid date 0 (real_column d)
                                          (real_column (rating l + d)%float))
                            (get_player_history lid s1))
    /\ (exists row, In row (get_matches_history s1) /\ ms_id row = mid).
Proof.
  intros uuid now winner loser_ids date s s1 mid delta_w deltas_l H.
  unfold create_match in H.
  destruct (String.eqb winner "" || _ || String.eqb date "") eqn:Efields; [discriminate|].
  destruct (create_match_try_cases libm_pow10 uuid now winner loser_ids date s)
    as [[Hr _]|(w & losers & Hw & Hl
                & [(e & Hr & _)|(dw & dls & data & mid' & s1' & Hcalc & Hdata & Hrec & Hr)])];
    cbn zeta in Hr; rewrite Hr in H; try discriminate.
  injection H as -> -> -> ->.
  pose proof (proj1 (lookup_losers_spec s loser_ids) losers Hl) as Hlosers.
  pose proof (calculate_deltas_outcome libm_pow10 (rating w) (map rating losers)
                                       (get_k_factor s)) as Hlen.
  rewrite Hcalc, length_map in Hlen.
  destruct (losers_update_data_ok losers deltas_l 0) as (data' & Hd' & Hall & Hnth);
    [cbn; lia|].
  rewrite Hdata in Hd'. injection Hd' as <-.
  apply record_match_commit in Hrec.
  destruct Hrec as (_ & _ & Hps & Hms & Hpas & _).
  set (m := mkMatch mid date (real_column (get_k_factor s)) winner (real_column now)) in *.
  assert (Hm : In m (matches s1)) by (rewrite Hms; apply in_or_app; right; now left).
  assert (Hloser : forall i lid, nth_error loser_ids i = Some lid ->
            exists l d, get_player lid s = Some l /\ nth_error data i = Some d
                        /\ l_id d = lid /\ l_new_rating d = (rating l + l_delta d)%float
                        /\ nth_error deltas_l i = Some (l_delta d)
                        /\ In (loser_row uuid mid ((2 + i)%nat, d)) (participations s1)).
  { intros i lid Hi.
    destruct (Forall2_nth _ _ _ Hlosers i lid Hi) as (l & Hli & Hgl).
    destruct (Forall2_nth _ _ _ Hall i l Hli) as (d & Hdi & Hdid & Hold & Hnew).
    exists l, d. split; [exact Hgl|]. split; [exact Hdi|].
    apply get_player_some in Hgl. split; [destruct Hgl; congruence|].
    split; [exact Hnew|]. split; [exact (Hnth i d Hdi)|].
    rewrite Hpas. apply in_or_app. right. right. apply in_map.
    now apply nth_enumerate. }
  split; [|split].
  - exists w. split; [exact Hw|]. apply in_player_history.
    exists (Spec.winner_row uuid mid winner delta_w (rating w + delta_w)%float), m.
    split; [rewrite Hpas; apply in_or_app; right; now left|]. now repeat split.
  - intros i lid Hi. destruct (Hloser i lid Hi) as (l & d & Hgl & _ & Hid & Hnew & Hd & Hin).
    exists l, (l_delta d). split; [exact Hgl|]. split; [exact Hd|].
    apply in_player_history. exists (loser_row uuid mid ((2 + i)%nat, d)), m.
    split; [exact Hin|]. split; [exact Hm|]. cbn. rewrite Hnew. now repeat split.
  - destruct loser_ids as [|lid0 lids].
    { destruct (String.eqb winner ""), (String.eqb date ""); discriminate Efields. }
    destruct (Hloser 0%nat lid0 eq_refl) as (l & d & Hgl & _ & Hid & _ & _ & Hin).
    assert (Hstill : forall p, In p (players s) ->
              exists p', In p' (players s1) /\ p_id p' = p_id p).
    { intros p Hp. rewrite Hps. eexists. split; [apply in_map; exact Hp|].
      apply Reversal.p_id_fold_apply. }
    apply get_player_some in Hw, Hgl.
    destruct (Hstill w (proj1 Hw)) as (w' & Hw' & Hwid).
    destruct (Hstill l (proj1 Hgl)) as (l' & Hl' & Hlid).
    apply (matches_history_has s1 m w' (loser_row uuid mid (2%nat, d)) l').
    apply in_joined_rows. repeat split; try assumption.
    + cbn. destruct Hw. congruence.
    + cbn. destruct Hgl. congruence.
Qed.
End Created.

End Shown.

(** ** The properties at sample inputs *)

Module Checks.
Import Stdlib.Reals.Reals.
Import Database Spec Sample.
Local Open Scope string_scope.

Lemma delete_match_failure_witness :
  snd (delete_match "nope" (two_players 32)) = two_players 32.
Proof.
  apply (proj2 (Deletion.delete_match_failure "nope" (two_players 32))
               (ValueError "Match not found")).
  reflexivity.
Defined.

(** Matches of one date are listed by descending id, a player's rows of
    one date in the order they were stored. *)
Lemma histories_same_date :
  map ms_id (get_matches_history (run same_day)) = ["n0"; "m0"]
  /\ map h_match_id (get_player_history "B" (run same_day)) = ["m0"; "n0"].
Proof. vm_compute. now split. Qed.

Lemma get_matches_history_needs_loser_witness :
  exists row, In row (get_matches_history
                        (snd (record_a_beats_b "m" 3 "2024-01-01" 1200 32 (two_players 32))))
              /\ ms_id row = "m0"%string.
Proof.
  apply (proj2 (History.get_matches_history_needs_loser _ "m0")).
  exists (mkMatch "m0" "2024-01-01" 32 "A" 3),
         (mkPlayer "A" "alice" 1216 1 1),
         (mkParticipation "m2" "m0" "B" 0 1200 1184 (-16)),
         (mkPlayer "B" "bob" 1184 1 2).
  vm_compute. intuition.
Defined.

(** Recording a match between two new players under K = 32 and reversing it
    at once gives the ledger back.  A match recorded with a new rating of
    -0.0 and a delta of +0.0 for both players leaves both rated +0.0 when
    it is reversed. *)
Lemma record_then_delete_witness :
  delete_match "m0" (snd (record_a_beats_b "m" 3 "2024-01-01" 1200 32 (two_players 32)))
  = (Ok tt, two_players 32)
  /\ delete_match "m0"
       (snd (record_match (uuids "m") 3 "2024-01-01" "A" ["B"] 0 (-0)
                          [mkLoserData "B" 0 (-0) 1200] (two_players 32)))
     = (Ok tt, mkLedger [mkPlayer "A" "alice" 0 0 1; mkPlayer "B" "bob" 0 0 2] [] []
                        (Some 32%float)).
Proof.
  split.
  - refine (proj2 (Reversal.record_then_delete (uuids "m") 3 "2024-01-01" "A" ["B"]
                     16 1216 [mkLoserData "B" (-16) 1184 1200]
                     (two_players 32) _ "m0" _ _ _) _).
    + split; intros ? [].
    + repeat constructor; cbn; intuition discriminate.
    + vm_compute. reflexivity.
    + intros p [<-|[<-|[]]]; vm_compute; reflexivity.
  - refine (proj1 (Reversal.record_then_delete (uuids "m") 3 "2024-01-01" "A" ["B"]
                     0 (-0) [mkLoserData "B" 0 (-0) 1200]
                     (two_players 32) _ "m0" _ _ _)).
    + split; intros ? [].
    + repeat constructor; cbn; intuition discriminate.
    + vm_compute. reflexivity.
Defined.

(** C1, counterexample.  Under K = 1696.4 the winner of a match between two
    new players moves from 1200 to 2048.2; reversing the match at once
    leaves 1199.9999999999998.  Under K = 32, a winner rated 1023.9 is left
    at 1023.9000000000001.  games_played is back to 0 in both. *)
Lemma record_then_delete_inexact :
  (let s := two_players 1696.4 in
   let r := record_a_beats_b "m" 3 "2024-01-01" 1200 1696.4 s in
   let u := delete_match "m0" (snd r) in
   fst r = Ok "m0"%string /\ fst u = Ok tt
   /\ map rating (players s) = [1200; 1200]%float
   /\ map rating (players (snd r)) = [2048.1999999999998; 351.79999999999995]%float
   /\ map rating (players (snd u)) = [1199.9999999999998; 1200]%float
   /\ map games_played (players (snd u)) = [0; 0]
   /\ PrimFloat.eqb 1199.9999999999998 1200 = false)
  /\ (let s := near_1024 in
      let r := record_a_beats_b "m" 3 "2024-01-01" 1023.9 32 s in
      let u := delete_match "m0" (snd r) in
      fst r = Ok "m0"%string /\ fst u = Ok tt
      /\ map rating (players s) = [1023.9; 1023.9]%float
      /\ map rating (players (snd r)) = [1039.9000000000001; 1007.9]%float
      /\ map rating (players (snd u)) = [1023.9000000000001; 1023.9]%float
      /\ map games_played (players (snd u)) = [0; 0]
      /\ PrimFloat.eqb 1023.9000000000001 1023.9 = false).
Proof. vm_compute. repeat split. Qed.



Lemma delete_player_cascade_witness :
  exists s', delete_player "A" (run winner_deleted) = (Ok tt, s').
Proof.
  destruct (Deletion.delete_player_cascade "A" (run winner_deleted)) as [s' [H _]].
  exists s'. exact H.
Defined.

(** The engine on the scenario of two players rated 1200 under K = 32. *)
Lemma calculate_deltas_spec_witness :
  Elo.calculate_deltas Elo.pow10_ref 1200 [1200%float] 32
  = Ok (fsum (map (fun lr => (32 * (1 - 0.5))%float) [1200%float]),
        map (fun lr => (32 * (0 - 0.5))%float) [1200%float]).
Proof.
  apply (proj1 (proj2 (EloFacts.calculate_deltas_spec Elo.pow10_ref 1200 [1200%float] 32))
               (fun _ _ => 0.5%float)).
  intros lr [<-|[]]. split; vm_compute; reflexivity.
Defined.

(** C3, counterexample.  With a loser rated 200000 points above the winner,
    [math.pow(10, 500.0)] overflows and [calculate_deltas] raises
    OverflowError instead of returning; the loser list is not empty. *)
Lemma calculate_deltas_overflow :
  Elo.calculate_deltas Elo.pow10_ref 0 [200000%float] 32 = Raise OverflowError
  /\ ((200000 - 0) / 400)%float = 500%float
  /\ Elo.math_pow10 Elo.pow10_ref 500 = Raise OverflowError.
Proof. vm_compute. repeat split. Qed.

Lemma leaderboard_threshold_clamp_witness :
  leaderboard_threshold
    (max_games_played (mkPlayer "A" "alice" 1200 0 1) [mkPlayer "B" "bob" 1200 0 2])
  = Ok (Z.min 15 (Z.max 5
          (max_games_played (mkPlayer "A" "alice" 1200 0 1) [mkPlayer "B" "bob" 1200 0 2]
           / 5))).
Proof.
  refine (proj1 (proj2 (proj2
            (Leaderboard.leaderboard_threshold_clamp (two_players 32)
               (mkPlayer "A" "alice" 1200 0 1) [mkPlayer "B" "bob" 1200 0 2] _ _)))).
  - reflexivity.
  - intros p [<-|[<-|[]]]; cbn; lia.
Defined.

(** The rows of a match between two new players under K = 32, and under
    K = 0.0, where the loser's delta is computed as -0.0 and held as
    +0.0. *)
Lemma recorded_rows_witness :
  participations (snd (record_a_beats_b "m" 3 "2024-01-01" 1200 32 (two_players 32)))
  = (participations (two_players 32)
       ++ [mkParticipation "m1" "m0" "A" 1 (1216 - 16) 1216 16;
           mkParticipation "m2" "m0" "B" 0 1200 1184 (-16)])%list
  /\ Prim2SF (0 * (0 - 0.5))%float = S754_zero true
  /\ participations (snd (record_a_beats_b "m" 3 "2024-01-01" 1200 0 (two_players 0)))
     = (participations (two_players 0)
          ++ [mkParticipation "m1" "m0" "A" 1 1200 1200 0;
              mkParticipation "m2" "m0" "B" 0 1200 1200 0])%list.
Proof.
  split; [|split; [reflexivity|]].
  - refine (proj1 (proj1 Rows.recorded_rows (uuids "m") 3%float "2024-01-01" "A" ["B"]
                     16%float 1216%float [mkLoserData "B" (-16) 1184 1200]
                     (two_players 32) _ "m0" _)).
    vm_compute. reflexivity.
  - refine (proj1 (proj1 Rows.recorded_rows (uuids "m") 3%float "2024-01-01" "A" ["B"]
                     (0 * (1 - 0.5))%float (1200 + 0 * (1 - 0.5))%float
                     [mkLoserData "B" (0 * (0 - 0.5)) (1200 + 0 * (0 - 0.5)) 1200]
                     (two_players 0) _ "m0" _)).
    vm_compute. reflexivity.
Defined.

(** C7, counterexample.  Under K = 0.2 a match between two new players has
    deltas of 0.1 and -0.1; the stored rows have rating_after minus
    rating_before equal to 0.099999999999909051 and -0.099999999999909051. *)
Lemma recorded_rows_inexact :
  let r := record_a_beats_b "m" 3 "2024-01-01" 1200 0.2 (two_players 0.2) in
  fst r = Ok "m0"
  /\ map (fun pa => (is_winner pa, rating_before pa, rating_after pa, rating_delta pa,
                     (rating_after pa - rating_before pa)%float))
         (participations (snd r))
     = [(1, 1200%float, 1200.0999999999999%float, 0.10000000000000001%float,
         0.099999999999909051%float);
        (0, 1200%float, 1199.9000000000001%float, (-0.10000000000000001)%float,
         (-0.099999999999909051)%float)]
  /\ PrimFloat.eqb 0.099999999999909051 0.10000000000000001 = false.
Proof. vm_compute. repeat split. Qed.

(** Equal ratings of 1200, and ratings 1200 apart, where the reference
    [pow] gives 1000.0 and the float next to 0.001. *)
Lemma expected_score_symmetry_witness :
  (Elo.expected_score Elo.pow10_ref 1200 1200 = Ok 0.5%float
   /\ (x <- Elo.expected_score Elo.pow10_ref 1200 1200 ;;
       y <- Elo.expected_score Elo.pow10_ref 1200 1200 ;;
       Ok (x + y)%float)%py = Ok 1%float)
  /\ (exists x y,
        Elo.expected_score Elo.pow10_ref 1000 2200 = Ok x
        /\ Elo.expected_score Elo.pow10_ref 2200 1000 = Ok y
        /\ PrimFloat.is_finite (x + y) = true
        /\ (Rabs (RealValue.to_R (x + y) - 1)
            <= Rabs (RealValue.to_R 1000 * RealValue.to_R 0x1.0624dd2f1a9fcp-10 - 1)
               + RealValue.pow2 (-49))%R).
Proof.
  split.
  - apply (proj1 Tolerance.expected_score_symmetry Elo.pow10_ref 1200%float);
      reflexivity.
  - apply (proj1 (proj2 Tolerance.expected_score_symmetry) Elo.pow10_ref
             1000%float 2200%float 1000%float 0x1.0624dd2f1a9fcp-10%float).
    + vm_compute. reflexivity.
    + vm_compute. reflexivity.
    + eapply Tolerance.positive_value. reflexivity.
    + eapply Tolerance.positive_value. reflexivity.
Defined.

(** C8, counterexample.  For ratings 1000 and 2200 the two scores are
    0.000999000999000999 and 0.99900099900099915 and add up to
    1.0000000000000002; for ratings 0 and 200000 the first call raises
    OverflowError. *)
Lemma expected_score_sum_inexact :
  (Elo.expected_score Elo.pow10_ref 1000 2200 = Ok 0.000999000999000999%float
   /\ Elo.expected_score Elo.pow10_ref 2200 1000 = Ok 0.99900099900099915%float
   /\ (0.000999000999000999 + 0.99900099900099915)%float = 1.0000000000000002%float
   /\ PrimFloat.eqb 1.0000000000000002 1 = false)
  /\ Elo.expected_score Elo.pow10_ref 0 200000 = Raise OverflowError.
Proof. vm_compute. repeat split. Qed.

(** Two wins in three games. *)
Lemma win_rate_range_witness :
  exists q, int_truediv 2 3 = Ok q
            /\ FlaskApp.win_rate two_wins_in_three = Ok (PyFloat (q * 100)%float)
            /\ (0 <=? q)%float = true /\ (q <=? 1)%float = true
            /\ (0 <=? q * 100)%float = true
            /\ (q * 100 <=? 100)%float = true.
Proof.
  apply (proj2 (proj2 (proj2 (Stats.win_rate_range two_wins_in_three)))). discriminate.
Defined.

Import Consistency PlayerPage.

Lemma create_player_lookup_witness :
  get_player "C" (snd (create_player "C" 3 "carol" (two_players 32)))
  = Some (mkPlayer "C" "carol" 1200 0 3).
Proof.
  refine (proj1 (proj2 (Operations.create_player_lookup "C" 3 "carol" (two_players 32)
                          (snd (create_player "C" 3 "carol" (two_players 32))) "C" _))).
  vm_compute. reflexivity.
Defined.

Lemma delete_player_unknown_witness :
  delete_player "Z" (two_players 32) = (Ok tt, two_players 32).
Proof.
  apply Operations.delete_player_unknown.
  - split; intros ? [].
  - reflexivity.
Defined.

Lemma delete_match_players_witness :
  participations (two_players 32)
  = filter (fun pa => negb (String.eqb (match_id pa) "m0")) (participations a_beat_b).
Proof.
  refine (proj1 (proj2 (Operations.delete_match_players "m0" a_beat_b (two_players 32) _))).
  vm_compute. reflexivity.
Defined.

Lemma delete_match_twice_witness :
  delete_match "m0" (two_players 32)
  = (Raise (ValueError "Match not found"), two_players 32).
Proof.
  apply (Operations.delete_match_twice "m0" a_beat_b). vm_compute. reflexivity.
Defined.

(** The player rows after "A" beat "B" under K = 32; under a K-factor of
    -0.0 the match row is stamped +0.0. *)
Lemma record_match_players_witness :
  players a_beat_b
  = [mkPlayer "A" "alice" 1216 1 1; mkPlayer "B" "bob" 1184 1 2]
  /\ matches (snd (record_a_beats_b "m" 3 "2024-01-01" 1200 (-0) (two_players (-0))))
     = [mkMatch "m0" "2024-01-01" 0 "A" 3].
Proof.
  split.
  - refine (proj1 (proj2 (proj2
              (Operations.record_match_players (uuids "m") 3 "2024-01-01" "A" ["B"]
                 16 1216 [mkLoserData "B" (-16) 1184 1200]
                 (two_players 32) a_beat_b "m0" _ _)))).
    + vm_compute. reflexivity.
    + repeat constructor; cbn; intuition discriminate.
  - refine (proj1 (proj2
              (Operations.record_match_players (uuids "m") 3 "2024-01-01" "A" ["B"]
                 (-0 * (1 - 0.5))%float (1200 + -0 * (1 - 0.5))%float
                 [mkLoserData "B" (-0 * (0 - 0.5)) (1200 + -0 * (0 - 0.5)) 1200]
                 (two_players (-0)) _ "m0" _ _))).
    + vm_compute. reflexivity.
    + repeat constructor; cbn; intuition discriminate.
Defined.

Lemma leaderboard_permutation_witness :
  exists rows, get_all_players a_beat_b = Ok rows
               /\ Permutation (map player rows) (players a_beat_b).
Proof.
  eexists. split; [vm_compute; reflexivity|].
  apply Board.leaderboard_permutation. vm_compute. reflexivity.
Defined.

Lemma leaderboard_order_witness :
  exists ranked provisional,
    get_all_players a_beat_b = Ok (ranked ++ provisional)%list
    /\ Forall (fun r => is_ranked r = true) ranked
    /\ Forall (fun r => is_ranked r = false) provisional.
Proof.
  destruct (Board.leaderboard_order a_beat_b
              [mkRankedPlayer (mkPlayer "A" "alice" 1216 1 1) false 5;
               mkRankedPlayer (mkPlayer "B" "bob" 1184 1 2) false 5])
    as (ranked & prov & Hrows & Hr & Hp & _).
  - vm_compute. reflexivity.
  - exists ranked, prov. split; [|now split]. rewrite <- Hrows. vm_compute. reflexivity.
Defined.

Lemma rank_of_stored_player_witness :
  rank "Z" [mkRankedPlayer (mkPlayer "A" "alice" 1216 1 1) false 5;
            mkRankedPlayer (mkPlayer "B" "bob" 1184 1 2) false 5] = None.
Proof.
  refine (proj2 (Board.rank_of_stored_player a_beat_b _ "Z" _) _).
  - vm_compute. reflexivity.
  - reflexivity.
Defined.

Lemma create_match_exceptions_witness :
  snd (FlaskApp.create_match_try Elo.pow10_ref (uuids "m") 3 "A" ["B"] "2024-01-01"
                                 far_apart)
  = far_apart.
Proof.
  refine (proj1 (Handler.create_match_exceptions Elo.pow10_ref (uuids "m") 3 "A" ["B"]
                   "2024-01-01" far_apart _ OverflowError _)).
  vm_compute. reflexivity.
Defined.

Lemma create_match_ratings_witness :
  exists w, get_player "A" (two_players 32) = Some w
            /\ get_player "A" a_beat_b
               = Some (mkPlayer (p_id w) (p_name w) (real_column (rating w + 16)%float)
                                (games_played w + 1) (p_created_at w))
            /\ (real_column (rating w) = rating w ->
                real_column (rating w + 16)%float = (rating w + 16)%float).
Proof.
  refine (proj1 (Handler.create_match_ratings Elo.pow10_ref (uuids "m") 3 "A" ["B"]
                   "2024-01-01" (two_players 32) a_beat_b "m0" 16 [(-16)%float] _ _)).
  - vm_compute. reflexivity.
  - repeat constructor; cbn; intuition discriminate.
Defined.

Lemma expected_score_range_witness :
  exists e, Elo.expected_score Elo.pow10_ref 1000 2200 = Ok e
            /\ (0 <=? e)%float = true /\ (e <=? 1)%float = true.
Proof.
  apply (Scores.expected_score_range Elo.pow10_ref 1000 2200 1000); reflexivity.
Defined.

Lemma calculate_deltas_signs_witness :
  exists winner_delta loser_deltas,
    Elo.calculate_deltas Elo.pow10_ref 1000 [2200%float] 32 = Ok (winner_delta, loser_deltas)
    /\ (0 <=? winner_delta)%float = true
    /\ Forall (fun d => (d <=? 0)%float = true) loser_deltas.
Proof.
  apply Scores.calculate_deltas_signs; [reflexivity | reflexivity|].
  intros lr [<-|[]]. eexists. eexists.
  split; [vm_compute; reflexivity|]. split; [reflexivity|].
  split; [vm_compute; reflexivity | reflexivity].
Defined.

Lemma equal_ratings_deltas_witness :
  Elo.calculate_deltas Elo.pow10_ref 1200 [1200; 1200]%float 32
  = Ok (fsum [16; 16]%float, [-16; -16]%float).
Proof.
  apply (Scores.equal_ratings_deltas Elo.pow10_ref eq_refl 1200 32 2); reflexivity.
Defined.

Lemma deleted_match_hidden_witness :
  delete_match "m0" a_beat_b = (Ok tt, two_players 32)
  /\ (forall row, In row (get_matches_history (two_players 32)) -> ms_id row <> "m0").
Proof.
  assert (H : delete_match "m0" a_beat_b = (Ok tt, two_players 32))
    by (vm_compute; reflexivity).
  split; [exact H|].
  exact (proj1 (Shown.deleted_match_hidden "m0" a_beat_b (two_players 32) H)).
Defined.

(** A match created under K = 32 shows in the list of matches; one created
    under K = 0.0 returns the deltas 0.0 and -0.0 and shows in the loser's
    history with a delta of +0.0. *)
Lemma created_match_shown_witness :
  (exists row, In row (get_matches_history a_beat_b) /\ ms_id row = "m0")
  /\ fst (FlaskApp.create_match Elo.pow10_ref (uuids "m") 3 "A" ["B"] "2024-01-01"
                                (two_players 0))
     = FlaskApp.MatchCreated "m0" 0 [(-0)%float]
  /\ (exists l d,
        get_player "B" (two_players 0) = Some l /\ nth_error [(-0)%float] 0 = Some d
        /\ In (mkHistoryRow "m0" "2024-01-01" 0 (real_column d)
                            (real_column (rating l + d)%float))
              (get_player_history "B"
                 (snd (FlaskApp.create_match Elo.pow10_ref (uuids "m") 3 "A" ["B"]
                                             "2024-01-01" (two_players 0)))))
  /\ real_column (-0) = 0%float.
Proof.
  split; [|split; [vm_compute; reflexivity | split; [|reflexivity]]].
  - refine (proj2 (proj2 (Shown.created_match_shown Elo.pow10_ref (uuids "m") 3 "A" ["B"]
                            "2024-01-01" (two_players 32) a_beat_b "m0" 16
                            [(-16)%float] _))).
    vm_compute. reflexivity.
  - refine (proj1 (proj2 (Shown.created_match_shown Elo.pow10_ref (uuids "m") 3 "A" ["B"]
                            "2024-01-01" (two_players 0) _ "m0" 0
                            [(-0)%float] _)) 0%nat "B" eq_refl).
    vm_compute. reflexivity.
Defined.

End Checks.
